(** * hnswlib.swift: the C wrapper around the HNSW and brute-force indices

    A shallow embedding of [Sources/CppSources/HNSWLibWrapper.cpp]:
    the [ParallelFor] helper, [normalize_vector], the two index structs and
    the exported [hnswlib_*] functions, followed by the properties of the
    batch operations.

    Conventions.
    - [int] and [size_t] values are integers in [Z]; the places where the
      source converts or wraps ([(size_t)(num_threads * 4)], [int j = k - 1],
      [cur_l + row], [cur_l += rows]) go through [to_int] and [to_size_t].
      Inside [ParallelFor] the unit and thread counters are [nat].
    - a pointer to a buffer ([const float* data], [uint64_t* result_labels])
      is the memory that starts there, a function from offsets to values.
    - a pointer that may be null ([HNSWIndex*], [appr_alg], [space], [ids])
      is an [option].
    - [float] arithmetic is kept abstract (an interface [FloatOps]). *)

From Stdlib Require Import ZArith List Bool Lia Permutation Sorted String.
Import ListNotations.
Local Open Scope Z_scope.

(** ** Machine integers *)

Definition to_size_t (z : Z) : Z := z mod 2 ^ 64.

Definition to_int (z : Z) : Z := (z + 2 ^ 31) mod 2 ^ 32 - 2 ^ 31.

(** ** [ParallelFor] *)

Section ParallelFor.

Context {St E : Type}.

(** [fn id threadId] run on the shared state: the state it leaves and the
    exception it raised, if any. *)
Variable fn : nat -> nat -> St -> St * option E.

(** [std::thread::hardware_concurrency()] *)
Variable hardware_concurrency : nat.

(** The [numThreads == 1] branch: [for (id = start; id < end; id++) fn(id, 0)];
    an exception leaves the loop at once. *)
Fixpoint for_loop (ids : list nat) (st : St) : St * option E :=
  match ids with
  | [] => (st, None)
  | id :: rest =>
      match fn id 0%nat st with
      | (st', None) => for_loop rest st'
      | (st', Some e) => (st', Some e)
      end
  end.

(** A worker thread of the other branch is, at any time, about to
    [fetch_add] the cursor, inside [fn(id, threadId)], inside the [catch]
    block before it takes the mutex, or out of its loop. *)
Inductive Worker : Type :=
| Idle
| Running (id : nat)
| Caught (id : nat) (e : E)
| Joinable.

(** What the workers did, for the specification only: nothing reads it. *)
Inductive Event : Type :=
| Fetched (tid id : nat)
| Returned (tid id : nat)
| Threw (tid id : nat) (e : E)
| Recorded (tid id : nat) (e : E).

Record Pool : Type := mkPool {
  current : nat;                 (* std::atomic<size_t> current *)
  workers : nat -> Worker;
  lastException : option E;      (* std::exception_ptr lastException *)
  shared : St;
  log : list Event               (* newest first *)
}.

Definition set_worker (ws : nat -> Worker) (tid : nat) (w : Worker) : nat -> Worker :=
  fun t => if Nat.eqb t tid then w else ws t.

(** One atomic action of thread [tid]. A call [fn(id, threadId)] takes
    effect in one step: the bodies passed to [ParallelFor] here write cells
    that no other unit or thread touches (the output block of the query, the
    slot [threadId * dim] of [norm_array]) and call an engine that serializes
    its own calls. The [catch] block is one step too, taken where it stores
    [current = end]: the mutex puts the blocks of two threads one after the
    other, and [lastException], written just before, is read by no worker,
    only after the joins. *)
Definition worker_step (end_ numThreads tid : nat) (p : Pool) : Pool :=
  if negb (Nat.ltb tid numThreads) then p else
  match workers p tid with
  | Idle =>
      let id := current p in
      mkPool (S id)
             (set_worker (workers p) tid (if Nat.leb end_ id then Joinable else Running id))
             (lastException p) (shared p) (Fetched tid id :: log p)
  | Running id =>
      match fn id tid (shared p) with
      | (st', None) =>
          mkPool (current p) (set_worker (workers p) tid Idle)
                 (lastException p) st' (Returned tid id :: log p)
      | (st', Some e) =>
          mkPool (current p) (set_worker (workers p) tid (Caught id e))
                 (lastException p) st' (Threw tid id e :: log p)
      end
  | Caught id e =>
      mkPool end_ (set_worker (workers p) tid Joinable)
             (Some e) (shared p) (Recorded tid id e :: log p)
  | Joinable => p
  end.

(** A schedule names the thread that moves next. *)
Definition run_pool (end_ numThreads : nat) (sched : list nat) (p : Pool) : Pool :=
  fold_left (fun q tid => worker_step end_ numThreads tid q) sched p.

Definition init_pool (start : nat) (st : St) : Pool :=
  mkPool start (fun _ => Idle) None st [].

Definition is_joinable (w : Worker) : bool :=
  match w with Joinable => true | _ => false end.

Definition all_joined (numThreads : nat) (p : Pool) : bool :=
  forallb (fun t => is_joinable (workers p t)) (seq 0 numThreads).

Definition resolve_threads (numThreads : nat) : nat :=
  if Nat.leb numThreads 0 then hardware_concurrency else numThreads.

(** [ParallelFor(start, end, numThreads, fn)] under a schedule: the shared
    state when it returns and the exception it rethrows, if any; [None]
    when the schedule stops before every thread can be joined. *)
Definition ParallelFor (start end_ numThreads : nat) (sched : list nat) (st : St)
  : option (St * option E) :=
  let n := resolve_threads numThreads in
  if Nat.eqb n 1 then Some (for_loop (seq start (end_ - start)) st)
  else
    let p := run_pool end_ n sched (init_pool start st) in
    if all_joined n p then Some (shared p, lastException p) else None.

(** *** Reading the log *)

(** The units run so far with the thread that ran each, newest first. *)
Fixpoint executed (l : list Event) : list (nat * nat) :=
  match l with
  | [] => []
  | Returned t i :: older => (i, t) :: executed older
  | Threw t i _ :: older => (i, t) :: executed older
  | _ :: older => executed older
  end.

(** The exceptions raised so far, newest first. *)
Fixpoint thrown (l : list Event) : list E :=
  match l with
  | [] => []
  | Threw _ _ e :: older => e :: thrown older
  | _ :: older => thrown older
  end.

(** The exception written last into [lastException]. *)
Fixpoint last_recorded (l : list Event) : option E :=
  match l with
  | [] => None
  | Recorded _ _ e :: _ => Some e
  | _ :: older => last_recorded older
  end.

(** The exception written first into [lastException]. *)
Fixpoint first_recorded (l : list Event) : option E :=
  match l with
  | [] => None
  | ev :: older =>
      match first_recorded older with
      | Some e => Some e
      | None => match ev with Recorded _ _ e => Some e | _ => None end
      end
  end.

(** The exception raised first. *)
Definition first_thrown (l : list Event) : option E := last (map Some (thrown l)) None.

(** Running a list of (unit, thread) pairs, the newest first, from [st0]:
    the state reached and the exceptions raised, newest first. *)
Fixpoint replay (l : list (nat * nat)) (st0 : St) : St * list E :=
  match l with
  | [] => (st0, [])
  | (id, tid) :: older =>
      let (st, es) := replay older st0 in
      let (st', r) := fn id tid st in
      (st', match r with None => es | Some e => e :: es end)
  end.

(** What holds of every pool that the workers can reach from
    [init_pool start st0]. *)
Record pool_inv (start end_ n : nat) (st0 : St) (p : Pool) : Prop := {
  inv_cursor : (start <= current p)%nat \/ (end_ <= current p)%nat;
  inv_units : forall i t, In (i, t) (executed (log p)) ->
      (start <= i < end_)%nat /\ (i < current p)%nat /\ (t < n)%nat;
  inv_running : forall t i, (t < n)%nat -> workers p t = Running i ->
      (start <= i < end_)%nat /\ (i < current p)%nat /\ ~ In i (map fst (executed (log p)));
  inv_distinct : forall t t' i, (t < n)%nat -> (t' < n)%nat ->
      workers p t = Running i -> workers p t' = Running i -> t = t';
  inv_nodup : NoDup (map fst (executed (log p)));
  inv_all : lastException p = None -> forall i, (start <= i < current p)%nat -> (i < end_)%nat ->
      In i (map fst (executed (log p))) \/ exists t, (t < n)%nat /\ workers p t = Running i;
  inv_joined : lastException p = None -> forall t, (t < n)%nat -> workers p t = Joinable ->
      (end_ <= current p)%nat;
  inv_replay : replay (executed (log p)) st0 = (shared p, thrown (log p));
  inv_last : lastException p = last_recorded (log p);
  inv_stop : lastException p <> None -> (end_ <= current p)%nat;
  inv_thrown : forall t i e, In (Threw t i e) (log p) ->
      ((t < n)%nat /\ workers p t = Caught i e) \/ In (Recorded t i e) (log p);
  inv_caught : forall t i e, (t < n)%nat -> workers p t = Caught i e -> In (Threw t i e) (log p);
  inv_recorded : forall t i e, In (Recorded t i e) (log p) -> In (Threw t i e) (log p);
  inv_fetched : forall t i, In (Fetched t i) (log p) -> (i < end_)%nat ->
      ((t < n)%nat /\ workers p t = Running i) \/ In (Returned t i) (log p)
      \/ exists e, In (Threw t i e) (log p);
  inv_late : forall later t i e earlier t' i',
      log p = later ++ Recorded t i e :: earlier -> In (Fetched t' i') later -> (end_ <= i')%nat
}.

(** How far thread [tid] is from leaving its loop when nothing else moves. *)
Definition steps_left (end_ tid : nat) (p : Pool) : nat :=
  match workers p tid with
  | Joinable => 0
  | Caught _ _ => 1
  | Idle => 2 * (end_ - current p) + 1
  | Running _ => 2 * (end_ - current p) + 2
  end.

(** A schedule that lets the threads run to their end one after the other. *)
Definition one_by_one (start end_ n : nat) : list nat :=
  flat_map (fun t => repeat t (2 * (end_ - start) + 2)) (seq 0 n).

End ParallelFor.

Arguments Idle {E}.
Arguments Running {E} id.
Arguments Caught {E} id e.
Arguments Joinable {E}.
Arguments Fetched {E} tid id.
Arguments Returned {E} tid id.
Arguments Threw {E} tid id e.
Arguments Recorded {E} tid id e.

(** The rule "the first failure observed is the one propagated", for the
    pools of more than one thread: when all threads are joined, the exception
    kept is the one raised first. *)
Definition first_failure_wins : Prop :=
  forall (St E : Type) (fn : nat -> nat -> St -> St * option E)
         (start end_ n : nat) (sched : list nat) (st0 : St),
    (1 < n)%nat ->
    all_joined n (run_pool fn end_ n sched (init_pool start st0)) = true ->
    lastException (run_pool fn end_ n sched (init_pool start st0))
    = first_thrown (log (run_pool fn end_ n sched (init_pool start st0))).

(** ** Floats, buffers and vectors *)

(** The [float] operations the wrapper uses. *)
Class FloatOps : Type := {
  float : Type;
  f0 : float;                          (* 0.0f *)
  f1 : float;                          (* 1.0f *)
  feps : float;                        (* 1e-30f *)
  fadd : float -> float -> float;
  fmul : float -> float -> float;
  fdiv : float -> float -> float;
  sqrtf : float -> float;
  flt : float -> float -> bool         (* operator< *)
}.

(** [operator<] orders the distances of the pairs of [l]: among them it is
    asymmetric and its negation is transitive, as it is among the values of an
    IEEE [float] other than NaN. Nothing is asked of the other values of
    [float]. *)
Definition orders_distances {F : FloatOps} (l : list (float * Z)) : Prop :=
  (forall a b, In a l -> In b l ->
     flt (fst a) (fst b) = true -> flt (fst b) (fst a) = false) /\
  (forall a b c, In a l -> In b l -> In c l ->
     flt (fst a) (fst b) = false -> flt (fst b) (fst c) = false ->
     flt (fst a) (fst c) = false).

Definition store {A : Type} (m : Z -> A) (i : Z) (v : A) : Z -> A :=
  fun j => if Z.eqb j i then v else m j.

(** The [n] values found from offset [off] on. *)
Definition load_vector {A : Type} (m : Z -> A) (off : Z) (n : nat) : list A :=
  map (fun i => m (off + Z.of_nat i)) (seq 0 n).

(** The indices of [for (int i = 0; i < dim; i++)]. *)
Definition loop_indices (dim : Z) : list Z :=
  map Z.of_nat (seq 0 (Z.to_nat dim)).

Section Normalize.

Context {F : FloatOps}.

(** [normalize_vector(&data[doff], &norm_array[noff], dim)]: the memory of
    [norm_array] afterwards. *)
Definition normalize_vector (data : Z -> float) (doff : Z)
    (norm_array : Z -> float) (noff : Z) (dim : Z) : Z -> float :=
  let norm := fold_left (fun acc i => fadd acc (fmul (data (doff + i)) (data (doff + i))))
                        (loop_indices dim) f0 in
  let norm := fdiv f1 (fadd (sqrtf norm) feps) in
  fold_left (fun out i => store out (noff + i) (fmul (data (doff + i)) norm))
            (loop_indices dim) norm_array.

(** Scaling a vector to unit length, as a function on vectors: the sum of
    the squares from the left, then every component times
    [1 / (sqrt sum + eps)]. *)
Definition unit_normalized (v : list float) : list float :=
  let norm := fold_left (fun acc x => fadd acc (fmul x x)) v f0 in
  map (fun x => fmul x (fdiv f1 (fadd (sqrtf norm) feps))) v.

(** ** [std::priority_queue<std::pair<float, labeltype>>] *)

(** [operator<] of [std::pair<float, labeltype>]. *)
Definition pair_lt (a b : float * Z) : bool :=
  flt (fst a) (fst b) || (negb (flt (fst b) (fst a)) && (snd a <? snd b)).

(** [a] is not below [b]. *)
Definition not_below (a b : float * Z) : Prop := pair_lt a b = false.

(** The queue is kept as the list of its elements, the greatest first. *)
Definition priority_queue : Type := list (float * Z).

Fixpoint pq_push (x : float * Z) (q : priority_queue) : priority_queue :=
  match q with
  | [] => [x]
  | y :: r => if pair_lt x y then y :: pq_push x r else x :: q
  end.

(** [top()] and [pop()] of an empty queue are undefined in the source; here
    [top()] reads [(0.0f, 0)] and [pop()] leaves the queue empty.
    [hnswlib_index_search_knn] checks the size of the queue before its loop and
    never gets there. [hnswlib_bf_index_search_knn] has no such check: what
    is stated of it below is stated for queues of [k] pairs. *)
Definition pq_top (q : priority_queue) : float * Z := hd (f0, 0) q.

Definition pq_pop (q : priority_queue) : priority_queue := tl q.

Definition pq_size (q : priority_queue) : Z := Z.of_nat (List.length q).

(** The queue holding the given elements, pushed one after the other. *)
Definition pq_of_list (l : list (float * Z)) : priority_queue :=
  fold_left (fun q x => pq_push x q) l [].

(** [for (int j = k - 1; j >= 0; j--) { t = result.top();
      result_distances[i * k + j] = t.first; result_labels[i * k + j] = t.second;
      result.pop(); }]
    with [n] iterations left, so that [j] is [n - 1]. *)
Fixpoint unload (n : nat) (i k : Z) (result : priority_queue)
    (result_labels : Z -> Z) (result_distances : Z -> float) : (Z -> Z) * (Z -> float) :=
  match n with
  | O => (result_labels, result_distances)
  | S m =>
      let j := Z.of_nat m in
      let result_tuple := pq_top result in
      let result_distances := store result_distances (i * k + j) (fst result_tuple) in
      let result_labels := store result_labels (i * k + j) (snd result_tuple) in
      unload m i k (pq_pop result) result_labels result_distances
  end.

(** The number of turns of that loop: [j] starts at [(int)(k - 1)]. *)
Definition unload_turns (k : Z) : nat := Z.to_nat (to_int (k - 1) + 1).

(** The [(label, distance)] pairs of the [i]-th output block. *)
Definition output_block (k i : Z) (result_labels : Z -> Z) (result_distances : Z -> float)
  : list (Z * float) :=
  map (fun j => (result_labels (i * k + j), result_distances (i * k + j))) (loop_indices k).

End Normalize.

(** ** The engine, [hnswlib.h] *)

(** HNSWLibWrapper.h *)
Inductive SpaceType : Type := SpaceTypeL2 | SpaceTypeIP | SpaceTypeCosine.

(** The exceptions met here; each derives from [std::exception]. *)
Inductive exception : Type :=
| runtime_error (what : string)
| length_error               (* a [std::vector] of a size beyond [max_size()] *)
| InvalidArgument.           (* the metric space's, spec 4.1 *)

Inductive SpaceClass : Type := L2Space | InnerProductSpace.

Record SpaceInterface : Type := mkSpace {
  space_class : SpaceClass;
  space_dim : Z
}.

(** Modelled from the spec: the constructors [L2Space(dim)] and
    [InnerProductSpace(dim)], which live in [hnswlib.h] and are not among the
    sources. Spec 4.1 (MetricSpace): "Construction fails (InvalidArgument) if
    dimension <= 0." *)
Definition new_Space (c : SpaceClass) (dim : Z) : SpaceInterface + exception :=
  if dim <=? 0 then inr InvalidArgument else inl (mkSpace c dim).

Section Engine.

Context {F : FloatOps}.

(** A call that changed an engine. *)
Inductive EngineCall : Type :=
| AddPoint (v : list float) (label : Z) (replace_deleted : bool)
| MarkDelete (label : Z)
| UnmarkDelete (label : Z).

(** A [HierarchicalNSW<float>] object, whose class is not among the sources:
    what it was constructed with, the field [ef_] that the wrapper writes, and
    the calls that it has carried out, oldest first. The graph the engine
    keeps is a function of these. *)
Record HierarchicalNSW : Type := mkHNSW {
  hnsw_space : SpaceInterface;
  max_elements_ : Z;
  M_ : Z;
  ef_construction_ : Z;
  random_seed_ : Z;
  allow_replace_deleted_ : bool;
  ef_ : Z;
  calls : list EngineCall
}.

(** A [BruteforceSearch<float>] object, in the same way. *)
Record BruteforceSearch : Type := mkBF {
  bf_space_ : SpaceInterface;
  maxelements_ : Z;
  bf_calls : list EngineCall
}.

(** What the engine decides: when a constructor or a call raises, what a
    search finds, which labels carry a tombstone. *)
Class Hnswlib : Type := {
  HierarchicalNSW_raises : SpaceInterface -> Z -> Z -> Z -> Z -> bool -> option exception;
  addPoint_raises : HierarchicalNSW -> list float -> Z -> bool -> option exception;
  markDelete_raises : HierarchicalNSW -> Z -> option exception;
  unmarkDelete_raises : HierarchicalNSW -> Z -> option exception;
  (** the pairs (distance, label) in the queue that [searchKnn] returns, in
      the order the engine pushed them *)
  searchKnn : HierarchicalNSW -> list float -> Z -> list (float * Z);
  isMarkedDeleted : HierarchicalNSW -> Z -> bool;
  BruteforceSearch_raises : SpaceInterface -> Z -> option exception;
  bf_addPoint_raises : BruteforceSearch -> list float -> Z -> option exception;
  bf_searchKnn : BruteforceSearch -> list float -> Z -> list (float * Z)
}.

Context {H : Hnswlib}.

Definition with_calls (alg : HierarchicalNSW) (c : list EngineCall) : HierarchicalNSW :=
  mkHNSW (hnsw_space alg) (max_elements_ alg) (M_ alg) (ef_construction_ alg)
         (random_seed_ alg) (allow_replace_deleted_ alg) (ef_ alg) c.

Definition with_ef (alg : HierarchicalNSW) (ef : Z) : HierarchicalNSW :=
  mkHNSW (hnsw_space alg) (max_elements_ alg) (M_ alg) (ef_construction_ alg)
         (random_seed_ alg) (allow_replace_deleted_ alg) ef (calls alg).

(** [new HierarchicalNSW<float>(space, max_elements, M, ef_construction,
    random_seed, allow_replace_deleted)] *)
Definition new_HierarchicalNSW (s : SpaceInterface) (max_elements M ef_construction random_seed : Z)
    (allow_replace_deleted : bool) : HierarchicalNSW + exception :=
  match HierarchicalNSW_raises s max_elements M ef_construction random_seed allow_replace_deleted with
  | Some e => inr e
  | None => inl (mkHNSW s max_elements M ef_construction random_seed allow_replace_deleted 10 [])
  end.

(** [alg->addPoint(v, label, replace_deleted)] *)
Definition addPoint (alg : HierarchicalNSW) (v : list float) (label : Z) (replace_deleted : bool)
  : HierarchicalNSW * option exception :=
  match addPoint_raises alg v label replace_deleted with
  | Some e => (alg, Some e)
  | None => (with_calls alg (calls alg ++ [AddPoint v label replace_deleted]), None)
  end.

Definition markDelete (alg : HierarchicalNSW) (label : Z) : HierarchicalNSW * option exception :=
  match markDelete_raises alg label with
  | Some e => (alg, Some e)
  | None => (with_calls alg (calls alg ++ [MarkDelete label]), None)
  end.

Definition unmarkDelete (alg : HierarchicalNSW) (label : Z) : HierarchicalNSW * option exception :=
  match unmarkDelete_raises alg label with
  | Some e => (alg, Some e)
  | None => (with_calls alg (calls alg ++ [UnmarkDelete label]), None)
  end.

Definition new_BruteforceSearch (s : SpaceInterface) (max_elements : Z) : BruteforceSearch + exception :=
  match BruteforceSearch_raises s max_elements with
  | Some e => inr e
  | None => inl (mkBF s max_elements [])
  end.

(** [alg->addPoint(v, label)] of the brute-force index *)
Definition bf_addPoint (alg : BruteforceSearch) (v : list float) (label : Z)
  : BruteforceSearch * option exception :=
  match bf_addPoint_raises alg v label with
  | Some e => (alg, Some e)
  | None => (mkBF (bf_space_ alg) (maxelements_ alg) (bf_calls alg ++ [AddPoint v label false]), None)
  end.

(** The points an engine took, oldest first, each with its label. *)
Fixpoint points_added (c : list EngineCall) : list (Z * list float) :=
  match c with
  | [] => []
  | AddPoint v label _ :: rest => (label, v) :: points_added rest
  | _ :: rest => points_added rest
  end.

End Engine.

(** ** The index structs *)

(** The host: [std::thread::hardware_concurrency()]. *)
Class Host : Type := { hardware_concurrency : nat }.

Section Wrapper.

Context {F : FloatOps} {H : Hnswlib} {host : Host}.

Record HNSWIndex : Type := mkHNSWIndex {
  space_type : SpaceType;
  dim : Z;
  normalize : bool;
  index_inited : bool;
  ep_added : bool;
  num_threads_default : Z;
  cur_l : Z;
  appr_alg : option HierarchicalNSW;
  space : option SpaceInterface;
  default_ef : Z
}.

Record BFIndex : Type := mkBFIndex {
  bf_space_type : SpaceType;
  bf_dim : Z;
  bf_normalize : bool;
  bf_num_threads_default : Z;
  bf_cur_l : Z;
  alg : option BruteforceSearch;
  bf_space : option SpaceInterface
}.

(** The space and the [normalize] flag chosen by both constructors. *)
Definition space_for (space_type : SpaceType) (dim : Z) : (SpaceInterface * bool) + exception :=
  match space_type with
  | SpaceTypeL2 =>
      match new_Space L2Space dim with inl s => inl (s, false) | inr e => inr e end
  | SpaceTypeIP =>
      match new_Space InnerProductSpace dim with inl s => inl (s, false) | inr e => inr e end
  | SpaceTypeCosine =>
      match new_Space InnerProductSpace dim with inl s => inl (s, true) | inr e => inr e end
  end.

(** [HNSWIndex::HNSWIndex(space_type, dim)] *)
Definition new_HNSWIndex (space_type : SpaceType) (dim : Z) : HNSWIndex + exception :=
  match space_for space_type dim with
  | inr e => inr e
  | inl (s, norm) =>
      inl (mkHNSWIndex space_type dim norm false false
             (to_int (Z.of_nat hardware_concurrency)) 0 None (Some s) 10)
  end.

(** [BFIndex::BFIndex(space_type, dim)] *)
Definition new_BFIndex (space_type : SpaceType) (dim : Z) : BFIndex + exception :=
  match space_for space_type dim with
  | inr e => inr e
  | inl (s, norm) =>
      inl (mkBFIndex space_type dim norm (to_int (Z.of_nat hardware_concurrency)) 0 None (Some s))
  end.

Definition hnswlib_index_create (space_type : SpaceType) (dim : Z) : option HNSWIndex :=
  match new_HNSWIndex space_type dim with
  | inl index => Some index
  | inr _ => None
  end.

Definition hnswlib_bf_index_create (space_type : SpaceType) (dim : Z) : option BFIndex :=
  match new_BFIndex space_type dim with
  | inl index => Some index
  | inr _ => None
  end.

Definition with_appr_alg (index : HNSWIndex) (a : option HierarchicalNSW) : HNSWIndex :=
  mkHNSWIndex (space_type index) (dim index) (normalize index) (index_inited index)
              (ep_added index) (num_threads_default index) (cur_l index) a
              (space index) (default_ef index).

Definition with_cur_l (index : HNSWIndex) (l : Z) : HNSWIndex :=
  mkHNSWIndex (space_type index) (dim index) (normalize index) (index_inited index)
              (ep_added index) (num_threads_default index) l (appr_alg index)
              (space index) (default_ef index).

Definition with_ep_added (index : HNSWIndex) (b : bool) : HNSWIndex :=
  mkHNSWIndex (space_type index) (dim index) (normalize index) (index_inited index)
              b (num_threads_default index) (cur_l index) (appr_alg index)
              (space index) (default_ef index).

Definition with_index_inited (index : HNSWIndex) (b : bool) : HNSWIndex :=
  mkHNSWIndex (space_type index) (dim index) (normalize index) b
              (ep_added index) (num_threads_default index) (cur_l index) (appr_alg index)
              (space index) (default_ef index).

Definition with_default_ef (index : HNSWIndex) (ef : Z) : HNSWIndex :=
  mkHNSWIndex (space_type index) (dim index) (normalize index) (index_inited index)
              (ep_added index) (num_threads_default index) (cur_l index) (appr_alg index)
              (space index) ef.

(** [hnswlib_index_init]: the result and the index afterwards. When the
    engine's constructor raises, [appr_alg] keeps pointing at the engine just
    deleted. *)
Definition hnswlib_index_init (index : option HNSWIndex)
    (max_elements M ef_construction random_seed : Z) (allow_replace_deleted : bool)
  : bool * option HNSWIndex :=
  match index with
  | None => (false, None)
  | Some idx =>
      match space idx with
      | None => (false, index)
      | Some s =>
          let idx := with_cur_l idx 0 in
          match new_HierarchicalNSW s max_elements M ef_construction random_seed
                                    allow_replace_deleted with
          | inr _ => (false, Some idx)
          | inl a =>
              let idx := with_appr_alg idx (Some a) in
              let idx := with_index_inited idx true in
              let idx := with_ep_added idx false in
              let idx := with_appr_alg idx (Some (with_ef a (default_ef idx))) in
              (true, Some idx)
          end
      end
  end.

(** [hnswlib_index_set_ef] *)
Definition hnswlib_index_set_ef (index : option HNSWIndex) (ef : Z) : option HNSWIndex :=
  match index with
  | None => None
  | Some idx =>
      let idx := with_default_ef idx ef in
      match appr_alg idx with
      | Some a => Some (with_appr_alg idx (Some (with_ef a ef)))
      | None => Some idx
      end
  end.

(** [hnswlib_index_get_ef] *)
Definition hnswlib_index_get_ef (index : option HNSWIndex) : Z :=
  match index with
  | None => 0
  | Some idx => match appr_alg idx with None => 0 | Some a => ef_ a end
  end.

(** [hnswlib_index_get_max_elements], [hnswlib_index_get_m] *)
Definition hnswlib_index_get_max_elements (index : option HNSWIndex) : Z :=
  match index with
  | None => 0
  | Some idx => match appr_alg idx with None => 0 | Some a => max_elements_ a end
  end.

Definition hnswlib_index_get_m (index : option HNSWIndex) : Z :=
  match index with
  | None => 0
  | Some idx => match appr_alg idx with None => 0 | Some a => M_ a end
  end.

(** [hnswlib_index_mark_deleted], [hnswlib_index_unmark_deleted]: an
    exception of the engine is printed and dropped. *)
Definition hnswlib_index_mark_deleted (index : option HNSWIndex) (label : Z) : option HNSWIndex :=
  match index with
  | None => None
  | Some idx =>
      match appr_alg idx with
      | None => index
      | Some a => Some (with_appr_alg idx (Some (fst (markDelete a label))))
      end
  end.

Definition hnswlib_index_unmark_deleted (index : option HNSWIndex) (label : Z) : option HNSWIndex :=
  match index with
  | None => None
  | Some idx =>
      match appr_alg idx with
      | None => index
      | Some a => Some (with_appr_alg idx (Some (fst (unmarkDelete a label))))
      end
  end.

(** ** Batch insertion *)

(** [if (num_threads <= 0) num_threads = index->num_threads_default;] *)
Definition default_threads (num_threads num_threads_default : Z) : Z :=
  if num_threads <=? 0 then num_threads_default else num_threads.

(** [if (rows <= (size_t)(num_threads * 4)) num_threads = 1;] *)
Definition small_batch_threads (rows num_threads : Z) : Z :=
  if rows <=? to_size_t (to_int (num_threads * 4)) then 1 else num_threads.

(** The thread count that [hnswlib_index_add_items] hands to [ParallelFor]. *)
Definition add_items_threads (index : HNSWIndex) (rows num_threads : Z) : Z :=
  small_batch_threads rows (default_threads num_threads (num_threads_default index)).

(** The block [if (!index->ep_added) { ... }] of [hnswlib_index_add_items]:
    the value of [start], the index and the engine after it. *)
Definition add_items_entry_point (index : HNSWIndex) (a : HierarchicalNSW)
    (data : Z -> float) (ids : option (Z -> Z)) (replace_deleted : bool)
  : (Z * HNSWIndex * HierarchicalNSW) + exception :=
  if negb (ep_added index) then
    let id := match ids with Some ids => ids 0 | None => cur_l index end in
    if dim index <? 0 then inr length_error      (* std::vector<float> norm_array(index->dim) *)
    else
      let norm_array : Z -> float := fun _ => f0 in
      let vector_data :=
        if normalize index
        then load_vector (normalize_vector data 0 norm_array 0 (dim index)) 0 (Z.to_nat (dim index))
        else load_vector data 0 (Z.to_nat (dim index)) in
      match addPoint a vector_data id replace_deleted with
      | (_, Some e) => inr e
      | (a', None) => inl (1, with_ep_added index true, a')
      end
  else inl (0, index, a).

(** The body of the first [ParallelFor] of [hnswlib_index_add_items]
    ([normalize == false]), on the engine. *)
Definition add_items_plain (index : HNSWIndex) (data : Z -> float) (dim_ : Z)
    (ids : option (Z -> Z)) (replace_deleted : bool) (row threadId : nat)
    (a : HierarchicalNSW) : HierarchicalNSW * option exception :=
  let id := match ids with
            | Some ids => ids (Z.of_nat row)
            | None => to_size_t (cur_l index + Z.of_nat row)
            end in
  addPoint a (load_vector data (Z.of_nat row * dim_) (Z.to_nat (dim index))) id replace_deleted.

(** The body of the second one, on the engine and [norm_array]. *)
Definition add_items_normalized (index : HNSWIndex) (data : Z -> float) (dim_ : Z)
    (ids : option (Z -> Z)) (replace_deleted : bool) (row threadId : nat)
    (st : HierarchicalNSW * (Z -> float)) : (HierarchicalNSW * (Z -> float)) * option exception :=
  let start_idx := Z.of_nat threadId * dim index in
  let norm_array := normalize_vector data (Z.of_nat row * dim_) (snd st) start_idx (dim index) in
  let id := match ids with
            | Some ids => ids (Z.of_nat row)
            | None => to_size_t (cur_l index + Z.of_nat row)
            end in
  let (a', r) := addPoint (fst st) (load_vector norm_array start_idx (Z.to_nat (dim index)))
                          id replace_deleted in
  ((a', norm_array), r).

(** [hnswlib_index_add_items] under a schedule of the worker threads: the
    result and the index afterwards; [None] when the schedule ends before
    [ParallelFor] can return. *)
Definition hnswlib_index_add_items (sched : list nat) (index : option HNSWIndex)
    (data : Z -> float) (rows dim_ : Z) (ids : option (Z -> Z)) (num_threads : Z)
    (replace_deleted : bool) : option (bool * option HNSWIndex) :=
  match index with
  | None => Some (false, None)
  | Some idx =>
      match appr_alg idx with
      | None => Some (false, index)
      | Some a =>
          if negb (dim_ =? to_size_t (dim idx)) then Some (false, index)
          else
            let num_threads := add_items_threads idx rows num_threads in
            match add_items_entry_point idx a data ids replace_deleted with
            | inr _ => Some (false, index)
            | inl (start, idx, a) =>
                let done :=
                  if negb (normalize idx) then
                    ParallelFor (add_items_plain idx data dim_ ids replace_deleted)
                                hardware_concurrency
                                (Z.to_nat start) (Z.to_nat rows)
                                (Z.to_nat (to_size_t num_threads)) sched a
                  else if to_int (num_threads * dim idx) <? 0 then Some (a, Some length_error)
                  else
                    option_map (fun r => (fst (fst r), snd r))
                      (ParallelFor (add_items_normalized idx data dim_ ids replace_deleted)
                                   hardware_concurrency
                                   (Z.to_nat start) (Z.to_nat rows)
                                   (Z.to_nat (to_size_t num_threads)) sched
                                   (a, fun _ => f0)) in
                match done with
                | None => None
                | Some (a, Some _) => Some (false, Some (with_appr_alg idx (Some a)))
                | Some (a, None) =>
                    let idx := with_appr_alg idx (Some a) in
                    Some (true, Some (with_cur_l idx (to_size_t (cur_l idx + rows))))
                end
            end
      end
  end.

(** ** Batch search *)

Record SearchBuffers : Type := mkBuffers {
  norm_array : Z -> float;
  result_labels : Z -> Z;
  result_distances : Z -> float
}.

Definition search_knn_threads (index : HNSWIndex) (query_count num_threads : Z) : Z :=
  small_batch_threads query_count (default_threads num_threads (num_threads_default index)).

(** The body of the first [ParallelFor] of [hnswlib_index_search_knn]
    ([!index->normalize]). *)
Definition search_knn_plain (index : HNSWIndex) (a : HierarchicalNSW) (query : Z -> float)
    (k : Z) (i threadId : nat) (b : SearchBuffers) : SearchBuffers * option exception :=
  let result :=
    pq_of_list (searchKnn a (load_vector query (Z.of_nat i * dim index) (Z.to_nat (dim index))) k) in
  if negb (pq_size result =? k) then
    (b, Some (runtime_error "Cannot return results. Probably ef or M is too small"))
  else
    let (labels, distances) :=
      unload (unload_turns k) (Z.of_nat i) k result (result_labels b) (result_distances b) in
    (mkBuffers (norm_array b) labels distances, None).

(** The body of the second one. *)
Definition search_knn_normalized (index : HNSWIndex) (a : HierarchicalNSW) (query : Z -> float)
    (k : Z) (i threadId : nat) (b : SearchBuffers) : SearchBuffers * option exception :=
  let start_idx := Z.of_nat threadId * dim index in
  let norm := normalize_vector query (Z.of_nat i * dim index) (norm_array b) start_idx (dim index) in
  let result :=
    pq_of_list (searchKnn a (load_vector norm start_idx (Z.to_nat (dim index))) k) in
  if negb (pq_size result =? k) then
    (mkBuffers norm (result_labels b) (result_distances b),
     Some (runtime_error "Cannot return results. Probably ef or M is too small"))
  else
    let (labels, distances) :=
      unload (unload_turns k) (Z.of_nat i) k result (result_labels b) (result_distances b) in
    (mkBuffers norm labels distances, None).

(** [hnswlib_index_search_knn] under a schedule of the worker threads: the
    result and the two output arrays afterwards. *)
Definition hnswlib_index_search_knn (sched : list nat) (index : option HNSWIndex)
    (query : Z -> float) (k : Z) (labels : Z -> Z) (distances : Z -> float)
    (query_count num_threads : Z) : option (bool * (Z -> Z) * (Z -> float)) :=
  match index with
  | None => Some (false, labels, distances)
  | Some idx =>
      match appr_alg idx with
      | None => Some (false, labels, distances)
      | Some a =>
          let num_threads := search_knn_threads idx query_count num_threads in
          let done :=
            if negb (normalize idx) then
              ParallelFor (search_knn_plain idx a query k) hardware_concurrency
                          0 (Z.to_nat query_count) (Z.to_nat (to_size_t num_threads)) sched
                          (mkBuffers (fun _ => f0) labels distances)
            else if to_int (num_threads * dim idx) <? 0 then
              Some (mkBuffers (fun _ => f0) labels distances, Some length_error)
            else
              ParallelFor (search_knn_normalized idx a query k) hardware_concurrency
                          0 (Z.to_nat query_count) (Z.to_nat (to_size_t num_threads)) sched
                          (mkBuffers (fun _ => f0) labels distances) in
          match done with
          | None => None
          | Some (b, Some _) => Some (false, result_labels b, result_distances b)
          | Some (b, None) => Some (true, result_labels b, result_distances b)
          end
      end
  end.

(** ** The brute-force index *)

(** [hnswlib_bf_index_init] *)
Definition hnswlib_bf_index_init (index : option BFIndex) (max_elements : Z)
  : bool * option BFIndex :=
  match index with
  | None => (false, None)
  | Some idx =>
      match bf_space idx with
      | None => (false, index)
      | Some s =>
          let idx := mkBFIndex (bf_space_type idx) (bf_dim idx) (bf_normalize idx)
                               (bf_num_threads_default idx) 0 (alg idx) (bf_space idx) in
          match new_BruteforceSearch s max_elements with
          | inr _ => (false, Some idx)
          | inl a =>
              (true, Some (mkBFIndex (bf_space_type idx) (bf_dim idx) (bf_normalize idx)
                                     (bf_num_threads_default idx) (bf_cur_l idx) (Some a)
                                     (bf_space idx)))
          end
      end
  end.

(** The body of the loop over the rows in [hnswlib_bf_index_add_items]. *)
Definition bf_add_items_row (index : BFIndex) (data : Z -> float) (dim_ : Z)
    (ids : option (Z -> Z)) (row threadId : nat) (a : BruteforceSearch)
  : BruteforceSearch * option exception :=
  let id := match ids with
            | Some ids => ids (Z.of_nat row)
            | None => to_size_t (bf_cur_l index + Z.of_nat row)
            end in
  if negb (bf_normalize index) then
    bf_addPoint a (load_vector data (Z.of_nat row * dim_) (Z.to_nat (bf_dim index))) id
  else if bf_dim index <? 0 then (a, Some length_error)
  else
    let normalized_vector :=
      normalize_vector data (Z.of_nat row * dim_) (fun _ => f0) 0 (bf_dim index) in
    bf_addPoint a (load_vector normalized_vector 0 (Z.to_nat (bf_dim index))) id.

(** [hnswlib_bf_index_add_items] *)
Definition hnswlib_bf_index_add_items (index : option BFIndex) (data : Z -> float)
    (rows dim_ : Z) (ids : option (Z -> Z)) : bool * option BFIndex :=
  match index with
  | None => (false, None)
  | Some idx =>
      match alg idx with
      | None => (false, index)
      | Some a =>
          if negb (dim_ =? to_size_t (bf_dim idx)) then (false, index)
          else
            match for_loop (bf_add_items_row idx data dim_ ids) (seq 0 (Z.to_nat rows)) a with
            | (a, Some _) =>
                (false, Some (mkBFIndex (bf_space_type idx) (bf_dim idx) (bf_normalize idx)
                                        (bf_num_threads_default idx) (bf_cur_l idx) (Some a)
                                        (bf_space idx)))
            | (a, None) =>
                (true, Some (mkBFIndex (bf_space_type idx) (bf_dim idx) (bf_normalize idx)
                                       (bf_num_threads_default idx)
                                       (to_size_t (bf_cur_l idx + rows)) (Some a)
                                       (bf_space idx)))
            end
      end
  end.

(** The thread count that [hnswlib_bf_index_search_knn] hands to
    [ParallelFor]. *)
Definition bf_search_knn_threads (index : BFIndex) (query_count num_threads : Z) : Z :=
  default_threads num_threads (bf_num_threads_default index).

(** The body of the [ParallelFor] of [hnswlib_bf_index_search_knn], on the
    two output arrays. *)
Definition bf_search_knn_unit (index : BFIndex) (a : BruteforceSearch) (query : Z -> float)
    (k : Z) (i threadId : nat) (b : (Z -> Z) * (Z -> float))
  : ((Z -> Z) * (Z -> float)) * option exception :=
  if negb (bf_normalize index) then
    let result :=
      pq_of_list (bf_searchKnn a (load_vector query (Z.of_nat i * bf_dim index)
                                              (Z.to_nat (bf_dim index))) k) in
    (unload (unload_turns k) (Z.of_nat i) k result (fst b) (snd b), None)
  else if bf_dim index <? 0 then (b, Some length_error)
  else
    let normalized_query :=
      normalize_vector query (Z.of_nat i * bf_dim index) (fun _ => f0) 0 (bf_dim index) in
    let result :=
      pq_of_list (bf_searchKnn a (load_vector normalized_query 0 (Z.to_nat (bf_dim index))) k) in
    (unload (unload_turns k) (Z.of_nat i) k result (fst b) (snd b), None).

(** [hnswlib_bf_index_search_knn] under a schedule of the worker threads. *)
Definition hnswlib_bf_index_search_knn (sched : list nat) (index : option BFIndex)
    (query : Z -> float) (k : Z) (labels : Z -> Z) (distances : Z -> float)
    (query_count num_threads : Z) : option (bool * (Z -> Z) * (Z -> float)) :=
  match index with
  | None => Some (false, labels, distances)
  | Some idx =>
      match alg idx with
      | None => Some (false, labels, distances)
      | Some a =>
          let num_threads := bf_search_knn_threads idx query_count num_threads in
          match ParallelFor (bf_search_knn_unit idx a query k) hardware_concurrency
                            0 (Z.to_nat query_count) (Z.to_nat (to_size_t num_threads)) sched
                            (labels, distances) with
          | None => None
          | Some (b, Some _) => Some (false, fst b, snd b)
          | Some (b, None) => Some (true, fst b, snd b)
          end
      end
  end.

(** ** Labels and vectors of a batch *)

(** The label of the row at position [i] of a batch, with the counter at
    [cur_l] when the call starts. *)
Definition batch_label (cur_l : Z) (ids : option (Z -> Z)) (i : Z) : Z :=
  match ids with
  | Some ids => ids i
  | None => to_size_t (cur_l + i)
  end.

(** The vector that row [i] of a batch must reach the engine as: the [dim]
    values of the row, which starts at [i * stride], scaled to unit length
    when the index normalizes. *)
Definition batch_vector (normalize : bool) (data : Z -> float) (stride dim : Z) (i : Z)
  : list float :=
  let row := load_vector data (i * stride) (Z.to_nat dim) in
  if normalize then unit_normalized row else row.

(** The insertion that row [i] of a batch stands for. *)
Definition batch_call (index : HNSWIndex) (data : Z -> float) (dim_ : Z) (ids : option (Z -> Z))
    (replace_deleted : bool) (i : nat) : EngineCall :=
  AddPoint (batch_vector (normalize index) data dim_ (dim index) (Z.of_nat i))
           (batch_label (cur_l index) ids (Z.of_nat i)) replace_deleted.

(** The same for the brute-force index. *)
Definition bf_batch_call (index : BFIndex) (data : Z -> float) (dim_ : Z) (ids : option (Z -> Z))
    (i : nat) : EngineCall :=
  AddPoint (batch_vector (bf_normalize index) data dim_ (bf_dim index) (Z.of_nat i))
           (batch_label (bf_cur_l index) ids (Z.of_nat i)) false.

(** What the engine finds for query [i] of a batch, when asked with the
    vector that the query must reach it as. *)
Definition knn_found (index : HNSWIndex) (a : HierarchicalNSW) (query : Z -> float) (k : Z)
    (i : nat) : list (float * Z) :=
  searchKnn a (batch_vector (normalize index) query (dim index) (dim index) (Z.of_nat i)) k.

Definition bf_knn_found (index : BFIndex) (a : BruteforceSearch) (query : Z -> float) (k : Z)
    (i : nat) : list (float * Z) :=
  bf_searchKnn a (batch_vector (bf_normalize index) query (bf_dim index) (bf_dim index)
                               (Z.of_nat i)) k.

(** The rows that a call of [hnswlib_index_add_items] with [rows] rows
    inserts: those of the batch and, before an entry point exists, the row at
    position 0 in any case. *)
Definition rows_added (index : HNSWIndex) (rows : Z) : list nat :=
  if ep_added index then seq 0 (Z.to_nat rows) else 0%nat :: seq 1 (Z.to_nat rows - 1).

(** No pair of a block has a distance below that of a pair before it. *)
Definition sorted_by_distance (block : list (Z * float)) : Prop :=
  StronglySorted (fun p p' => flt (snd p') (snd p) = false) block.

(** A queue's pairs as the wrapper writes them out, the smallest first. *)
Definition written_out (q : priority_queue) : list (Z * float) :=
  map (fun p => (snd p, fst p)) (rev q).

End Wrapper.

(** * An instance to run the definitions on *)

(** Integers in the place of [float]: the quotient is scaled by 1000 and
    [1e-30f] is 1, so that scaling to unit length keeps something of the
    vector. *)
Definition Zfloat : FloatOps :=
  {| float := Z; f0 := 0; f1 := 1; feps := 1;
     fadd := Z.add; fmul := Z.mul; fdiv := fun a b => 1000 * a / b;
     sqrtf := Z.sqrt; flt := Z.ltb |}.

(** Whether the calls of an engine leave a tombstone on a label. *)
Definition scan_tombstone (c : list (@EngineCall Zfloat)) (label : Z) : bool :=
  fold_left (fun d call =>
               match call with
               | MarkDelete l => if l =? label then true else d
               | UnmarkDelete l => if l =? label then false else d
               | AddPoint _ _ _ => d
               end) c false.

(** The squared Euclidean distance. *)
Definition scan_distance (q v : list Z) : Z :=
  fold_left Z.add (map (fun p => (fst p - snd p) * (fst p - snd p)) (combine q v)) 0.

(** The [k] points without a tombstone that are nearest to the query. *)
Definition scan_search (c : list (@EngineCall Zfloat)) (q : list Z) (k : Z) : list (Z * Z) :=
  let live := filter (fun p => negb (scan_tombstone c (fst p))) (points_added c) in
  firstn (Z.to_nat k)
         (rev (@pq_of_list Zfloat (map (fun p => (scan_distance q (snd p), fst p)) live))).

(** An engine that scans all its points. Only an insertion beyond the
    capacity raises. *)
Definition scan_engine : @Hnswlib Zfloat :=
  {| HierarchicalNSW_raises := fun _ _ _ _ _ _ => None;
     addPoint_raises := fun a _ _ _ =>
       if max_elements_ a <=? Z.of_nat (List.length (calls a))
       then Some (runtime_error "The number of elements exceeds the specified limit")
       else None;
     markDelete_raises := fun _ _ => None;
     unmarkDelete_raises := fun _ _ => None;
     searchKnn := fun a q k => scan_search (calls a) q k;
     isMarkedDeleted := fun a label => scan_tombstone (calls a) label;
     BruteforceSearch_raises := fun _ _ => None;
     bf_addPoint_raises := fun a _ _ =>
       if maxelements_ a <=? Z.of_nat (List.length (bf_calls a))
       then Some (runtime_error "The number of elements exceeds the specified limit")
       else None;
     bf_searchKnn := fun a q k => scan_search (bf_calls a) q k |}.

Definition four_threads : Host := {| hardware_concurrency := 4 |}.

(** Ten rows of dimension 2. *)
Definition sample_rows : Z -> Z := fun i => (i * 5 + 3) mod 11.

(** The labels 100, 101, ... for them. *)
Definition sample_ids : Z -> Z := fun i => 100 + i.

(** What stands for an index or an engine where an option is empty. *)
Definition no_index : @HNSWIndex Zfloat :=
  mkHNSWIndex SpaceTypeL2 2 false false false 4 0 None None 10.

Definition no_engine : @HierarchicalNSW Zfloat :=
  mkHNSW (mkSpace L2Space 2) 0 0 0 0 false 10 [].

Definition the_index (index : option (@HNSWIndex Zfloat)) : @HNSWIndex Zfloat :=
  match index with Some i => i | None => no_index end.

Definition the_engine (index : @HNSWIndex Zfloat) : @HierarchicalNSW Zfloat :=
  match appr_alg index with Some a => a | None => no_engine end.

(** An index of dimension 2 in the given mode, after [hnswlib_index_init]
    for 100 elements. *)
Definition sample_new (t : SpaceType) : @HNSWIndex Zfloat :=
  the_index (snd (@hnswlib_index_init Zfloat scan_engine
                    (@hnswlib_index_create Zfloat four_threads t 2) 100 16 200 100 false)).

(** Two threads that take turns, unevenly. *)
Definition sample_schedule : list nat :=
  flat_map (fun _ => [0%nat; 1%nat; 1%nat; 1%nat; 0%nat]) (seq 0 12).

(** Adding the ten rows, with the labels or without. *)
Definition sample_add (t : SpaceType) (sched : list nat) (ids : option (Z -> Z))
    (num_threads : Z) : option (bool * option (@HNSWIndex Zfloat)) :=
  @hnswlib_index_add_items Zfloat scan_engine four_threads sched
     (Some (sample_new t)) sample_rows 10 2 ids num_threads false.

Definition sample_added (t : SpaceType) (sched : list nat) (ids : option (Z -> Z))
    (num_threads : Z) : option (@HNSWIndex Zfloat) :=
  match sample_add t sched ids num_threads with Some (_, index) => index | None => None end.

(** The index after the ten rows were added by two threads, then with a
    tombstone on the label 103. *)
Definition sample_index (t : SpaceType) : @HNSWIndex Zfloat :=
  the_index (@hnswlib_index_mark_deleted Zfloat scan_engine
               (sample_added t sample_schedule (Some sample_ids) 2) 103).

(** Nine queries, the first nine rows, for the [k] nearest points each, by
    two threads. *)
Definition sample_search (t : SpaceType) (k : Z) : option (bool * (Z -> Z) * (Z -> Z)) :=
  @hnswlib_index_search_knn Zfloat scan_engine four_threads sample_schedule
     (Some (sample_index t)) sample_rows k (fun _ => 0) (fun _ => 0) 9 2.

Definition sample_labels (t : SpaceType) (k : Z) : Z -> Z :=
  match sample_search t k with Some (_, l, _) => l | None => fun _ => 0 end.

Definition sample_distances (t : SpaceType) (k : Z) : Z -> Z :=
  match sample_search t k with Some (_, _, d) => d | None => fun _ => 0 end.

(** A work function that raises nothing and notes the units it runs, and
    one that raises in unit 2. *)
Definition notes_unit (id tid : nat) (st : list nat) : list nat * option nat :=
  (id :: st, None).

Definition raises_at_two (id tid : nat) (st : list nat) : list nat * option nat :=
  (id :: st, if Nat.eqb id 2 then Some id else None).

(** An index like [sample_new] in L2 mode, with room for 5 elements only. *)
Definition sample_small : @HNSWIndex Zfloat :=
  the_index (snd (@hnswlib_index_init Zfloat scan_engine
                    (@hnswlib_index_create Zfloat four_threads SpaceTypeL2 2) 5 16 200 100 false)).

(** A brute-force index of dimension 2 in cosine mode, with room for 5
    elements. *)
Definition sample_bf : @BFIndex Zfloat :=
  match snd (@hnswlib_bf_index_init Zfloat scan_engine
               (@hnswlib_bf_index_create Zfloat four_threads SpaceTypeCosine 2) 5) with
  | Some index => index
  | None => mkBFIndex SpaceTypeCosine 2 true 4 0 None None
  end.

(** What stands for a brute-force index or engine where an option is
    empty. *)
Definition the_bf_index (index : option (@BFIndex Zfloat)) : @BFIndex Zfloat :=
  match index with Some i => i | None => sample_bf end.

Definition the_bf_engine (index : @BFIndex Zfloat) : @BruteforceSearch Zfloat :=
  match alg index with Some a => a | None => mkBF (mkSpace InnerProductSpace 2) 0 [] end.

(** Adding the first [rows] of the ten rows to [sample_bf], without labels. *)
Definition sample_bf_add (rows : Z) : bool * option (@BFIndex Zfloat) :=
  @hnswlib_bf_index_add_items Zfloat scan_engine (Some sample_bf) sample_rows rows 2 None.

(** [sample_bf] with five rows in it, and three queries for the 2 nearest
    points each, by two threads. *)
Definition sample_bf_index : @BFIndex Zfloat := the_bf_index (snd (sample_bf_add 5)).

Definition sample_bf_search : option (bool * (Z -> Z) * (Z -> Z)) :=
  @hnswlib_bf_index_search_knn Zfloat scan_engine four_threads sample_schedule
     (Some sample_bf_index) sample_rows 2 (fun _ => 0) (fun _ => 0) 3 2.

(** [sample_bf_index] initialised again, then the first five rows once
    more. *)
Definition sample_bf_reinit : option (@BFIndex Zfloat) :=
  snd (@hnswlib_bf_index_init Zfloat scan_engine (Some sample_bf_index) 5).

Definition sample_bf_again : bool * option (@BFIndex Zfloat) :=
  @hnswlib_bf_index_add_items Zfloat scan_engine sample_bf_reinit sample_rows 5 2 None.

(** The parts of what a batch call returns. *)
Definition labels_in (r : option (bool * (Z -> Z) * (Z -> Z))) : Z -> Z :=
  match r with Some (_, l, _) => l | None => fun _ => 0 end.

Definition distances_in (r : option (bool * (Z -> Z) * (Z -> Z))) : Z -> Z :=
  match r with Some (_, _, d) => d | None => fun _ => 0 end.

Definition index_in (r : option (bool * option (@HNSWIndex Zfloat))) : option (@HNSWIndex Zfloat) :=
  match r with Some (_, index) => index | None => None end.

(** The nine queries of [sample_search] on the calling thread alone. *)
Definition sample_search_alone (t : SpaceType) (k : Z) : option (bool * (Z -> Z) * (Z -> Z)) :=
  @hnswlib_index_search_knn Zfloat scan_engine four_threads []
     (Some (sample_index t)) sample_rows k (fun _ => 0) (fun _ => 0) 9 1.

(** The ten rows, without labels and by two threads, into [sample_small],
    which has room for five. *)
Definition sample_small_add : option (bool * option (@HNSWIndex Zfloat)) :=
  @hnswlib_index_add_items Zfloat scan_engine four_threads sample_schedule
     (Some sample_small) sample_rows 10 2 None 2 false.

(** The ten rows once more, without labels and by two threads, into an index
    that holds them already. *)
Definition sample_add_again (index : option (@HNSWIndex Zfloat))
  : option (bool * option (@HNSWIndex Zfloat)) :=
  @hnswlib_index_add_items Zfloat scan_engine four_threads sample_schedule
     index sample_rows 10 2 None 2 false.

(** A host whose [std::thread::hardware_concurrency()] is 0, and an index
    created and initialised there. *)
Definition no_threads : Host := {| hardware_concurrency := 0 |}.

Definition unthreaded_new : @HNSWIndex Zfloat :=
  the_index (snd (@hnswlib_index_init Zfloat scan_engine
                    (@hnswlib_index_create Zfloat no_threads SpaceTypeL2 2) 100 16 200 100 false)).

(** The ten rows with their labels added there, with the thread count asked
    for. *)
Definition unthreaded_add (num_threads : Z) : option (bool * option (@HNSWIndex Zfloat)) :=
  @hnswlib_index_add_items Zfloat scan_engine no_threads []
     (Some unthreaded_new) sample_rows 10 2 (Some sample_ids) num_threads false.

(** The index with the ten rows, added with one thread asked for, and the
    nine queries for the 3 nearest points each, into arrays that hold the
    label 7 and falling distances. *)
Definition unthreaded_index : @HNSWIndex Zfloat := the_index (index_in (unthreaded_add 1)).

Definition unthreaded_search (num_threads : Z) : option (bool * (Z -> Z) * (Z -> Z)) :=
  @hnswlib_index_search_knn Zfloat scan_engine no_threads []
     (Some unthreaded_index) sample_rows 3 (fun _ => 7) (fun z => 100 - z) 9 num_threads.

(** A work function that raises in every unit, with the unit as the
    exception, and counts the units run. *)
Definition always_raises (id tid : nat) (st : nat) : nat * option nat := (S st, Some id).

(** Two threads on two units: both fetch, thread 0 raises and records, then
    thread 1 raises and records. *)
Definition two_failures : @Pool nat nat :=
  run_pool always_raises 2 2 [0; 1; 0; 0; 1; 1]%nat (init_pool 0 0%nat).

(** * Properties *)

(** ** The worker pool of [ParallelFor] *)

Section PoolFacts.

Context {St E : Type}.
Variable fn : nat -> nat -> St -> St * option E.
Variables (start end_ n : nat) (st0 : St).

Local Abbreviation inv := (pool_inv fn start end_ n st0).
Local Abbreviation step := (worker_step fn end_ n).

Lemma set_worker_same (ws : nat -> @Worker E) t w : set_worker ws t w t = w.
Proof. unfold set_worker. now rewrite Nat.eqb_refl. Qed.

Lemma set_worker_other (ws : nat -> @Worker E) t t' w :
  t' <> t -> set_worker ws t w t' = ws t'.
Proof. unfold set_worker. intros Hne. now destruct (Nat.eqb_spec t' t). Qed.

Lemma recorded_last (l : list (@Event E)) t i e :
  In (Recorded t i e) l -> last_recorded l <> None.
Proof.
  induction l as [|ev l IH]; simpl; [tauto|].
  intros [->|Hin]; [discriminate|].
  destruct ev; auto; discriminate.
Qed.

Lemma init_pool_inv : inv (init_pool start st0).
Proof.
  constructor; simpl; try tauto; try discriminate; try constructor; auto.
  all: intros; try lia.
  destruct later; discriminate.
Qed.

Lemma late_cons (ev : @Event E) l later t i e earlier :
  ev :: l = later ++ Recorded t i e :: earlier ->
  (later = [] /\ ev = Recorded t i e /\ l = earlier)
  \/ exists later', later = ev :: later' /\ l = later' ++ Recorded t i e :: earlier.
Proof.
  destruct later as [|ev' later']; simpl; intros Heq; inversion Heq; subst; eauto.
Qed.

Ltac workers_cases :=
  repeat match goal with
  | H : context [set_worker _ ?t _ ?t'] |- _ =>
      first [ rewrite set_worker_same in H
            | rewrite (set_worker_other _ t t') in H by congruence
            | destruct (Nat.eq_dec t' t) as [->|?] ]
  | |- context [set_worker _ ?t _ ?t'] =>
      first [ rewrite set_worker_same
            | rewrite (set_worker_other _ t t') by congruence
            | destruct (Nat.eq_dec t' t) as [->|?] ]
  end.

Lemma worker_step_inv p tid : inv p -> inv (step tid p).
Proof.
  intros I. unfold worker_step.
  destruct (Nat.ltb_spec tid n) as [Htid|?]; simpl; [|exact I].
  destruct (workers p tid) as [|id|id e|] eqn:W; [| |  |exact I].
  - (* fetch_add *)
    destruct I. constructor; simpl.
    + lia.
    + intros i t Hin. apply inv_units0 in Hin. lia.
    + intros t i Ht Hw. workers_cases.
      * destruct (Nat.leb_spec end_ (current p)); [discriminate|].
        inversion Hw; subst. repeat split; try lia.
        intros Hin. apply in_map_iff in Hin as [[i' t'] [Hi Hin]]. simpl in Hi. subst.
        apply inv_units0 in Hin. lia.
      * destruct (inv_running0 _ _ Ht Hw) as (? & ? & ?). repeat split; auto; lia.
    + intros t t' i Ht Ht' Hw Hw'. workers_cases; auto; try solve [eauto];
        (destruct (Nat.leb_spec end_ (current p)); [discriminate|]);
        match goal with H : Running _ = Running _ |- _ => inversion H; subst; clear H end;
        match goal with H : workers p _ = Running _ |- _ => apply inv_running0 in H; auto; lia end.
    + assumption.
    + intros Hnone i Hi Hend. destruct (Nat.eq_dec i (current p)) as [->|Hne].
      * right. exists tid. split; auto. rewrite set_worker_same.
        destruct (Nat.leb_spec end_ (current p)); [lia|reflexivity].
      * destruct (inv_all0 Hnone i) as [Hin|(t & Ht & Hw)]; try lia; auto.
        right. exists t. split; auto. rewrite set_worker_other; congruence.
    + intros Hnone t Ht Hw. workers_cases.
      * destruct (Nat.leb_spec end_ (current p)); [lia|discriminate].
      * apply inv_joined0 in Hw; auto.
    + assumption.
    + assumption.
    + intros Hsome. auto.
    + intros t i e [?|Hin]; [discriminate|].
      destruct (inv_thrown0 _ _ _ Hin) as [[Ht Hw]|]; auto.
      left. split; auto. rewrite set_worker_other; congruence.
    + intros t i e Ht Hw. right. workers_cases; eauto.
      destruct (Nat.leb_spec end_ (current p)); discriminate.
    + intros t i e [?|Hin]; [discriminate|]. right. auto.
    + intros t i [Heq|Hin] Hi.
      * inversion Heq; subst. left. split; auto. rewrite set_worker_same.
        destruct (Nat.leb_spec end_ (current p)); [lia|reflexivity].
      * destruct (inv_fetched0 _ _ Hin Hi) as [[Ht Hw]|[?|[e ?]]]; eauto.
        left. split; auto. rewrite set_worker_other; congruence.
    + intros later t i e earlier t' i' Hl Hin.
      apply late_cons in Hl as [(? & ? & ?)|(later' & -> & Hl)]; [discriminate|].
      destruct Hin as [Heq|Hin].
      * inversion Heq; subst. apply inv_stop0. rewrite inv_last0, Hl.
        apply (recorded_last _ t i e). apply in_or_app. right. now left.
      * eapply inv_late0; eauto.
  - (* fn (id, tid) *)
    destruct (inv_running _ _ _ _ _ _ I _ _ Htid W) as (Hr1 & Hr2 & Hr3).
    pose proof (inv_replay _ _ _ _ _ _ I) as Hrep.
    destruct (fn id tid (shared p)) as [st' [e|]] eqn:Hfn.
    + destruct I. constructor; simpl.
      * assumption.
      * intros i t [Heq|Hin]; [inversion Heq; subst; auto|auto].
      * intros t i Ht Hw. workers_cases; try discriminate.
        destruct (inv_running0 _ _ Ht Hw) as (? & ? & Hnot). repeat split; try lia.
        simpl. intros [Heq|Hin]; [|auto]. subst i.
        assert (t = tid) by eauto. congruence.
      * intros t t' i Ht Ht' Hw Hw'. workers_cases; try discriminate. eauto.
      * constructor; auto.
      * intros Hnone i Hi Hend.
        destruct (inv_all0 Hnone i) as [Hin|(t & Ht & Hw)]; auto.
        destruct (Nat.eq_dec t tid) as [->|Hne].
        -- left. left. congruence.
        -- right. exists t. split; auto. rewrite set_worker_other; auto.
      * intros Hnone t Ht Hw. workers_cases; try discriminate. eauto.
      * rewrite Hrep, Hfn. reflexivity.
      * assumption.
      * auto.
      * intros t i e' [Heq|Hin].
        -- inversion Heq; subst. left. split; auto. apply set_worker_same.
        -- destruct (inv_thrown0 _ _ _ Hin) as [[Ht Hw]|]; auto.
           left. split; auto. rewrite set_worker_other; congruence.
      * intros t i e' Ht Hw. workers_cases.
        -- inversion Hw; subst. now left.
        -- right. eauto.
      * intros t i e' [?|?]; [discriminate|]. right. auto.
      * intros t i [?|Hin] Hi; [discriminate|].
        destruct (inv_fetched0 _ _ Hin Hi) as [[Ht Hw]|[?|[e' ?]]]; eauto 6.
        destruct (Nat.eq_dec t tid) as [->|Hne].
        -- right. right. exists e. left. congruence.
        -- left. split; auto. rewrite set_worker_other; auto.
      * intros later t i e' earlier t' i' Hl Hin.
        apply late_cons in Hl as [(? & ? & ?)|(later' & -> & Hl)]; [discriminate|].
        destruct Hin as [?|Hin]; [discriminate|]. eapply inv_late0; eauto.
    + destruct I. constructor; simpl.
      * assumption.
      * intros i t [Heq|Hin]; [inversion Heq; subst; auto|auto].
      * intros t i Ht Hw. workers_cases; try discriminate.
        destruct (inv_running0 _ _ Ht Hw) as (? & ? & Hnot). repeat split; try lia.
        simpl. intros [Heq|Hin]; [|auto]. subst i.
        assert (t = tid) by eauto. congruence.
      * intros t t' i Ht Ht' Hw Hw'. workers_cases; try discriminate. eauto.
      * constructor; auto.
      * intros Hnone i Hi Hend.
        destruct (inv_all0 Hnone i) as [Hin|(t & Ht & Hw)]; auto.
        destruct (Nat.eq_dec t tid) as [->|Hne].
        -- left. left. congruence.
        -- right. exists t. split; auto. rewrite set_worker_other; auto.
      * intros Hnone t Ht Hw. workers_cases; try discriminate. eauto.
      * rewrite Hrep, Hfn. reflexivity.
      * assumption.
      * auto.
      * intros t i e' [?|Hin]; [discriminate|].
        destruct (inv_thrown0 _ _ _ Hin) as [[Ht Hw]|]; auto.
        left. split; auto. rewrite set_worker_other; congruence.
      * intros t i e' Ht Hw. workers_cases; try discriminate. right. eauto.
      * intros t i e' [?|?]; [discriminate|]. right. auto.
      * intros t i [?|Hin] Hi; [discriminate|].
        destruct (inv_fetched0 _ _ Hin Hi) as [[Ht Hw]|[?|[e' ?]]]; eauto 6.
        destruct (Nat.eq_dec t tid) as [->|Hne].
        -- right. left. left. congruence.
        -- left. split; auto. rewrite set_worker_other; auto.
      * intros later t i e' earlier t' i' Hl Hin.
        apply late_cons in Hl as [(? & ? & ?)|(later' & -> & Hl)]; [discriminate|].
        destruct Hin as [?|Hin]; [discriminate|]. eapply inv_late0; eauto.
  - (* the catch block *)
    destruct I. constructor; simpl.
    + lia.
    + intros i t Hin. apply inv_units0 in Hin. lia.
    + intros t i Ht Hw. workers_cases; try discriminate.
      destruct (inv_running0 _ _ Ht Hw) as (? & ? & ?). repeat split; auto; lia.
    + intros t t' i Ht Ht' Hw Hw'. workers_cases; try discriminate. eauto.
    + assumption.
    + discriminate.
    + discriminate.
    + assumption.
    + reflexivity.
    + lia.
    + intros t i e' [?|Hin]; [discriminate|].
      destruct (inv_thrown0 _ _ _ Hin) as [[Ht Hw]|]; auto.
      destruct (Nat.eq_dec t tid) as [->|Hne].
      * right. left. congruence.
      * left. split; auto. rewrite set_worker_other; auto.
    + intros t i e' Ht Hw. workers_cases; try discriminate. eauto.
    + intros t i e' [Heq|Hin]; [|eauto].
      inversion Heq; subst. right. eauto.
    + intros t i [?|Hin] Hi; [discriminate|].
      destruct (inv_fetched0 _ _ Hin Hi) as [[Ht Hw]|[?|[e' ?]]]; eauto 6.
      left. split; auto. rewrite set_worker_other; congruence.
    + intros later t i e' earlier t' i' Hl Hin.
      apply late_cons in Hl as [(-> & ? & ?)|(later' & -> & Hl)]; [destruct Hin|].
      destruct Hin as [?|Hin]; [discriminate|]. eapply inv_late0; eauto.
Qed.

Lemma run_pool_inv sched p : inv p -> inv (run_pool fn end_ n sched p).
Proof.
  revert p. induction sched as [|t sched IH]; simpl; auto using worker_step_inv.
Qed.

Lemma all_joined_spec (p : @Pool St E) :
  all_joined n p = true <-> forall t, (t < n)%nat -> workers p t = Joinable.
Proof.
  unfold all_joined. rewrite forallb_forall. split.
  - intros Hall t Ht. specialize (Hall t). rewrite in_seq in Hall.
    destruct (workers p t); try reflexivity; discriminate Hall; lia.
  - intros Hall t Ht. rewrite in_seq in Ht. rewrite Hall by lia. reflexivity.
Qed.

Lemma thrown_nil (l : list (@Event E)) :
  thrown l = [] <-> forall t i e, ~ In (Threw t i e) l.
Proof.
  induction l as [|ev l IH]; simpl.
  - tauto.
  - destruct ev as [t0 i0|t0 i0|t0 i0 e0|t0 i0 e0]; simpl; rewrite ?IH.
    1,2,4: split; [intros Hn t i e [?|?]; [discriminate|eapply Hn; eauto]
                  |intros Hn t i e Hin; eapply Hn; eauto].
    split; [discriminate|]. intros Hn. exfalso. eapply Hn. left. reflexivity.
Qed.

Lemma thrown_in (l : list (@Event E)) t i e : In (Threw t i e) l -> In e (thrown l).
Proof.
  induction l as [|ev l IH]; simpl; [tauto|].
  intros [->|Hin]; [now left|].
  destruct ev; simpl; auto.
Qed.

Lemma last_recorded_in (l : list (@Event E)) e :
  last_recorded l = Some e -> exists t i, In (Recorded t i e) l.
Proof.
  induction l as [|ev l IH]; simpl; [discriminate|].
  destruct ev; try (intros Hl; destruct (IH Hl) as (t & i & ?); eauto).
  intros Heq. inversion Heq; subst. eauto.
Qed.

(** When every thread is joined, the exception kept is [None] exactly when no
    unit raised. *)
Lemma joined_thrown p :
  inv p -> all_joined n p = true -> (lastException p = None <-> thrown (log p) = []).
Proof.
  intros I J. rewrite all_joined_spec in J. split.
  - intros Hnone. apply thrown_nil. intros t i e Hin.
    destruct (inv_thrown _ _ _ _ _ _ I _ _ _ Hin) as [[Ht Hw]|Hrec].
    + rewrite J in Hw by assumption. discriminate.
    + apply recorded_last in Hrec. rewrite <- (inv_last _ _ _ _ _ _ I) in Hrec. auto.
  - intros Hnil. destruct (lastException p) as [e|] eqn:Hl; [|reflexivity].
    rewrite (inv_last _ _ _ _ _ _ I) in Hl. apply last_recorded_in in Hl as (t & i & Hin).
    apply (inv_recorded _ _ _ _ _ _ I) in Hin.
    rewrite thrown_nil in Hnil. exfalso. eapply Hnil; eauto.
Qed.

(** When every thread is joined and nothing was raised, every unit of the
    range was run. *)
Lemma joined_all p :
  (0 < n)%nat -> inv p -> all_joined n p = true -> lastException p = None ->
  forall i, (start <= i < end_)%nat -> In i (map fst (executed (log p))).
Proof.
  intros Hn I J Hnone i Hi. rewrite all_joined_spec in J.
  assert (end_ <= current p)%nat as Hc
    by (apply (inv_joined _ _ _ _ _ _ I Hnone 0%nat Hn); auto).
  destruct (inv_all _ _ _ _ _ _ I Hnone i) as [?|(t & Ht & Hw)]; auto; try lia.
  rewrite J in Hw by assumption. discriminate.
Qed.

(** *** Every batch can be run to its end *)

Lemma worker_step_other tid t p : t <> tid -> workers (step tid p) t = workers p t.
Proof.
  intros Hne. unfold worker_step. destruct (negb (tid <? n)%nat); [reflexivity|].
  destruct (workers p tid); simpl; try reflexivity.
  - apply set_worker_other; auto.
  - destruct (fn id tid (shared p)) as [? [?|]]; simpl; apply set_worker_other; auto.
  - apply set_worker_other; auto.
Qed.

Lemma worker_step_joinable tid t p :
  workers p t = Joinable -> workers (step tid p) t = Joinable.
Proof.
  intros Hj. destruct (Nat.eq_dec t tid) as [->|Hne].
  - unfold worker_step. destruct (negb (tid <? n)%nat); [assumption|]. now rewrite Hj.
  - now rewrite worker_step_other.
Qed.

Lemma worker_step_current tid p :
  (end_ - current (step tid p) <= end_ - current p)%nat.
Proof.
  unfold worker_step. destruct (negb (tid <? n)%nat); [lia|].
  destruct (workers p tid); simpl; try lia.
  destruct (fn id tid (shared p)) as [? [?|]]; simpl; lia.
Qed.

Lemma worker_step_left tid p :
  (tid < n)%nat -> workers p tid <> Joinable ->
  (steps_left end_ tid (step tid p) < steps_left end_ tid p)%nat.
Proof.
  intros Ht Hw. unfold steps_left, worker_step.
  destruct (Nat.ltb_spec tid n); [simpl|lia].
  destruct (workers p tid) eqn:W; simpl; try congruence.
  - rewrite set_worker_same. destruct (Nat.leb_spec end_ (current p)); lia.
  - destruct (fn id tid (shared p)) as [? [?|]]; simpl; rewrite set_worker_same; lia.
  - rewrite set_worker_same. lia.
Qed.

Lemma run_alone tid m p :
  (tid < n)%nat -> (steps_left end_ tid p <= m)%nat ->
  workers (run_pool fn end_ n (repeat tid m) p) tid = Joinable.
Proof.
  intros Ht. revert p. induction m as [|m IH]; simpl; intros p Hm.
  - unfold steps_left in Hm. destruct (workers p tid); try lia. reflexivity.
  - destruct (workers p tid) eqn:W.
    1-3: apply IH; assert (workers p tid <> Joinable) as Hw by congruence;
         pose proof (worker_step_left tid p Ht Hw); lia.
    apply IH. unfold steps_left. rewrite worker_step_joinable by assumption. lia.
Qed.

Lemma run_pool_joinable sched t p :
  workers p t = Joinable -> workers (run_pool fn end_ n sched p) t = Joinable.
Proof.
  revert p. induction sched as [|tid sched IH]; simpl; auto using worker_step_joinable.
Qed.

Lemma run_pool_current sched p :
  (end_ - current (run_pool fn end_ n sched p) <= end_ - current p)%nat.
Proof.
  revert p. induction sched as [|tid sched IH]; simpl; intros p; [lia|].
  specialize (IH (step tid p)). pose proof (worker_step_current tid p). lia.
Qed.

Lemma run_pool_app s1 s2 (p : @Pool St E) :
  run_pool fn end_ n (s1 ++ s2) p = run_pool fn end_ n s2 (run_pool fn end_ n s1 p).
Proof. unfold run_pool. apply fold_left_app. Qed.

Lemma steps_left_bound tid (p : @Pool St E) : (steps_left end_ tid p <= 2 * (end_ - current p) + 2)%nat.
Proof. unfold steps_left. destruct (workers p tid); lia. Qed.

Lemma one_after_the_other d ts p :
  (forall t, In t ts -> (t < n)%nat) -> (end_ - current p <= d)%nat ->
  forall t, In t ts ->
    workers (run_pool fn end_ n (flat_map (fun t => repeat t (2 * d + 2)) ts) p) t = Joinable.
Proof.
  revert p. induction ts as [|t0 ts IH]; cbn [flat_map In]; intros p Hts Hd t Hin; [tauto|].
  rewrite run_pool_app.
  destruct (in_dec Nat.eq_dec t ts) as [Hin'|Hnin].
  - apply IH; [intros t' Ht'; apply Hts; now right| |assumption].
    pose proof (run_pool_current (repeat t0 (2 * d + 2)) p). lia.
  - destruct Hin as [->|?]; [|tauto].
    apply run_pool_joinable. apply run_alone; [apply Hts; now left|].
    pose proof (steps_left_bound t p). lia.
Qed.

Lemma one_by_one_joins :
  all_joined n (run_pool fn end_ n (one_by_one start end_ n) (init_pool start st0)) = true.
Proof.
  apply all_joined_spec. intros t Ht. unfold one_by_one.
  apply one_after_the_other; simpl; auto.
  - intros t' Hin. apply in_seq in Hin. lia.
  - apply in_seq. lia.
Qed.

End PoolFacts.

(** ** What [ParallelFor] leaves behind *)

Section ParallelForFacts.

Context {St E : Type}.
Variable fn : nat -> nat -> St -> St * option E.
Variable hw : nat.

Lemma replay_app l1 l2 st0 :
  replay fn (l1 ++ l2) st0 =
  (fst (replay fn l1 (fst (replay fn l2 st0))),
   snd (replay fn l1 (fst (replay fn l2 st0))) ++ snd (replay fn l2 st0)).
Proof.
  induction l1 as [|[i t] l1 IH]; simpl.
  - now destruct (replay fn l2 st0).
  - rewrite IH. destruct (replay fn l1 (fst (replay fn l2 st0))) as [st es]. simpl.
    destruct (fn i t st) as [st' [e|]]; reflexivity.
Qed.

(** The sequential loop is a replay of a prefix of its range on thread 0. *)
Lemma for_loop_replay ids st0 :
  exists done rest,
    ids = done ++ rest /\
    replay fn (rev (map (fun i => (i, 0%nat)) done)) st0 =
      (fst (for_loop fn ids st0),
       match snd (for_loop fn ids st0) with None => [] | Some e => [e] end) /\
    (snd (for_loop fn ids st0) = None -> rest = []).
Proof.
  revert st0. induction ids as [|id ids IH]; intros st0.
  - exists [], []. simpl. auto.
  - simpl. destruct (fn id 0%nat st0) as [st' [e|]] eqn:Hfn.
    + exists [id], ids. simpl. rewrite Hfn. repeat split. discriminate.
    + destruct (IH st') as (done & rest & -> & Hrep & Hrest).
      exists (id :: done), rest. repeat split; auto.
      simpl. rewrite replay_app. simpl. rewrite Hfn. simpl.
      rewrite Hrep. simpl. now rewrite app_nil_r.
Qed.

(** Whatever the schedule, [ParallelFor] has run each unit at most once, on
    a thread of the pool, and the state it returns is the one reached by
    running those units in some order; it returns without an exception
    exactly when no unit raised, and then, with at least one thread, every
    unit of the range was run. *)
Lemma ParallelFor_summary start end_ numThreads sched st0 st r :
  ParallelFor fn hw start end_ numThreads sched st0 = Some (st, r) ->
  exists l es,
    replay fn l st0 = (st, es) /\
    NoDup (map fst l) /\
    (forall i t, In (i, t) l ->
       (start <= i < end_)%nat /\ (t < Nat.max 1 (resolve_threads hw numThreads))%nat) /\
    (r = None <-> es = []) /\
    (resolve_threads hw numThreads <> 0%nat -> r = None ->
     forall i, (start <= i < end_)%nat -> In i (map fst l)).
Proof.
  unfold ParallelFor. set (n := resolve_threads hw numThreads).
  destruct (Nat.eqb_spec n 1) as [Hn|Hn].
  - intros Heq. inversion Heq as [Hfor]. clear Heq.
    destruct (for_loop_replay (seq start (end_ - start)) st0) as (done & rest & Hids & Hrep & Hrest).
    rewrite Hfor in Hrep, Hrest. simpl in Hrep, Hrest.
    exists (rev (map (fun i => (i, 0%nat)) done)), (match r with None => [] | Some e => [e] end).
    assert (forall i, In i done -> (start <= i < end_)%nat) as Hin.
    { intros i Hi. assert (In i (seq start (end_ - start))) as Hs
        by (rewrite Hids; apply in_or_app; now left).
      apply in_seq in Hs. lia. }
    assert (map fst (rev (map (fun i => (i, 0%nat)) done)) = rev done) as Hfst.
    { rewrite map_rev, map_map. simpl. now rewrite map_id. }
    split; [exact Hrep|]. split; [|split; [|split]].
    + rewrite Hfst. apply NoDup_rev.
      pose proof (seq_NoDup (end_ - start) start) as Hnd. rewrite Hids in Hnd.
      now apply NoDup_app_remove_r in Hnd.
    + intros i t Hi. apply in_rev in Hi. apply in_map_iff in Hi as (i' & Heq & Hi).
      inversion Heq; subst. split; [apply Hin, Hi|lia].
    + destruct r; split; congruence.
    + intros _ Hnone i Hi. rewrite Hfst. apply -> in_rev.
      rewrite (Hrest Hnone), app_nil_r in Hids. rewrite <- Hids. apply in_seq. lia.
  - set (p := run_pool fn end_ n sched (init_pool start st0)).
    destruct (all_joined n p) eqn:J; [|discriminate].
    intros Heq. inversion Heq; subst st r. clear Heq.
    assert (pool_inv fn start end_ n st0 p) as I by apply run_pool_inv, init_pool_inv.
    exists (executed (log p)), (thrown (log p)).
    split; [apply (inv_replay _ _ _ _ _ _ I)|].
    split; [apply (inv_nodup _ _ _ _ _ _ I)|]. split; [|split].
    + intros i t Hi. apply (inv_units _ _ _ _ _ _ I) in Hi. lia.
    + apply (joined_thrown fn start end_ n st0); auto.
    + intros Hn0 Hnone i Hi. apply (joined_all fn start end_ n st0 p); auto. lia.
Qed.

(** On a host whose [hardware_concurrency()] is 0, a call that leaves the
    thread count to the host starts no thread and runs no unit. *)
Lemma ParallelFor_no_thread start end_ sched st0 :
  hw = 0%nat -> ParallelFor fn hw start end_ 0 sched st0 = Some (st0, None).
Proof.
  intros ->. unfold ParallelFor. simpl.
  assert (forall p : @Pool St E, run_pool fn end_ 0 sched p = p) as ->; [|reflexivity].
  induction sched as [|t sched' IH]; intros p; simpl; [reflexivity|apply IH].
Qed.

(** [ParallelFor] returns under the schedule that runs the threads one after
    the other. *)
Lemma ParallelFor_returns start end_ numThreads st0 :
  exists res,
    ParallelFor fn hw start end_ numThreads
      (one_by_one start end_ (resolve_threads hw numThreads)) st0 = Some res.
Proof.
  unfold ParallelFor. destruct (Nat.eqb _ 1); [eauto|].
  rewrite one_by_one_joins. eauto.
Qed.

(** A replay that raised nothing has run each of its units without an
    exception. *)
Lemma replay_quiet l st0 st :
  replay fn l st0 = (st, []) ->
  forall i t, In (i, t) l -> exists st1, snd (fn i t st1) = None.
Proof.
  revert st. induction l as [|[i0 t0] l IH]; simpl; intros st Hrep i t Hin; [tauto|].
  destruct (replay fn l st0) as [st1 es] eqn:Hl.
  destruct (fn i0 t0 st1) as [st' [e|]] eqn:Hfn; [discriminate|].
  inversion Hrep; subst. destruct Hin as [Heq|Hin].
  - inversion Heq; subst. exists st1. now rewrite Hfn.
  - eapply IH; eauto.
Qed.

End ParallelForFacts.

(** ** Buffers, [normalize_vector] and the result queue *)

Section BufferFacts.

Context {F : FloatOps}.

Lemma store_same {A : Type} (m : Z -> A) i v : store m i v i = v.
Proof. unfold store. now rewrite Z.eqb_refl. Qed.

Lemma store_other {A : Type} (m : Z -> A) i j v : j <> i -> store m i v j = m j.
Proof. unfold store. intros Hne. destruct (Z.eqb_spec j i); [contradiction|reflexivity]. Qed.

(** Storing [g i] at [noff + i] for the indices of a list. *)
Lemma stores_at {A : Type} (g : Z -> A) noff idxs (out : Z -> A) z :
  fold_left (fun o i => store o (noff + i) (g i)) idxs out z =
  if existsb (fun i => z - noff =? i) idxs then g (z - noff) else out z.
Proof.
  revert out. induction idxs as [|i idxs IH]; simpl; intros out; [reflexivity|].
  rewrite IH. destruct (existsb _ idxs); [now rewrite orb_true_r|].
  rewrite orb_false_r. unfold store.
  destruct (Z.eqb_spec z (noff + i)), (Z.eqb_spec (z - noff) i); try lia; try reflexivity.
  f_equal. lia.
Qed.

Lemma sum_of_squares (data : Z -> float) doff n acc :
  fold_left (fun a i => fadd a (fmul (data (doff + i)) (data (doff + i))))
            (map Z.of_nat (seq 0 n)) acc =
  fold_left (fun a x => fadd a (fmul x x)) (load_vector data doff n) acc.
Proof.
  unfold load_vector. generalize (seq 0 n). intros l. revert acc.
  induction l as [|i l IH]; simpl; intros acc; [reflexivity|apply IH].
Qed.

(** What [normalize_vector] leaves in its output slot is the input scaled to
    unit length, whatever the slot held and wherever it lies. *)
Lemma normalize_vector_load (data out : Z -> float) doff noff dim :
  load_vector (normalize_vector data doff out noff dim) noff (Z.to_nat dim) =
  unit_normalized (load_vector data doff (Z.to_nat dim)).
Proof.
  unfold normalize_vector, unit_normalized, loop_indices.
  rewrite sum_of_squares.
  set (norm := fdiv f1 (fadd (sqrtf _) feps)).
  unfold load_vector. rewrite map_map. apply map_ext_in. intros i Hi.
  rewrite (stores_at (fun i => fmul (data (doff + i)) norm)).
  replace (noff + Z.of_nat i - noff) with (Z.of_nat i) by lia.
  assert (existsb (fun j => Z.of_nat i =? j) (map Z.of_nat (seq 0 (Z.to_nat dim))) = true) as ->.
  { apply existsb_exists. exists (Z.of_nat i). split; [now apply in_map|apply Z.eqb_refl]. }
  reflexivity.
Qed.

(** *** The queue *)

Lemma pq_push_perm x q : Permutation (x :: q) (pq_push x q).
Proof.
  induction q as [|y q IH]; simpl; [reflexivity|].
  destruct (pair_lt x y); [|reflexivity].
  rewrite perm_swap. now apply perm_skip.
Qed.

Lemma pq_of_list_perm_acc l q :
  Permutation (l ++ q) (fold_left (fun q x => pq_push x q) l q).
Proof.
  revert q. induction l as [|x l IH]; simpl; intros q; [reflexivity|].
  rewrite <- IH, <- pq_push_perm. apply Permutation_middle.
Qed.

Lemma pq_of_list_perm l : Permutation l (pq_of_list l).
Proof.
  pose proof (pq_of_list_perm_acc l []) as Hp. now rewrite app_nil_r in Hp.
Qed.

Lemma pq_size_of_list l : pq_size (pq_of_list l) = Z.of_nat (List.length l).
Proof. unfold pq_size. now rewrite <- (Permutation_length (pq_of_list_perm l)). Qed.

(** The queue is sorted when [operator<] orders the distances pushed. *)
Lemma pair_lt_asym l a b :
  orders_distances l -> In a l -> In b l -> pair_lt a b = true -> pair_lt b a = false.
Proof.
  intros [Hasym _] Ha Hb. specialize (Hasym a b Ha Hb).
  unfold pair_lt. destruct a as [da la], b as [db lb]. simpl in *.
  destruct (flt da db) eqn:Hab, (flt db da) eqn:Hba; simpl; try reflexivity.
  - specialize (Hasym eq_refl). congruence.
  - discriminate.
  - intros H. apply Z.ltb_lt in H. apply Z.ltb_ge. lia.
Qed.

Lemma pair_lt_negtrans l a b c :
  orders_distances l -> In a l -> In b l -> In c l ->
  pair_lt a b = false -> pair_lt b c = false -> pair_lt a c = false.
Proof.
  intros [_ Htrans] Ha Hb Hc.
  pose proof (Htrans a b c Ha Hb Hc) as Habc.
  pose proof (Htrans b c a Hb Hc Ha) as Hbca.
  pose proof (Htrans c a b Hc Ha Hb) as Hcab.
  unfold pair_lt. destruct a as [da la], b as [db lb], c as [dc lc]. simpl in *.
  intros Hab Hbc.
  apply orb_false_iff in Hab as [Hab Hab'], Hbc as [Hbc Hbc'].
  rewrite (Habc Hab Hbc). simpl.
  destruct (flt dc da) eqn:Hca; [reflexivity|simpl].
  assert (flt db da = false) as Hba
    by (destruct (flt db da) eqn:Hx; auto; rewrite (Hbca Hbc Hca) in Hx; discriminate).
  assert (flt dc db = false) as Hcb
    by (destruct (flt dc db) eqn:Hx; auto; rewrite (Hcab Hca Hab) in Hx; discriminate).
  rewrite Hba in Hab'. rewrite Hcb in Hbc'. simpl in *.
  apply Z.ltb_ge in Hab', Hbc'. apply Z.ltb_ge. lia.
Qed.

Lemma pq_push_in x q y : In y (pq_push x q) <-> y = x \/ In y q.
Proof.
  induction q as [|z q IH]; simpl.
  - intuition.
  - destruct (pair_lt x z); simpl; rewrite ?IH; intuition.
Qed.

Lemma pq_push_sorted l x q :
  orders_distances l -> In x l -> incl q l ->
  StronglySorted not_below q -> StronglySorted not_below (pq_push x q).
Proof.
  intros Hord Hx Hq Hs. induction Hs as [|y q Hs IH Hall]; simpl.
  - constructor; constructor.
  - assert (In y l) as Hy by (apply Hq; now left).
    assert (incl q l) as Hq' by (intros z Hz; apply Hq; now right).
    destruct (pair_lt x y) eqn:Hxy.
    + constructor; auto. apply Forall_forall. intros z Hz.
      apply pq_push_in in Hz as [->|Hz].
      * now apply (pair_lt_asym l).
      * rewrite Forall_forall in Hall. auto.
    + constructor; [constructor; auto|]. constructor; auto.
      rewrite Forall_forall in *. intros z Hz.
      apply (pair_lt_negtrans l x y z); auto. apply Hall, Hz.
Qed.

Lemma pq_of_list_acc l0 l q :
  orders_distances l0 -> incl l l0 -> incl q l0 ->
  StronglySorted not_below q ->
  StronglySorted not_below (fold_left (fun q x => pq_push x q) l q).
Proof.
  intros Hord. revert q. induction l as [|x l IH]; simpl; intros q Hl Hq Hs; [auto|].
  apply IH.
  - intros z Hz. apply Hl. now right.
  - intros z Hz. apply pq_push_in in Hz as [->|Hz]; [apply Hl; now left|auto].
  - apply (pq_push_sorted l0); auto. apply Hl. now left.
Qed.

Lemma pq_of_list_sorted l :
  orders_distances l -> StronglySorted not_below (pq_of_list l).
Proof.
  intros Hord. apply (pq_of_list_acc l); auto.
  - apply incl_refl.
  - intros z [].
  - constructor.
Qed.

End BufferFacts.

(** ** The loop that empties the queue *)

Section UnloadFacts.

Context {F : FloatOps}.

Lemma nth_tl {A : Type} j (q : list A) d : nth j (tl q) d = nth (S j) q d.
Proof. destruct q; simpl; [now destruct j|reflexivity]. Qed.

(** The loop leaves everything outside its block as it was. *)
Lemma unload_outside n i k q labels distances z :
  z < i * k \/ i * k + Z.of_nat n <= z ->
  fst (unload n i k q labels distances) z = labels z /\
  snd (unload n i k q labels distances) z = distances z.
Proof.
  revert q labels distances. induction n as [|m IH]; intros q labels distances Hz; [auto|].
  simpl. destruct (IH (pq_pop q)
    (store labels (i * k + Z.of_nat m) (snd (pq_top q)))
    (store distances (i * k + Z.of_nat m) (fst (pq_top q)))) as [-> ->]; [lia|].
  rewrite !store_other by lia. auto.
Qed.

(** Turn [j] of the loop writes the pair at depth [n - 1 - j] of the queue. *)
Lemma unload_inside n i k q labels distances j :
  (j < n)%nat ->
  fst (unload n i k q labels distances) (i * k + Z.of_nat j) = snd (nth (n - 1 - j) q (f0, 0)) /\
  snd (unload n i k q labels distances) (i * k + Z.of_nat j) = fst (nth (n - 1 - j) q (f0, 0)).
Proof.
  revert q labels distances. induction n as [|m IH]; intros q labels distances Hj; [lia|].
  simpl. destruct (Nat.eq_dec j m) as [->|Hne].
  - destruct (unload_outside m i k (pq_pop q)
      (store labels (i * k + Z.of_nat m) (snd (pq_top q)))
      (store distances (i * k + Z.of_nat m) (fst (pq_top q)))
      (i * k + Z.of_nat m)) as [-> ->]; [lia|].
    rewrite !store_same. replace (m - 0 - m)%nat with 0%nat by lia.
    unfold pq_top. destruct q; auto.
  - destruct (IH (pq_pop q)
      (store labels (i * k + Z.of_nat m) (snd (pq_top q)))
      (store distances (i * k + Z.of_nat m) (fst (pq_top q)))) as [-> ->]; [lia|].
    unfold pq_pop. rewrite nth_tl.
    replace (S (m - 1 - j)) with (m - 0 - j)%nat by lia. auto.
Qed.

Lemma rev_by_depth {A : Type} (q : list A) d :
  map (fun j => nth (List.length q - 1 - j) q d) (seq 0 (List.length q)) = rev q.
Proof.
  apply nth_ext with (d := d) (d' := d).
  - now rewrite length_map, length_seq, length_rev.
  - rewrite length_map, length_seq. intros j Hj.
    rewrite (nth_indep _ d (nth (List.length q - 1 - 0) q d))
      by now rewrite length_map, length_seq.
    rewrite (map_nth (fun j => nth (List.length q - 1 - j) q d)).
    rewrite seq_nth by assumption. rewrite rev_nth by assumption.
    f_equal. lia.
Qed.

(** A full queue of [k] pairs comes out as the block of the query, the
    smallest pair first. *)
Lemma unload_block i k q labels distances :
  Z.of_nat (List.length q) = k ->
  output_block k i (fst (unload (List.length q) i k q labels distances))
                   (snd (unload (List.length q) i k q labels distances)) = written_out q.
Proof.
  intros Hk. unfold output_block, written_out, loop_indices.
  rewrite <- Hk, Nat2Z.id, <- (rev_by_depth q (f0, 0)), !map_map.
  apply map_ext_in. intros j Hj. apply in_seq in Hj.
  destruct (unload_inside (List.length q) i (Z.of_nat (List.length q)) q labels distances j)
    as [-> ->]; [lia|reflexivity].
Qed.

(** A block depends only on the cells of its own range. *)
Lemma output_block_ext k i (l l' : Z -> Z) (d d' : Z -> float) :
  (forall z, i * k <= z < i * k + k -> l z = l' z /\ d z = d' z) ->
  output_block k i l d = output_block k i l' d'.
Proof.
  intros Hext. unfold output_block, loop_indices. apply map_ext_in. intros j Hj.
  apply in_map_iff in Hj as (j' & <- & Hj'). apply in_seq in Hj'.
  destruct (Hext (i * k + Z.of_nat j')) as [-> ->]; [lia|reflexivity].
Qed.

Lemma output_block_length k i (l : Z -> Z) (d : Z -> float) :
  List.length (output_block k i l d) = Z.to_nat k.
Proof. unfold output_block, loop_indices. now rewrite !length_map, length_seq. Qed.

Lemma StronglySorted_snoc {A : Type} (R : A -> A -> Prop) l x :
  StronglySorted R l -> Forall (fun y => R y x) l -> StronglySorted R (l ++ [x]).
Proof.
  induction 1 as [|y l Hs IH Hall]; simpl; intros Hx.
  - constructor; constructor.
  - inversion Hx; subst. constructor; auto.
    apply Forall_app. split; auto.
Qed.

Lemma StronglySorted_rev {A : Type} (R : A -> A -> Prop) l :
  StronglySorted R l -> StronglySorted (fun a b => R b a) (rev l).
Proof.
  induction 1 as [|y l Hs IH Hall]; simpl; [constructor|].
  apply StronglySorted_snoc; auto. now apply Forall_rev.
Qed.

Lemma StronglySorted_map {A B : Type} (R : A -> A -> Prop) (R' : B -> B -> Prop) (f : A -> B) l :
  (forall a b, R a b -> R' (f a) (f b)) ->
  StronglySorted R l -> StronglySorted R' (map f l).
Proof.
  intros Hf. induction 1 as [|y l Hs IH Hall]; simpl; constructor; auto.
  apply Forall_map. eapply Forall_impl; [|exact Hall]. auto.
Qed.

(** The pairs of a queue come out sorted by distance. *)
Lemma written_out_sorted (q : priority_queue) :
  StronglySorted not_below q -> sorted_by_distance (written_out q).
Proof.
  intros Hq. unfold sorted_by_distance, written_out.
  apply StronglySorted_map with (R := fun a b => not_below b a); [|now apply StronglySorted_rev].
  intros a b Hab. simpl. unfold not_below, pair_lt in Hab.
  now apply orb_false_iff in Hab as [Hab _].
Qed.

End UnloadFacts.

(** ** Batch search *)

Lemma unload_turns_int k : 0 <= k <= 2 ^ 31 -> Z.of_nat (unload_turns k) = k.
Proof.
  intros Hk. unfold unload_turns, to_int.
  rewrite Z.mod_small by lia. lia.
Qed.

(** Beyond the range of [int], the counter [j] starts below [k - 1]: with
    [k = 2^31 + 1] the loop does not run at all. *)
Lemma unload_turns_beyond_int : unload_turns (2 ^ 31 + 1) = 0%nat.
Proof. reflexivity. Qed.

Lemma threads_in_effect n :
  0 < n < 2 ^ 31 -> Z.to_nat (to_size_t n) = Z.to_nat n /\ (0 < Z.to_nat n)%nat.
Proof.
  intros Hn. unfold to_size_t. rewrite Z.mod_small by lia. lia.
Qed.

Lemma small_batch_threads_cases rows n :
  small_batch_threads rows n = 1 \/ small_batch_threads rows n = n.
Proof. unfold small_batch_threads. destruct (_ <=? _); auto. Qed.

Section SearchUnits.

Context {F : FloatOps}.

(** The state that the body of a search loop works on, with the two output
    arrays in it. *)
Variable St : Type.
Variable labels_of : St -> Z -> Z.
Variable distances_of : St -> Z -> float.

(** The queue that the engine returns for each query. *)
Variable found : nat -> priority_queue.
Variable k : Z.

(** The body of the loop, in any of the three search functions. *)
Variable fn : nat -> nat -> St -> St * option exception.

Hypothesis fn_frame : forall i t b z,
  z < Z.of_nat i * k \/ Z.of_nat i * k + k <= z ->
  labels_of (fst (fn i t b)) z = labels_of b z /\
  distances_of (fst (fn i t b)) z = distances_of b z.

Hypothesis fn_block : forall i t b,
  snd (fn i t b) = None -> pq_size (found i) = k ->
  output_block k (Z.of_nat i) (labels_of (fst (fn i t b))) (distances_of (fst (fn i t b)))
  = written_out (found i).

(** After a run of distinct queries that raised nothing, the block of each
    query whose queue had [k] pairs holds those pairs, the smallest first. *)
Lemma replay_blocks l b0 :
  0 <= k ->
  NoDup (map fst l) ->
  snd (replay fn l b0) = [] ->
  forall i, In i (map fst l) -> pq_size (found i) = k ->
    output_block k (Z.of_nat i) (labels_of (fst (replay fn l b0)))
                                (distances_of (fst (replay fn l b0)))
    = written_out (found i).
Proof.
  intros Hk. induction l as [|[i' t] l IH]; simpl; intros Hnd Hquiet i Hi Hsize; [tauto|].
  apply NoDup_cons_iff in Hnd as [Hfresh Hnd'].
  destruct (replay fn l b0) as [b es] eqn:Hl. simpl in *.
  pose proof (fn_frame i' t b) as Hframe. pose proof (fn_block i' t b) as Hblock.
  destruct (fn i' t b) as [b' [e|]]; simpl in *; [discriminate|].
  destruct (Nat.eq_dec i i') as [->|Hne].
  - now apply Hblock.
  - destruct Hi as [?|Hi]; [congruence|].
    rewrite <- (IH Hnd' Hquiet i Hi Hsize).
    apply output_block_ext. intros z Hz. apply Hframe. nia.
Qed.

Variable hw : nat.

Lemma ParallelFor_blocks n threads sched b0 b :
  0 <= k ->
  resolve_threads hw threads <> 0%nat ->
  ParallelFor fn hw 0 n threads sched b0 = Some (b, None) ->
  forall i, (i < n)%nat -> pq_size (found i) = k ->
    output_block k (Z.of_nat i) (labels_of b) (distances_of b) = written_out (found i).
Proof.
  intros Hk Hthreads Hrun i Hi Hsize.
  apply ParallelFor_summary in Hrun as (l & es & Hrep & Hnd & _ & Hnone & Hall).
  assert (es = []) as -> by now apply Hnone.
  assert (In i (map fst l)) as Hin by (apply Hall; auto; lia).
  pose proof (replay_blocks l b0 Hk Hnd) as Hblock. rewrite Hrep in Hblock.
  now apply Hblock.
Qed.

(** The body of [hnswlib_index_search_knn] raises unless the queue has [k]
    pairs. *)
Hypothesis fn_quiet : forall i t b, snd (fn i t b) = None -> pq_size (found i) = k.

Lemma ParallelFor_sizes n threads sched b0 b :
  resolve_threads hw threads <> 0%nat ->
  ParallelFor fn hw 0 n threads sched b0 = Some (b, None) ->
  forall i, (i < n)%nat -> pq_size (found i) = k.
Proof.
  intros Hthreads Hrun i Hi.
  apply ParallelFor_summary in Hrun as (l & es & Hrep & Hnd & _ & Hnone & Hall).
  assert (es = []) as -> by now apply Hnone.
  assert (In i (map fst l)) as Hin by (apply Hall; auto; lia).
  apply in_map_iff in Hin as ([i' t] & <- & Hin).
  destruct (replay_quiet fn l b0 b Hrep _ _ Hin) as [b1 Hb1]. eauto.
Qed.

End SearchUnits.

Section SearchFacts.

Context {F : FloatOps} {H : Hnswlib} {host : Host}.

(** What either body of [hnswlib_index_search_knn] does with the queue that
    the engine returns for the query. *)
Lemma search_knn_plain_unit index a query k i t b :
  normalize index = false ->
  let found := pq_of_list (knn_found index a query k i) in
  search_knn_plain index a query k i t b =
  if pq_size found =? k
  then (mkBuffers (norm_array b)
          (fst (unload (unload_turns k) (Z.of_nat i) k found (result_labels b) (result_distances b)))
          (snd (unload (unload_turns k) (Z.of_nat i) k found (result_labels b) (result_distances b))),
        None)
  else (b, Some (runtime_error "Cannot return results. Probably ef or M is too small")).
Proof.
  intros Hn. cbv zeta. unfold search_knn_plain, knn_found, batch_vector. rewrite Hn.
  destruct (_ =? k); simpl; [|reflexivity].
  now destruct (unload _ _ _ _ _ _).
Qed.

Lemma search_knn_normalized_unit index a query k i t b :
  normalize index = true ->
  let found := pq_of_list (knn_found index a query k i) in
  exists norm,
  search_knn_normalized index a query k i t b =
  if pq_size found =? k
  then (mkBuffers norm
          (fst (unload (unload_turns k) (Z.of_nat i) k found (result_labels b) (result_distances b)))
          (snd (unload (unload_turns k) (Z.of_nat i) k found (result_labels b) (result_distances b))),
        None)
  else (mkBuffers norm (result_labels b) (result_distances b),
        Some (runtime_error "Cannot return results. Probably ef or M is too small")).
Proof.
  intros Hn. cbv zeta. unfold search_knn_normalized, knn_found, batch_vector. rewrite Hn.
  rewrite normalize_vector_load. eexists.
  destruct (_ =? k); simpl; [|reflexivity].
  now destruct (unload _ _ _ _ _ _).
Qed.

(** The three properties of a body that the lemmas on blocks ask for. *)
Lemma search_unit_frame index a query k (fn : nat -> nat -> SearchBuffers -> _) :
  0 <= k <= 2 ^ 31 ->
  (forall i t b, let found := pq_of_list (knn_found index a query k i) in
     exists norm,
       fn i t b =
       if pq_size found =? k
       then (mkBuffers norm
               (fst (unload (unload_turns k) (Z.of_nat i) k found (result_labels b)
                            (result_distances b)))
               (snd (unload (unload_turns k) (Z.of_nat i) k found (result_labels b)
                            (result_distances b))),
             None)
       else (mkBuffers norm (result_labels b) (result_distances b),
             Some (runtime_error "Cannot return results. Probably ef or M is too small"))) ->
  (forall i t b z, z < Z.of_nat i * k \/ Z.of_nat i * k + k <= z ->
     result_labels (fst (fn i t b)) z = result_labels b z /\
     result_distances (fst (fn i t b)) z = result_distances b z) /\
  (forall i t b, snd (fn i t b) = None ->
     pq_size (pq_of_list (knn_found index a query k i)) = k ->
     output_block k (Z.of_nat i) (result_labels (fst (fn i t b)))
                  (result_distances (fst (fn i t b)))
     = written_out (pq_of_list (knn_found index a query k i))) /\
  (forall i t b, snd (fn i t b) = None ->
     pq_size (pq_of_list (knn_found index a query k i)) = k).
Proof.
  intros Hk Hfn. pose proof (unload_turns_int k Hk) as Hturns.
  split; [|split]; intros i t b; destruct (Hfn i t b) as [norm ->];
    destruct (Z.eqb_spec (pq_size (pq_of_list (knn_found index a query k i))) k) as [Hs|Hs];
    simpl; auto; try discriminate.
  - intros z Hz. apply unload_outside. lia.
  - intros _ _. unfold pq_size in Hs.
    replace (unload_turns k) with (List.length (pq_of_list (knn_found index a query k i)))
      by lia.
    now apply unload_block.
Qed.

Lemma search_knn_plain_frame index a query k :
  normalize index = false -> 0 <= k <= 2 ^ 31 ->
  let fn := search_knn_plain index a query k in
  (forall i t b z, z < Z.of_nat i * k \/ Z.of_nat i * k + k <= z ->
     result_labels (fst (fn i t b)) z = result_labels b z /\
     result_distances (fst (fn i t b)) z = result_distances b z) /\
  (forall i t b, snd (fn i t b) = None ->
     pq_size (pq_of_list (knn_found index a query k i)) = k ->
     output_block k (Z.of_nat i) (result_labels (fst (fn i t b)))
                  (result_distances (fst (fn i t b)))
     = written_out (pq_of_list (knn_found index a query k i))) /\
  (forall i t b, snd (fn i t b) = None ->
     pq_size (pq_of_list (knn_found index a query k i)) = k).
Proof.
  intros Hn Hk. apply search_unit_frame; auto.
  intros i t b. exists (norm_array b). rewrite search_knn_plain_unit by assumption.
  cbv zeta. destruct (_ =? k); [reflexivity|]. now destruct b.
Qed.

Lemma search_knn_normalized_frame index a query k :
  normalize index = true -> 0 <= k <= 2 ^ 31 ->
  let fn := search_knn_normalized index a query k in
  (forall i t b z, z < Z.of_nat i * k \/ Z.of_nat i * k + k <= z ->
     result_labels (fst (fn i t b)) z = result_labels b z /\
     result_distances (fst (fn i t b)) z = result_distances b z) /\
  (forall i t b, snd (fn i t b) = None ->
     pq_size (pq_of_list (knn_found index a query k i)) = k ->
     output_block k (Z.of_nat i) (result_labels (fst (fn i t b)))
                  (result_distances (fst (fn i t b)))
     = written_out (pq_of_list (knn_found index a query k i))) /\
  (forall i t b, snd (fn i t b) = None ->
     pq_size (pq_of_list (knn_found index a query k i)) = k).
Proof.
  intros Hn Hk. apply search_unit_frame; auto.
  intros i t b. apply search_knn_normalized_unit. assumption.
Qed.

(** The body raises on a short queue, whatever [k]. *)
Lemma search_knn_quiet index a query k i t b :
  snd ((if normalize index then search_knn_normalized index a query k
        else search_knn_plain index a query k) i t b) = None ->
  pq_size (pq_of_list (knn_found index a query k i)) = k.
Proof.
  destruct (normalize index) eqn:Hn.
  - destruct (search_knn_normalized_unit index a query k i t b Hn) as [norm ->].
    destruct (Z.eqb_spec (pq_size (pq_of_list (knn_found index a query k i))) k);
      [auto|discriminate].
  - rewrite search_knn_plain_unit by assumption. cbv zeta.
    destruct (Z.eqb_spec (pq_size (pq_of_list (knn_found index a query k i))) k);
      [auto|discriminate].
Qed.

Lemma search_threads_positive index query_count num_threads :
  0 < default_threads num_threads (num_threads_default index) < 2 ^ 31 ->
  resolve_threads hardware_concurrency
    (Z.to_nat (to_size_t (search_knn_threads index query_count num_threads))) <> 0%nat.
Proof.
  intros Hpos. unfold search_knn_threads.
  assert (0 < small_batch_threads query_count
                (default_threads num_threads (num_threads_default index)) < 2 ^ 31) as Hn
    by (destruct (small_batch_threads_cases query_count
                    (default_threads num_threads (num_threads_default index))) as [->| ->]; lia).
  destruct (threads_in_effect _ Hn) as [-> Hp].
  unfold resolve_threads. destruct (Nat.leb_spec (Z.to_nat (small_batch_threads query_count
    (default_threads num_threads (num_threads_default index)))) 0); lia.
Qed.

(** What a successful [hnswlib_index_search_knn] has written. *)
Lemma search_knn_run index a sched query k labels distances query_count num_threads
    labels' distances' :
  appr_alg index = Some a ->
  0 <= k <= 2 ^ 31 ->
  0 < default_threads num_threads (num_threads_default index) < 2 ^ 31 ->
  hnswlib_index_search_knn sched (Some index) query k labels distances query_count num_threads
    = Some (true, labels', distances') ->
  forall i : nat, Z.of_nat i < query_count ->
    pq_size (pq_of_list (knn_found index a query k i)) = k /\
    output_block k (Z.of_nat i) labels' distances'
    = written_out (pq_of_list (knn_found index a query k i)).
Proof.
  intros Ha Hk Hthreads Hrun i Hi.
  assert (i < Z.to_nat query_count)%nat as Hi' by lia.
  unfold hnswlib_index_search_knn in Hrun. rewrite Ha in Hrun.
  pose proof (search_threads_positive index query_count num_threads Hthreads) as Hpos.
  destruct (normalize index) eqn:Hn; simpl in Hrun.
  - destruct (to_int _ <? 0); [discriminate|].
    destruct (ParallelFor _ _ _ _ _ _ _) as [[b [e|]]|] eqn:HP; try discriminate.
    inversion Hrun; subst labels' distances'.
    destruct (search_knn_normalized_frame index a query k Hn Hk) as (Hframe & Hblock & Hquiet).
    assert (pq_size (pq_of_list (knn_found index a query k i)) = k) as Hsize
      by (eapply (ParallelFor_sizes _ _ k _ _ Hquiet); eauto).
    split; [assumption|].
    eapply (ParallelFor_blocks _ result_labels result_distances _ k _ Hframe Hblock);
      eauto; lia.
  - destruct (ParallelFor _ _ _ _ _ _ _) as [[b [e|]]|] eqn:HP; try discriminate.
    inversion Hrun; subst labels' distances'.
    destruct (search_knn_plain_frame index a query k Hn Hk) as (Hframe & Hblock & Hquiet).
    assert (pq_size (pq_of_list (knn_found index a query k i)) = k) as Hsize
      by (eapply (ParallelFor_sizes _ _ k _ _ Hquiet); eauto).
    split; [assumption|].
    eapply (ParallelFor_blocks _ result_labels result_distances _ k _ Hframe Hblock);
      eauto; lia.
Qed.

End SearchFacts.

Section SearchTheorems.

Context {F : FloatOps} {H : Hnswlib} {host : Host}.

(** C1, where the code departs from it. A host whose
    [std::thread::hardware_concurrency()] is 0, which the standard allows when
    the number is not computable. An index created there has
    [num_threads_default = 0]. With [num_threads <= 0] and one query or more,
    [hnswlib_index_search_knn] keeps the thread count 0, [ParallelFor] takes
    the host's 0 for it, starts no thread and runs no query, and the call
    returns [true] under every schedule with every cell of both output arrays
    as the caller passed it: a successful search whose blocks hold what the
    caller had there, not the [k] pairs found for the query. *)
Theorem search_knn_succeeds_without_a_thread
    (index : HNSWIndex) (a : HierarchicalNSW) (sched : list nat)
    (query : Z -> float) (k : Z) (labels : Z -> Z) (distances : Z -> float)
    (query_count num_threads : Z) :
  hardware_concurrency = 0%nat ->
  appr_alg index = Some a ->
  num_threads_default index = 0 ->
  num_threads <= 0 ->
  1 <= query_count ->
  (forall t d index0, hnswlib_index_create t d = Some index0 -> num_threads_default index0 = 0) /\
  search_knn_threads index query_count num_threads = 0 /\
  hnswlib_index_search_knn sched (Some index) query k labels distances query_count num_threads
    = Some (true, labels, distances).
Proof.
  intros Hhw Ha Hd Hn Hq. split.
  { intros t d index0. unfold hnswlib_index_create, new_HNSWIndex.
    destruct (space_for t d) as [[s nrm]|e]; inversion 1. simpl. now rewrite Hhw. }
  assert (search_knn_threads index query_count num_threads = 0) as Ht.
  { unfold search_knn_threads, default_threads, small_batch_threads.
    destruct (Z.leb_spec num_threads 0); [|lia]. rewrite Hd.
    change (to_size_t (to_int (0 * 4))) with 0.
    destruct (Z.leb_spec query_count 0); [lia|reflexivity]. }
  split; [exact Ht|].
  unfold hnswlib_index_search_knn. rewrite Ha, Ht.
  change (Z.to_nat (to_size_t 0)) with 0%nat.
  change (to_int (0 * dim index) <? 0) with false.
  rewrite !ParallelFor_no_thread by exact Hhw.
  destruct (normalize index); reflexivity.
Qed.

(** C2. On an index with an engine and a positive thread count in effect,
    when the engine finds fewer than [k] pairs for some query of the batch,
    [hnswlib_index_search_knn] returns [false] under every schedule of the
    worker threads, and it does return under some schedule. *)
Theorem search_knn_short_fails
    (index : HNSWIndex) (a : HierarchicalNSW)
    (query : Z -> float) (k : Z) (labels : Z -> Z) (distances : Z -> float)
    (query_count num_threads : Z) (i : nat) :
  appr_alg index = Some a ->
  0 < default_threads num_threads (num_threads_default index) < 2 ^ 31 ->
  Z.of_nat i < query_count ->
  Z.of_nat (List.length (knn_found index a query k i)) < k ->
  (forall sched r,
     hnswlib_index_search_knn sched (Some index) query k labels distances query_count num_threads
       = Some r -> fst (fst r) = false) /\
  (exists sched r,
     hnswlib_index_search_knn sched (Some index) query k labels distances query_count num_threads
       = Some r).
Proof.
  intros Ha Hthreads Hi Hshort.
  assert (i < Z.to_nat query_count)%nat as Hi' by lia.
  pose proof (search_threads_positive index query_count num_threads Hthreads) as Hpos.
  assert (pq_size (pq_of_list (knn_found index a query k i)) <> k) as Hsize
    by (rewrite pq_size_of_list; lia).
  unfold hnswlib_index_search_knn. rewrite Ha. split.
  - intros sched r Hrun.
    destruct (normalize index) eqn:Hn; simpl in Hrun.
    + destruct (to_int _ <? 0); [now inversion Hrun|].
      destruct (ParallelFor _ _ _ _ _ _ _) as [[b [e|]]|] eqn:HP; try discriminate;
        [now inversion Hrun|].
      exfalso. apply Hsize.
      assert (forall i' t b', snd (search_knn_normalized index a query k i' t b') = None ->
                pq_size (pq_of_list (knn_found index a query k i')) = k) as Hquiet
        by (intros i' t b'; pose proof (search_knn_quiet index a query k i' t b') as Hq;
            now rewrite Hn in Hq).
      exact (ParallelFor_sizes _ (fun i => pq_of_list (knn_found index a query k i)) k _ _
               Hquiet _ _ _ _ _ Hpos HP i Hi').
    + destruct (ParallelFor _ _ _ _ _ _ _) as [[b [e|]]|] eqn:HP; try discriminate;
        [now inversion Hrun|].
      exfalso. apply Hsize.
      assert (forall i' t b', snd (search_knn_plain index a query k i' t b') = None ->
                pq_size (pq_of_list (knn_found index a query k i')) = k) as Hquiet
        by (intros i' t b'; pose proof (search_knn_quiet index a query k i' t b') as Hq;
            now rewrite Hn in Hq).
      exact (ParallelFor_sizes _ (fun i => pq_of_list (knn_found index a query k i)) k _ _
               Hquiet _ _ _ _ _ Hpos HP i Hi').
  - set (threads := Z.to_nat (to_size_t (search_knn_threads index query_count num_threads))).
    exists (one_by_one 0 (Z.to_nat query_count) (resolve_threads hardware_concurrency threads)).
    destruct (normalize index) eqn:Hn; simpl.
    + destruct (to_int _ <? 0); [eauto|].
      destruct (ParallelFor_returns (search_knn_normalized index a query k) hardware_concurrency
                  0 (Z.to_nat query_count) threads (mkBuffers (fun _ => f0) labels distances))
        as [[b r] ->].
      destruct r; eauto.
    + destruct (ParallelFor_returns (search_knn_plain index a query k) hardware_concurrency
                  0 (Z.to_nat query_count) threads (mkBuffers (fun _ => f0) labels distances))
        as [[b r] ->].
      destruct r; eauto.
Qed.

End SearchTheorems.

(** ** Batch insertion *)

Section AddUnits.

Context {F : FloatOps} {H : Hnswlib}.

Lemma with_calls_twice (a : HierarchicalNSW) c c' : with_calls (with_calls a c) c' = with_calls a c'.
Proof. reflexivity. Qed.

Lemma with_calls_same (a : HierarchicalNSW) : with_calls a (calls a) = a.
Proof. now destruct a. Qed.

(** [addPoint] either appends its call to the engine or leaves the engine
    as it was and raises. *)
Lemma addPoint_cases a v label replace_deleted :
  (snd (addPoint a v label replace_deleted) = None /\
   fst (addPoint a v label replace_deleted)
     = with_calls a (calls a ++ [AddPoint v label replace_deleted]))
  \/
  (snd (addPoint a v label replace_deleted) <> None /\
   fst (addPoint a v label replace_deleted) = a).
Proof.
  unfold addPoint. destruct (addPoint_raises a v label replace_deleted).
  - right. split; [discriminate|reflexivity].
  - left. split; reflexivity.
Qed.

Variable St : Type.
Variable engine : St -> HierarchicalNSW.
Variable call : nat -> EngineCall.

(** Either body of [hnswlib_index_add_items], the state being the engine or
    the engine together with [norm_array]. *)
Variable fn : nat -> nat -> St -> St * option exception.

Hypothesis fn_unit : forall row t st,
  (snd (fn row t st) = None /\
   engine (fst (fn row t st)) = with_calls (engine st) (calls (engine st) ++ [call row]))
  \/
  (snd (fn row t st) <> None /\ engine (fst (fn row t st)) = engine st).

(** After any run, the engine has taken the calls of some of the rows run,
    and of all of them, in the order they were run, when nothing was raised. *)
Lemma replay_calls l st0 :
  exists order,
    engine (fst (replay fn l st0))
      = with_calls (engine st0) (calls (engine st0) ++ map call order) /\
    (forall i, In i order -> In i (map fst l)) /\
    (snd (replay fn l st0) = [] -> order = rev (map fst l)).
Proof.
  induction l as [|[i t] l IH]; simpl.
  - exists []. simpl. rewrite app_nil_r, with_calls_same. auto.
  - destruct IH as (order & Heng & Hin & Hall).
    destruct (replay fn l st0) as [st es]. simpl in *.
    destruct (fn_unit i t st) as [[Hnone Hst]|[Hsome Hst]];
      destruct (fn i t st) as [st' [e|]]; simpl in *; try congruence.
    + exists (order ++ [i]). rewrite Hst, Heng. simpl.
      rewrite with_calls_twice, map_app, <- app_assoc. simpl. repeat split.
      * intros j Hj. apply in_app_or in Hj as [Hj|[->|[]]]; auto.
      * intros Hes. now rewrite Hall.
    + exists order. rewrite Hst. repeat split; auto. discriminate.
Qed.

(** At every moment of the loop of the worker threads, under every
    schedule, the engine has taken, on top of what it held when the loop
    started, calls of rows of the range only. *)
Lemma pool_calls start end_ n sched st0 :
  exists order,
    engine (shared (run_pool fn end_ n sched (init_pool start st0)))
      = with_calls (engine st0) (calls (engine st0) ++ map call order) /\
    (forall i, In i order -> (start <= i < end_)%nat).
Proof.
  pose proof (run_pool_inv fn start end_ n st0 sched _ (init_pool_inv fn start end_ n st0)) as I.
  set (p := run_pool fn end_ n sched (init_pool start st0)) in *.
  destruct (replay_calls (executed (log p)) st0) as (order & Heng & Hsub & _).
  rewrite (inv_replay _ _ _ _ _ _ I) in Heng. simpl in Heng.
  exists order. split; [assumption|].
  intros i Hi. apply Hsub in Hi. apply in_map_iff in Hi as ([i' t] & <- & Hi).
  apply (inv_units _ _ _ _ _ _ I) in Hi. simpl. lia.
Qed.

Variable hw : nat.

(** Whatever the schedule, [ParallelFor] leaves an engine that has taken the
    calls of some rows of its range, those of a permutation of the range when
    it returns without an exception. *)
Lemma ParallelFor_calls start end_ threads sched st0 st r :
  ParallelFor fn hw start end_ threads sched st0 = Some (st, r) ->
  exists order,
    engine st = with_calls (engine st0) (calls (engine st0) ++ map call order) /\
    (forall i, In i order -> (start <= i < end_)%nat) /\
    (resolve_threads hw threads <> 0%nat -> r = None ->
     Permutation order (seq start (end_ - start))).
Proof.
  intros Hrun.
  apply ParallelFor_summary in Hrun as (l & es & Hrep & Hnd & Hin & Hnone & Hall).
  destruct (replay_calls l st0) as (order & Heng & Hsub & Hord).
  rewrite Hrep in Heng, Hord. simpl in Heng, Hord.
  exists order. split; [assumption|]. split.
  - intros i Hi. apply Hsub in Hi. apply in_map_iff in Hi as ([i' t] & <- & Hi).
    apply Hin in Hi. simpl. lia.
  - intros Hthreads Hr. rewrite Hord by now apply Hnone.
    apply NoDup_Permutation.
    + now apply NoDup_rev.
    + apply seq_NoDup.
    + intros i. rewrite <- in_rev, in_seq. split.
      * intros Hi. apply in_map_iff in Hi as ([i' t] & <- & Hi). apply Hin in Hi. simpl. lia.
      * intros Hi. apply Hall; auto. lia.
Qed.

End AddUnits.

Section AddFacts.

Context {F : FloatOps} {H : Hnswlib} {host : Host}.

Lemma add_items_plain_unit index data dim_ ids replace_deleted row t a :
  normalize index = false ->
  let fn := add_items_plain index data dim_ ids replace_deleted in
  (snd (fn row t a) = None /\
   fst (fn row t a)
     = with_calls a (calls a ++ [batch_call index data dim_ ids replace_deleted row]))
  \/
  (snd (fn row t a) <> None /\ fst (fn row t a) = a).
Proof.
  intros Hn. cbv zeta. unfold add_items_plain, batch_call, batch_vector, batch_label.
  rewrite Hn. apply addPoint_cases.
Qed.

Lemma add_items_normalized_unit index data dim_ ids replace_deleted row t st :
  normalize index = true ->
  let fn := add_items_normalized index data dim_ ids replace_deleted in
  (snd (fn row t st) = None /\
   fst (fst (fn row t st))
     = with_calls (fst st)
         (calls (fst st) ++ [batch_call index data dim_ ids replace_deleted row]))
  \/
  (snd (fn row t st) <> None /\ fst (fst (fn row t st)) = fst st).
Proof.
  intros Hn. cbv zeta. unfold add_items_normalized, batch_call, batch_vector, batch_label.
  rewrite Hn, normalize_vector_load.
  match goal with |- context [addPoint ?a ?v ?l ?r] =>
    destruct (addPoint_cases a v l r) as [[Hs Hf]|[Hs Hf]];
    destruct (addPoint a v l r) as [a' r'] end; simpl in *; auto.
Qed.

Lemma batch_threads_positive rows n :
  0 < n < 2 ^ 31 ->
  resolve_threads hardware_concurrency (Z.to_nat (to_size_t (small_batch_threads rows n)))
    <> 0%nat.
Proof.
  intros Hpos.
  assert (0 < small_batch_threads rows n < 2 ^ 31) as Hn
    by (destruct (small_batch_threads_cases rows n) as [->| ->]; lia).
  destruct (threads_in_effect _ Hn) as [-> Hp].
  unfold resolve_threads. destruct (Nat.leb_spec (Z.to_nat (small_batch_threads rows n)) 0); lia.
Qed.

(** The block that inserts the entry point. *)
Lemma add_items_entry_point_cases index a data dim_ ids replace_deleted :
  0 <= cur_l index < 2 ^ 64 ->
  match add_items_entry_point index a data ids replace_deleted with
  | inr _ => True
  | inl (start, index1, a1) =>
      if ep_added index
      then start = 0 /\ index1 = index /\ a1 = a
      else start = 1 /\ index1 = with_ep_added index true /\
           a1 = with_calls a (calls a ++ [batch_call index data dim_ ids replace_deleted 0])
  end.
Proof.
  intros Hl. unfold add_items_entry_point.
  destruct (ep_added index); simpl; [auto|].
  destruct (dim index <? 0); [exact I|].
  assert ((if normalize index
           then load_vector (normalize_vector data 0 (fun _ => f0) 0 (dim index)) 0
                            (Z.to_nat (dim index))
           else load_vector data 0 (Z.to_nat (dim index)))
          = batch_vector (normalize index) data dim_ (dim index) (Z.of_nat 0)) as ->.
  { unfold batch_vector. simpl. rewrite normalize_vector_load. reflexivity. }
  assert (match ids with Some ids0 => ids0 0 | None => cur_l index end
          = batch_label (cur_l index) ids (Z.of_nat 0)) as ->.
  { unfold batch_label, to_size_t. destruct ids; [reflexivity|].
    simpl. rewrite Z.add_0_r. rewrite Z.mod_small; auto. }
  match goal with |- context [addPoint ?a ?v ?l ?r] =>
    destruct (addPoint_cases a v l r) as [[Hs Hf]|[Hs Hf]];
    destruct (addPoint a v l r) as [a' [e|]] end; simpl in *; try congruence; auto.
Qed.

(** What a call of [hnswlib_index_add_items] that returns has done to the
    index, under any schedule. *)
Lemma add_items_run index a sched data rows dim_ ids num_threads replace_deleted ok index' :
  appr_alg index = Some a ->
  0 <= cur_l index < 2 ^ 64 ->
  hnswlib_index_add_items sched (Some index) data rows dim_ ids num_threads replace_deleted
    = Some (ok, index') ->
  (ok = false /\ index' = Some index)
  \/
  exists index1 order,
    let front := if ep_added index then [] else [0%nat] in
    let start := if ep_added index then 0%nat else 1%nat in
    index' = Some index1 /\
    appr_alg index1 =
      Some (with_calls a (calls a ++ map (batch_call index data dim_ ids replace_deleted)
                                         (front ++ order))) /\
    ep_added index1 = true /\
    cur_l index1 = (if ok then to_size_t (cur_l index + rows) else cur_l index) /\
    (forall i, In i order -> (start <= i < Z.to_nat rows)%nat) /\
    (0 < default_threads num_threads (num_threads_default index) < 2 ^ 31 -> ok = true ->
     Permutation order (seq start (Z.to_nat rows - start))).
Proof.
  intros Ha Hl Hrun. unfold hnswlib_index_add_items in Hrun. rewrite Ha in Hrun.
  destruct (dim_ =? to_size_t (dim index)); simpl in Hrun;
    [|inversion Hrun; left; auto].
  pose proof (add_items_entry_point_cases index a data dim_ ids replace_deleted Hl) as Hep.
  destruct (add_items_entry_point index a data ids replace_deleted)
    as [[[start index1] a1]|e]; [|inversion Hrun; left; auto].
  right.
  set (call := batch_call index data dim_ ids replace_deleted) in *.
  assert (exists front start',
            front = (if ep_added index then [] else [0%nat]) /\
            start' = (if ep_added index then 0%nat else 1%nat) /\
            Z.to_nat start = start' /\
            a1 = with_calls a (calls a ++ map call front) /\
            normalize index1 = normalize index /\ cur_l index1 = cur_l index /\
            dim index1 = dim index /\ num_threads_default index1 = num_threads_default index /\
            (forall x, ep_added (with_appr_alg index1 x) = true) /\
            batch_call index1 data dim_ ids replace_deleted = call)
    as (front & start' & Hfront & Hstart' & Hstart & Ha1 & Hn1 & Hl1 & Hd1 & Ht1 & Hep1 & Hcall).
  { destruct (ep_added index) eqn:Hepa.
    - destruct Hep as (-> & -> & ->). exists [], 0%nat. simpl.
      rewrite app_nil_r, with_calls_same. repeat split; auto.
    - destruct Hep as (-> & -> & ->). exists [0%nat], 1%nat. simpl. repeat split; auto. }
  rewrite <- Hfront, <- Hstart'. clear Hep Hfront Hstart'.
  assert (forall r : HierarchicalNSW * option exception,
    (exists order, fst r = with_calls a1 (calls a1 ++ map call order) /\
       (forall i, In i order -> (start' <= i < Z.to_nat rows)%nat) /\
       (0 < default_threads num_threads (num_threads_default index) < 2 ^ 31 ->
        snd r = None -> Permutation order (seq start' (Z.to_nat rows - start')))) ->
    match r with
    | (a2, Some _) => Some (false, Some (with_appr_alg index1 (Some a2)))
    | (a2, None) => Some (true, Some (with_cur_l (with_appr_alg index1 (Some a2))
                                                (to_size_t (cur_l index1 + rows))))
    end = Some (ok, index') ->
    exists index2 order,
      index' = Some index2 /\
      appr_alg index2 = Some (with_calls a (calls a ++ map call (front ++ order))) /\
      ep_added index2 = true /\
      cur_l index2 = (if ok then to_size_t (cur_l index + rows) else cur_l index) /\
      (forall i, In i order -> (start' <= i < Z.to_nat rows)%nat) /\
      (0 < default_threads num_threads (num_threads_default index) < 2 ^ 31 -> ok = true ->
       Permutation order (seq start' (Z.to_nat rows - start')))) as Hfinish.
  { intros [a2 r] (order & Ha2 & Hin & Hperm) Heq. simpl in Ha2, Hperm.
    assert (a2 = with_calls a (calls a ++ map call (front ++ order))) as Ha2'.
    { rewrite Ha2, Ha1. simpl. now rewrite map_app, app_assoc. }
    destruct r as [e|]; inversion Heq; subst ok index'; eexists; exists order.
    - split; [reflexivity|]. split; [simpl; now rewrite Ha2'|].
      split; [exact (Hep1 (Some a2))|]. split; [exact Hl1|]. split; [exact Hin|].
      intros _ Hok. discriminate.
    - split; [reflexivity|]. split; [simpl; now rewrite Ha2'|].
      split; [exact (Hep1 (Some a2))|]. split; [simpl; now rewrite Hl1|]. split; [exact Hin|].
      intros Hpos _. now apply Hperm. }
  destruct (normalize index1) eqn:Hnorm; simpl in Hrun.
  - destruct (to_int _ <? 0).
    + apply (Hfinish (a1, Some length_error)); [|exact Hrun].
      exists []. simpl. rewrite app_nil_r, with_calls_same.
      split; [reflexivity|]. split; [tauto|]. intros _ Hx. discriminate Hx.
    + destruct (ParallelFor _ _ _ _ _ _ _) as [[[a2 nrm] r]|] eqn:HP; simpl in Hrun;
        [|discriminate].
      apply (Hfinish (a2, r)); [|exact Hrun].
      destruct (ParallelFor_calls _ fst (batch_call index1 data dim_ ids replace_deleted) _
                  (fun row t st => add_items_normalized_unit index1 data dim_ ids replace_deleted
                                     row t st Hnorm)
                  _ _ _ _ _ _ _ _ HP) as (order & Heng & Hin & Hperm).
      rewrite Hcall in *. simpl in Heng. rewrite Hstart in *.
      exists order. repeat split; auto; try (apply Hin; auto).
      intros Hpos Hr. apply Hperm; auto. unfold add_items_threads.
      now apply batch_threads_positive.
  - destruct (ParallelFor _ _ _ _ _ _ _) as [[a2 r]|] eqn:HP; simpl in Hrun; [|discriminate].
    apply (Hfinish (a2, r)); [|exact Hrun].
    destruct (ParallelFor_calls _ (fun a => a) (batch_call index1 data dim_ ids replace_deleted) _
                (fun row t st => add_items_plain_unit index1 data dim_ ids replace_deleted
                                   row t st Hnorm)
                _ _ _ _ _ _ _ _ HP) as (order & Heng & Hin & Hperm).
    rewrite Hcall in *. rewrite Hstart in *.
    exists order. repeat split; auto; try (apply Hin; auto).
    intros Hpos Hr. apply Hperm; auto. unfold add_items_threads.
    now apply batch_threads_positive.
Qed.

End AddFacts.

(** ** The brute-force index *)

Section BruteForceFacts.

Context {F : FloatOps} {H : Hnswlib} {host : Host}.

Lemma bf_add_items_row_cases index data dim_ ids row t a :
  let r := bf_add_items_row index data dim_ ids row t a in
  (snd r = None /\
   fst r = mkBF (bf_space_ a) (maxelements_ a)
                (bf_calls a ++ [bf_batch_call index data dim_ ids row]))
  \/
  (snd r <> None /\ fst r = a).
Proof.
  cbv zeta. unfold bf_add_items_row, bf_batch_call, batch_vector, batch_label.
  destruct (bf_normalize index); simpl.
  - destruct (bf_dim index <? 0); [right; split; [discriminate|reflexivity]|].
    rewrite normalize_vector_load. unfold bf_addPoint.
    destruct (bf_addPoint_raises _ _ _); simpl; [right|left]; split;
      try discriminate; reflexivity.
  - unfold bf_addPoint.
    destruct (bf_addPoint_raises _ _ _); simpl; [right|left]; split;
      try discriminate; reflexivity.
Qed.

(** The loop over the rows appends the calls of a prefix of the rows, of
    all of them when nothing was raised. *)
Lemma bf_for_loop_calls index data dim_ ids l a :
  let r := for_loop (bf_add_items_row index data dim_ ids) l a in
  exists done rest,
    l = done ++ rest /\
    bf_calls (fst r) = bf_calls a ++ map (bf_batch_call index data dim_ ids) done /\
    (snd r = None -> rest = []).
Proof.
  cbv zeta. revert a. induction l as [|row l IH]; intros a; simpl.
  - exists [], []. simpl. rewrite app_nil_r. auto.
  - destruct (bf_add_items_row_cases index data dim_ ids row 0%nat a) as [[Hs Hf]|[Hs Hf]];
      destruct (bf_add_items_row index data dim_ ids row 0 a) as [a' [e|]];
      simpl in *; try congruence.
    + destruct (IH a') as (done & rest & -> & Hcalls & Hrest).
      exists (row :: done), rest. rewrite Hcalls. subst a'. simpl.
      rewrite <- app_assoc. simpl. auto.
    + exists [], (row :: l). simpl. rewrite app_nil_r. subst a'.
      repeat split; auto. discriminate.
Qed.

(** What [hnswlib_bf_index_add_items] has done to the index. *)
Lemma bf_add_items_run index a data rows dim_ ids ok index' :
  alg index = Some a ->
  hnswlib_bf_index_add_items (Some index) data rows dim_ ids = (ok, index') ->
  (ok = false /\ index' = Some index)
  \/
  exists index1 a1 done rest,
    seq 0 (Z.to_nat rows) = done ++ rest /\
    index' = Some index1 /\ alg index1 = Some a1 /\
    bf_calls a1 = bf_calls a ++ map (bf_batch_call index data dim_ ids) done /\
    bf_cur_l index1 = (if ok then to_size_t (bf_cur_l index + rows) else bf_cur_l index) /\
    (ok = true -> rest = []).
Proof.
  intros Ha Hrun. unfold hnswlib_bf_index_add_items in Hrun. rewrite Ha in Hrun.
  destruct (dim_ =? to_size_t (bf_dim index)); simpl in Hrun;
    [|inversion Hrun; left; auto].
  right.
  destruct (bf_for_loop_calls index data dim_ ids (seq 0 (Z.to_nat rows)) a)
    as (done & rest & Hsplit & Hcalls & Hrest).
  destruct (for_loop _ _ a) as [a1 [e|]]; inversion Hrun; subst ok index';
    eexists; exists a1, done, rest; simpl in *; repeat split; auto; discriminate.
Qed.

(** The body of the search loop, on the queue that the engine returns. *)
Lemma bf_search_knn_unit_frame index a query k :
  0 <= k <= 2 ^ 31 ->
  let fn := bf_search_knn_unit index a query k in
  (forall i t b z, z < Z.of_nat i * k \/ Z.of_nat i * k + k <= z ->
     fst (fst (fn i t b)) z = fst b z /\ snd (fst (fn i t b)) z = snd b z) /\
  (forall i t b, snd (fn i t b) = None ->
     pq_size (pq_of_list (bf_knn_found index a query k i)) = k ->
     output_block k (Z.of_nat i) (fst (fst (fn i t b))) (snd (fst (fn i t b)))
     = written_out (pq_of_list (bf_knn_found index a query k i))).
Proof.
  intros Hk. pose proof (unload_turns_int k Hk) as Hturns. cbv zeta.
  assert (forall i t b,
    (snd (bf_search_knn_unit index a query k i t b) <> None /\
     fst (bf_search_knn_unit index a query k i t b) = b) \/
    (bf_search_knn_unit index a query k i t b
     = (unload (unload_turns k) (Z.of_nat i) k (pq_of_list (bf_knn_found index a query k i))
               (fst b) (snd b), None))) as Hcases.
  { intros i t b. unfold bf_search_knn_unit, bf_knn_found, batch_vector.
    destruct (bf_normalize index); simpl.
    - destruct (bf_dim index <? 0); [left; split; [discriminate|reflexivity]|].
      right. now rewrite normalize_vector_load.
    - now right. }
  split; intros i t b.
  - intros z Hz. destruct (Hcases i t b) as [[_ ->]| ->]; [auto|].
    simpl. apply unload_outside. lia.
  - intros Hs Hsize. destruct (Hcases i t b) as [[Hx _]| ->]; [contradiction|].
    simpl. unfold pq_size in Hsize.
    replace (unload_turns k) with (List.length (pq_of_list (bf_knn_found index a query k i)))
      by lia.
    now apply unload_block.
Qed.

(** What a successful [hnswlib_bf_index_search_knn] has written for the
    queries that the engine answered with [k] pairs. *)
Lemma bf_search_knn_run index a sched query k labels distances query_count num_threads
    labels' distances' :
  alg index = Some a ->
  0 <= k <= 2 ^ 31 ->
  0 < default_threads num_threads (bf_num_threads_default index) < 2 ^ 31 ->
  hnswlib_bf_index_search_knn sched (Some index) query k labels distances
                              query_count num_threads
    = Some (true, labels', distances') ->
  forall i : nat, Z.of_nat i < query_count ->
    pq_size (pq_of_list (bf_knn_found index a query k i)) = k ->
    output_block k (Z.of_nat i) labels' distances'
    = written_out (pq_of_list (bf_knn_found index a query k i)).
Proof.
  intros Ha Hk Hthreads Hrun i Hi Hsize.
  assert (i < Z.to_nat query_count)%nat as Hi' by lia.
  unfold hnswlib_bf_index_search_knn in Hrun. rewrite Ha in Hrun.
  destruct (ParallelFor _ _ _ _ _ _ _) as [[b [e|]]|] eqn:HP; try discriminate.
  inversion Hrun; subst labels' distances'.
  destruct (bf_search_knn_unit_frame index a query k Hk) as (Hframe & Hblock).
  eapply (ParallelFor_blocks _ fst snd _ k _ Hframe Hblock); eauto; try lia.
  unfold bf_search_knn_threads.
  destruct (threads_in_effect _ Hthreads) as [-> Hp].
  unfold resolve_threads.
  destruct (Nat.leb_spec (Z.to_nat (default_threads num_threads (bf_num_threads_default index)))
                         0); lia.
Qed.

End BruteForceFacts.

(** ** The claims about batch insertion *)

Section AddTheorems.

Context {F : FloatOps} {H : Hnswlib} {host : Host}.

Lemma points_added_app (c1 c2 : list EngineCall) :
  points_added (c1 ++ c2) = points_added c1 ++ points_added c2.
Proof.
  induction c1 as [|[v l r|l|l] c1 IH]; simpl; auto. now rewrite IH.
Qed.

Lemma points_added_batch index data dim_ ids replace_deleted order :
  points_added (map (batch_call index data dim_ ids replace_deleted) order) =
  map (fun i => (batch_label (cur_l index) ids (Z.of_nat i),
                 batch_vector (normalize index) data dim_ (dim index) (Z.of_nat i))) order.
Proof. induction order as [|i order IH]; simpl; [reflexivity|now rewrite IH]. Qed.

Lemma rows_added_batch index rows :
  1 <= rows -> rows_added index rows = seq 0 (Z.to_nat rows).
Proof.
  intros Hr. unfold rows_added. destruct (ep_added index); [reflexivity|].
  replace (Z.to_nat rows) with (S (Z.to_nat rows - 1)) at 2 by lia. reflexivity.
Qed.

(** What a successful call has inserted: the rows of the batch, each once,
    in some order, each with the label of its position. *)
Lemma add_items_points index a sched data rows dim_ ids num_threads replace_deleted index' :
  appr_alg index = Some a ->
  0 <= cur_l index < 2 ^ 64 ->
  0 < default_threads num_threads (num_threads_default index) < 2 ^ 31 ->
  hnswlib_index_add_items sched (Some index) data rows dim_ ids num_threads replace_deleted
    = Some (true, index') ->
  exists index1 a1 order,
    index' = Some index1 /\ appr_alg index1 = Some a1 /\
    Permutation order (rows_added index rows) /\
    points_added (calls a1) =
      points_added (calls a) ++
      map (fun i => (batch_label (cur_l index) ids (Z.of_nat i),
                     batch_vector (normalize index) data dim_ (dim index) (Z.of_nat i))) order.
Proof.
  intros Ha Hl Hpos Hrun.
  destruct (add_items_run index a sched data rows dim_ ids num_threads replace_deleted
              true index' Ha Hl Hrun) as [[? _]|(index1 & order & Hres)]; [discriminate|].
  cbv zeta in Hres. destruct Hres as (-> & Halg & _ & _ & _ & Hperm).
  exists index1. eexists. exists ((if ep_added index then [] else [0%nat]) ++ order).
  split; [reflexivity|]. split; [exact Halg|]. split.
  - specialize (Hperm Hpos eq_refl). unfold rows_added.
    destruct (ep_added index); simpl.
    + now rewrite Nat.sub_0_r in Hperm.
    + now apply perm_skip.
  - simpl. now rewrite points_added_app, points_added_batch.
Qed.

(** X18. Two successful calls of [hnswlib_index_add_items] on the same index
    with the same batch, under any two schedules and any two positive thread
    counts: each has handed the engine the rows of the batch, each once, the
    row at position [i] under the label [ids[i]], or [cur_l + i] (in 64 bits)
    without [ids]; so both engines hold the same pairs of label and vector. *)
Theorem add_items_labels_by_position
    (index : HNSWIndex) (a : HierarchicalNSW) (data : Z -> float) (rows dim_ : Z)
    (ids : option (Z -> Z)) (replace_deleted : bool)
    (sched1 sched2 : list nat) (threads1 threads2 : Z) (r1 r2 : option HNSWIndex) :
  appr_alg index = Some a ->
  0 <= cur_l index < 2 ^ 64 ->
  0 < default_threads threads1 (num_threads_default index) < 2 ^ 31 ->
  0 < default_threads threads2 (num_threads_default index) < 2 ^ 31 ->
  hnswlib_index_add_items sched1 (Some index) data rows dim_ ids threads1 replace_deleted
    = Some (true, r1) ->
  hnswlib_index_add_items sched2 (Some index) data rows dim_ ids threads2 replace_deleted
    = Some (true, r2) ->
  exists index1 a1 index2 a2 order,
    r1 = Some index1 /\ appr_alg index1 = Some a1 /\
    r2 = Some index2 /\ appr_alg index2 = Some a2 /\
    Permutation order (rows_added index rows) /\
    (1 <= rows -> rows_added index rows = seq 0 (Z.to_nat rows)) /\
    points_added (calls a1) =
      points_added (calls a) ++
      map (fun i => (match ids with
                     | Some ids => ids (Z.of_nat i)
                     | None => to_size_t (cur_l index + Z.of_nat i)
                     end,
                     batch_vector (normalize index) data dim_ (dim index) (Z.of_nat i))) order /\
    Permutation (points_added (calls a1)) (points_added (calls a2)).
Proof.
  intros Ha Hl Hpos1 Hpos2 Hrun1 Hrun2.
  destruct (add_items_points _ _ _ _ _ _ _ _ _ _ Ha Hl Hpos1 Hrun1)
    as (index1 & a1 & order1 & -> & Ha1 & Hperm1 & Hpts1).
  destruct (add_items_points _ _ _ _ _ _ _ _ _ _ Ha Hl Hpos2 Hrun2)
    as (index2 & a2 & order2 & -> & Ha2 & Hperm2 & Hpts2).
  exists index1, a1, index2, a2, order1.
  split; [reflexivity|]. split; [exact Ha1|]. split; [reflexivity|]. split; [exact Ha2|].
  split; [exact Hperm1|]. split; [apply rows_added_batch|]. split; [exact Hpts1|].
  rewrite Hpts1, Hpts2. apply Permutation_app_head, Permutation_map.
  now rewrite Hperm1, Hperm2.
Qed.

(** C3, where the code departs from it. A host whose
    [std::thread::hardware_concurrency()] is 0, an index created there
    ([num_threads_default = 0]) and a batch of one row or more. With
    [num_threads <= 0], [hnswlib_index_add_items] keeps the thread count 0,
    [ParallelFor] starts no thread and inserts no row, and a call that returns
    [true] has advanced [cur_l] by [rows] while the engine has taken the row
    at position 0 at most (from the block before the loops, when there was no
    entry point). The same batch from the same index with [num_threads = 1]
    inserts every row: for two rows or more the two successful runs leave
    different pairs of label and vector. *)
Theorem add_items_succeeds_without_a_thread
    (index : HNSWIndex) (a : HierarchicalNSW) (sched : list nat) (data : Z -> float)
    (rows dim_ : Z) (ids : option (Z -> Z)) (num_threads : Z) (replace_deleted : bool)
    (r : option HNSWIndex) :
  hardware_concurrency = 0%nat ->
  appr_alg index = Some a ->
  num_threads_default index = 0 ->
  num_threads <= 0 ->
  1 <= rows ->
  0 <= cur_l index < 2 ^ 64 ->
  hnswlib_index_add_items sched (Some index) data rows dim_ ids num_threads replace_deleted
    = Some (true, r) ->
  add_items_threads index rows num_threads = 0 /\
  exists index1 a1,
    r = Some index1 /\ appr_alg index1 = Some a1 /\
    cur_l index1 = to_size_t (cur_l index + rows) /\
    points_added (calls a1) =
      points_added (calls a) ++
      map (fun i => (batch_label (cur_l index) ids (Z.of_nat i),
                     batch_vector (normalize index) data dim_ (dim index) (Z.of_nat i)))
          (if ep_added index then [] else [0%nat]) /\
    forall (sched1 : list nat) (r1 : option HNSWIndex),
      2 <= rows ->
      hnswlib_index_add_items sched1 (Some index) data rows dim_ ids 1 replace_deleted
        = Some (true, r1) ->
      exists index2 a2,
        r1 = Some index2 /\ appr_alg index2 = Some a2 /\
        List.length (points_added (calls a2))
          = (List.length (points_added (calls a)) + Z.to_nat rows)%nat /\
        ~ Permutation (points_added (calls a1)) (points_added (calls a2)).
Proof.
  intros Hhw Ha Hd Hn Hrows Hl Hrun.
  assert (add_items_threads index rows num_threads = 0) as Ht.
  { unfold add_items_threads, default_threads, small_batch_threads.
    destruct (Z.leb_spec num_threads 0); [|lia]. rewrite Hd.
    change (to_size_t (to_int (0 * 4))) with 0.
    destruct (Z.leb_spec rows 0); [lia|reflexivity]. }
  split; [exact Ht|].
  unfold hnswlib_index_add_items in Hrun. rewrite Ha, Ht in Hrun.
  destruct (negb (dim_ =? to_size_t (dim index))); [discriminate|].
  pose proof (add_items_entry_point_cases index a data dim_ ids replace_deleted Hl) as Hep.
  destruct (add_items_entry_point index a data ids replace_deleted)
    as [[[start index1] a1]|e]; [|discriminate].
  change (Z.to_nat (to_size_t 0)) with 0%nat in Hrun.
  change (to_int (0 * dim index1) <? 0) with false in Hrun.
  rewrite !ParallelFor_no_thread in Hrun by exact Hhw.
  assert (r = Some (with_cur_l (with_appr_alg index1 (Some a1))
                               (to_size_t (cur_l index1 + rows)))) as ->
    by (destruct (normalize index1); simpl in Hrun; now inversion Hrun).
  assert (cur_l index1 = cur_l index /\
          a1 = with_calls a (calls a ++ map (batch_call index data dim_ ids replace_deleted)
                                            (if ep_added index then [] else [0%nat])))
    as [Hcur Ha1].
  { destruct (ep_added index).
    - destruct Hep as (_ & -> & ->). simpl. now rewrite app_nil_r, with_calls_same.
    - destruct Hep as (_ & -> & ->). simpl. auto. }
  assert (points_added (calls a1) =
          points_added (calls a) ++
          map (fun i => (batch_label (cur_l index) ids (Z.of_nat i),
                         batch_vector (normalize index) data dim_ (dim index) (Z.of_nat i)))
              (if ep_added index then [] else [0%nat])) as Hpts
    by (rewrite Ha1; simpl; now rewrite points_added_app, points_added_batch).
  eexists. exists a1. split; [reflexivity|]. split; [reflexivity|].
  split; [simpl; now rewrite Hcur|]. split; [exact Hpts|].
  intros sched1 r1 Hrows2 Hrun1.
  assert (0 < default_threads 1 (num_threads_default index) < 2 ^ 31) as Hpos
    by (unfold default_threads; simpl; lia).
  destruct (add_items_points index a sched1 data rows dim_ ids 1 replace_deleted r1
              Ha Hl Hpos Hrun1) as (index2 & a2 & order & -> & Ha2 & Hperm & Hpts2).
  rewrite rows_added_batch in Hperm by assumption.
  assert (List.length (points_added (calls a2))
          = (List.length (points_added (calls a)) + Z.to_nat rows)%nat) as Hlen2.
  { rewrite Hpts2, length_app, length_map, (Permutation_length Hperm), length_seq.
    reflexivity. }
  exists index2, a2. split; [reflexivity|]. split; [exact Ha2|]. split; [exact Hlen2|].
  intros Hsame. apply Permutation_length in Hsame.
  rewrite Hlen2, Hpts, length_app, length_map in Hsame.
  destruct (ep_added index); simpl in Hsame; lia.
Qed.

(** C4. A call of [hnswlib_index_add_items] on an index with an engine and
    without an entry point. The block before the loops, when it raises
    nothing, sets [start] to 1 and [ep_added], and the engine has taken the
    row at position 0 by then; from there on, at every moment of either loop
    of the worker threads and under every schedule, the engine holds that
    insertion first and after it insertions of rows at positions from 1 on
    only. A call that returns has either failed without an insertion or left
    an engine of that form. *)
Theorem add_items_entry_point_first
    (index : HNSWIndex) (a : HierarchicalNSW) (sched : list nat) (data : Z -> float)
    (rows dim_ : Z) (ids : option (Z -> Z)) (num_threads : Z) (replace_deleted : bool)
    (ok : bool) (index' : option HNSWIndex) :
  appr_alg index = Some a ->
  ep_added index = false ->
  0 <= cur_l index < 2 ^ 64 ->
  hnswlib_index_add_items sched (Some index) data rows dim_ ids num_threads replace_deleted
    = Some (ok, index') ->
  let call := batch_call index data dim_ ids replace_deleted in
  match add_items_entry_point index a data ids replace_deleted with
  | inr _ => ok = false /\ index' = Some index
  | inl (start, index1, a1) =>
      start = 1 /\ ep_added index1 = true /\ calls a1 = calls a ++ [call 0%nat] /\
      forall (n : nat) (moment : list nat),
      exists order,
        calls (if normalize index1
               then fst (shared (run_pool
                                   (add_items_normalized index1 data dim_ ids replace_deleted)
                                   (Z.to_nat rows) n moment
                                   (init_pool (Z.to_nat start) (a1, fun _ => f0))))
               else shared (run_pool (add_items_plain index1 data dim_ ids replace_deleted)
                                     (Z.to_nat rows) n moment (init_pool (Z.to_nat start) a1)))
        = calls a ++ call 0%nat :: map call order /\
        forall i, In i order -> (1 <= i)%nat
  end /\
  ((ok = false /\ index' = Some index) \/
   exists index1 a1 order,
     index' = Some index1 /\ appr_alg index1 = Some a1 /\ ep_added index1 = true /\
     calls a1 = calls a ++ call 0%nat :: map call order /\
     forall i, In i order -> (1 <= i < Z.to_nat rows)%nat).
Proof.
  intros Ha Hep Hl Hrun call. split.
  - pose proof (add_items_entry_point_cases index a data dim_ ids replace_deleted Hl) as Hcases.
    destruct (add_items_entry_point index a data ids replace_deleted)
      as [[[start index1] a1]|e] eqn:Hblock.
    + rewrite Hep in Hcases. destruct Hcases as (-> & -> & ->).
      split; [reflexivity|]. split; [reflexivity|]. split; [reflexivity|].
      intros n moment. fold call.
      set (index1 := with_ep_added index true).
      set (a1 := with_calls a (calls a ++ [call 0%nat])).
      destruct (normalize index1) eqn:Hn.
      * destruct (pool_calls _ fst call
                    (add_items_normalized index1 data dim_ ids replace_deleted)
                    (fun row t st => add_items_normalized_unit index1 data dim_ ids
                                       replace_deleted row t st Hn)
                    (Z.to_nat 1) (Z.to_nat rows) n moment (a1, fun _ => f0))
          as (order & Heng & Hin).
        exists order. split.
        -- rewrite Heng. simpl. now rewrite <- app_assoc.
        -- intros i Hi. apply Hin in Hi. lia.
      * destruct (pool_calls _ (fun x => x) call
                    (add_items_plain index1 data dim_ ids replace_deleted)
                    (fun row t st => add_items_plain_unit index1 data dim_ ids
                                       replace_deleted row t st Hn)
                    (Z.to_nat 1) (Z.to_nat rows) n moment a1)
          as (order & Heng & Hin).
        exists order. split.
        -- rewrite Heng. simpl. now rewrite <- app_assoc.
        -- intros i Hi. apply Hin in Hi. lia.
    + unfold hnswlib_index_add_items in Hrun. rewrite Ha in Hrun.
      destruct (dim_ =? to_size_t (dim index)); simpl in Hrun; [|now inversion Hrun].
      rewrite Hblock in Hrun. now inversion Hrun.
  - destruct (add_items_run index a sched data rows dim_ ids num_threads replace_deleted
                ok index' Ha Hl Hrun) as [?|(index1 & order & Hres)]; [now left|].
    right. cbv zeta in Hres. rewrite Hep in Hres.
    destruct Hres as (-> & Halg & Hep1 & _ & Hin & _).
    exists index1. eexists. exists order. repeat split; eauto; apply Hin; auto.
Qed.

End AddTheorems.

(** ** The claims about [ParallelFor] *)

Section ParallelForTheorems.

Context {St E : Type}.

(** C8, as amended. A pool of [ParallelFor] with another number of threads
    than one, under any schedule. The schedule can always be continued until
    every thread is joined, and [ParallelFor] returns only then. Once every
    thread is joined, it returns the shared state with the exception kept,
    and:
    - no unit of the range was fetched after a failure was recorded, that is
      after a failing thread wrote [lastException] and set [current] to [end]
      in its [catch] block;
    - every unit fetched has run to its end;
    - every exception raised was recorded, and there is an exception kept
      exactly when some unit raised;
    - the exception kept is one of those raised, the one recorded last;
    - when only one exception was raised, that one is kept, and it is the
      first raised. *)
Theorem ParallelFor_keeps_last_failure
    (fn : nat -> nat -> St -> St * option E) (hw start end_ numThreads : nat)
    (sched : list nat) (st0 : St) :
  let n := resolve_threads hw numThreads in
  let p := run_pool fn end_ n sched (init_pool start st0) in
  n <> 1%nat ->
  (exists more, all_joined n (run_pool fn end_ n (sched ++ more) (init_pool start st0)) = true) /\
  (forall r, ParallelFor fn hw start end_ numThreads sched st0 = Some r ->
     all_joined n p = true) /\
  (all_joined n p = true ->
   ParallelFor fn hw start end_ numThreads sched st0 = Some (shared p, lastException p) /\
   lastException p = last_recorded (log p) /\
   (lastException p = None <-> thrown (log p) = []) /\
   (forall t i e, In (Threw t i e) (log p) -> In (Recorded t i e) (log p)) /\
   (forall later t i e earlier t' i',
      log p = later ++ Recorded t i e :: earlier -> In (Fetched t' i') later ->
      (end_ <= i')%nat) /\
   (forall t i, In (Fetched t i) (log p) -> (i < end_)%nat ->
      In (Returned t i) (log p) \/ exists e, In (Threw t i e) (log p)) /\
   (forall e, lastException p = Some e -> In e (thrown (log p))) /\
   (forall e, thrown (log p) = [e] ->
      lastException p = Some e /\ first_thrown (log p) = Some e)).
Proof.
  intros n p Hn.
  assert (pool_inv fn start end_ n st0 p) as I by apply run_pool_inv, init_pool_inv.
  split.
  - exists (flat_map (fun t => repeat t (2 * (end_ - current p) + 2)) (seq 0 n)).
    rewrite run_pool_app. fold p. apply all_joined_spec. intros t Ht.
    apply one_after_the_other; auto.
    + intros t' Hin. apply in_seq in Hin. lia.
    + apply in_seq. lia.
  - split.
    { intros r. unfold ParallelFor. fold n. destruct (Nat.eqb_spec n 1); [contradiction|].
      fold p. destruct (all_joined n p); [reflexivity|discriminate]. }
    assert (forall e, lastException p = Some e -> In e (thrown (log p))) as Hkept.
    { intros e He. rewrite (inv_last _ _ _ _ _ _ I) in He.
      apply last_recorded_in in He as (t & i & Hin).
      apply (inv_recorded _ _ _ _ _ _ I) in Hin. exact (thrown_in fn start st0 _ _ _ _ Hin). }
    intros J. split; [|split; [|split; [|split; [|split; [|split; [|split]]]]]].
    + unfold ParallelFor. fold n. destruct (Nat.eqb_spec n 1); [contradiction|].
      fold p. now rewrite J.
    + apply (inv_last _ _ _ _ _ _ I).
    + now apply (joined_thrown fn start end_ n st0).
    + intros t i e Hin. destruct (inv_thrown _ _ _ _ _ _ I _ _ _ Hin) as [[Ht Hw]|?]; auto.
      rewrite all_joined_spec in J. rewrite J in Hw by assumption. discriminate.
    + apply (inv_late _ _ _ _ _ _ I).
    + intros t i Hin Hi.
      destruct (inv_fetched _ _ _ _ _ _ I _ _ Hin Hi) as [[Ht Hw]|?]; auto.
      rewrite all_joined_spec in J. rewrite J in Hw by assumption. discriminate.
    + exact Hkept.
    + intros e Hone. split; [|unfold first_thrown; now rewrite Hone].
      destruct (lastException p) as [e'|] eqn:Hl.
      * specialize (Hkept e' eq_refl). rewrite Hone in Hkept.
        destruct Hkept as [->|[]]. reflexivity.
      * apply (joined_thrown fn start end_ n st0 p I J) in Hl.
        rewrite Hone in Hl. discriminate.
Qed.

End ParallelForTheorems.

(** C8, the counterexample: two threads, two units that both raise. The
    exception raised first and recorded first is that of unit 0; the one kept
    and rethrown is that of unit 1. *)
Lemma first_failure_not_kept :
  all_joined 2 two_failures = true /\
  first_thrown (log two_failures) = Some 0%nat /\
  first_recorded (log two_failures) = Some 0%nat /\
  lastException two_failures = Some 1%nat /\
  ParallelFor always_raises 4 0 2 2 [0; 1; 0; 0; 1; 1]%nat 0%nat = Some (2%nat, Some 1%nat) /\
  ~ first_failure_wins.
Proof.
  repeat split; try reflexivity.
  intros Hwins.
  specialize (Hwins nat nat always_raises 0%nat 2%nat 2%nat [0; 1; 0; 0; 1; 1]%nat 0%nat
                ltac:(lia) eq_refl).
  vm_compute in Hwins. discriminate.
Qed.

Lemma ParallelFor_keeps_last_failure_witness :
  (2 <> 1)%nat /\
  all_joined 2 two_failures = true /\
  lastException two_failures = last_recorded (log two_failures).
Proof.
  split; [lia|]. split; [reflexivity|].
  destruct (ParallelFor_keeps_last_failure always_raises 4 0 2 2 [0; 1; 0; 0; 1; 1]%nat 0%nat
              ltac:(vm_compute; lia)) as (_ & _ & Hjoined).
  exact (proj1 (proj2 (Hjoined eq_refl))).
Defined.

(** ** The claims about the counter, the vectors and the parameters *)

Section IndexTheorems.

Context {F : FloatOps} {H : Hnswlib} {host : Host}.

Lemma add_items_entry_point_cur_l index a data ids replace_deleted :
  match add_items_entry_point index a data ids replace_deleted with
  | inl (_, index1, _) => cur_l index1 = cur_l index
  | inr _ => True
  end.
Proof.
  unfold add_items_entry_point. destruct (ep_added index); simpl; [reflexivity|].
  destruct (dim index <? 0); [exact I|].
  destruct (addPoint _ _ _ _) as [a' [e|]]; [exact I|reflexivity].
Qed.

Lemma to_size_t_add_l x y : to_size_t (to_size_t x + y) = to_size_t (x + y).
Proof. unfold to_size_t. apply Zplus_mod_idemp_l. Qed.

(** C9. A successful [hnswlib_index_add_items] or
    [hnswlib_bf_index_add_items] with [rows] rows leaves the counter [cur_l]
    at its value before plus [rows] (in 64 bits; the plain sum when that fits),
    with or without [ids]; the labels that a later batch without [ids] gets
    start from there. *)
Theorem add_items_advances_counter :
  (forall (sched : list nat) (index : HNSWIndex) (data : Z -> float) (rows dim_ : Z)
          (ids : option (Z -> Z)) (num_threads : Z) (replace_deleted : bool)
          (r : option HNSWIndex),
     hnswlib_index_add_items sched (Some index) data rows dim_ ids num_threads replace_deleted
       = Some (true, r) ->
     exists index1,
       r = Some index1 /\
       cur_l index1 = to_size_t (cur_l index + rows) /\
       (0 <= cur_l index -> 0 <= rows -> cur_l index + rows < 2 ^ 64 ->
        cur_l index1 = cur_l index + rows) /\
       forall i, batch_label (cur_l index1) None i = to_size_t (cur_l index + rows + i))
  /\
  (forall (index : BFIndex) (data : Z -> float) (rows dim_ : Z) (ids : option (Z -> Z))
          (r : option BFIndex),
     hnswlib_bf_index_add_items (Some index) data rows dim_ ids = (true, r) ->
     exists index1,
       r = Some index1 /\
       bf_cur_l index1 = to_size_t (bf_cur_l index + rows) /\
       (0 <= bf_cur_l index -> 0 <= rows -> bf_cur_l index + rows < 2 ^ 64 ->
        bf_cur_l index1 = bf_cur_l index + rows) /\
       forall i, batch_label (bf_cur_l index1) None i = to_size_t (bf_cur_l index + rows + i)).
Proof.
  assert (forall c rows l, l = to_size_t (c + rows) ->
            (0 <= c -> 0 <= rows -> c + rows < 2 ^ 64 -> l = c + rows) /\
            forall i, batch_label l None i = to_size_t (c + rows + i)) as Hcounter.
  { intros c rows l ->. split.
    - intros. unfold to_size_t. apply Z.mod_small. lia.
    - intros i. unfold batch_label. apply to_size_t_add_l. }
  split.
  - intros sched index data rows dim_ ids num_threads replace_deleted r Hrun.
    unfold hnswlib_index_add_items in Hrun.
    destruct (appr_alg index) as [a|]; [|discriminate].
    destruct (dim_ =? to_size_t (dim index)); simpl in Hrun; [|discriminate].
    pose proof (add_items_entry_point_cur_l index a data ids replace_deleted) as Hl.
    destruct (add_items_entry_point index a data ids replace_deleted)
      as [[[start index1] a1]|e]; [|discriminate].
    assert (forall a2, cur_l (with_cur_l (with_appr_alg index1 (Some a2))
                                         (to_size_t (cur_l index1 + rows)))
                       = to_size_t (cur_l index + rows)) as Hnew
      by (intros a2; simpl; now rewrite Hl).
    destruct (normalize index1); simpl in Hrun.
    + destruct (to_int _ <? 0); [discriminate|].
      destruct (ParallelFor _ _ _ _ _ _ _) as [[[a2 nrm] [e|]]|]; simpl in Hrun;
        try discriminate.
      inversion Hrun. eexists. split; [reflexivity|]. split; [apply Hnew|].
      apply Hcounter, Hnew.
    + destruct (ParallelFor _ _ _ _ _ _ _) as [[a2 [e|]]|]; simpl in Hrun; try discriminate.
      inversion Hrun. eexists. split; [reflexivity|]. split; [apply Hnew|].
      apply Hcounter, Hnew.
  - intros index data rows dim_ ids r Hrun.
    unfold hnswlib_bf_index_add_items in Hrun.
    destruct (alg index) as [a|]; [|discriminate].
    destruct (dim_ =? to_size_t (bf_dim index)); simpl in Hrun; [|discriminate].
    destruct (for_loop _ _ a) as [a1 [e|]]; [discriminate|].
    inversion Hrun. eexists. split; [reflexivity|]. split; [reflexivity|].
    apply Hcounter. reflexivity.
Qed.

(** C7. With a dimension [d <= 0], [hnswlib_index_create] and
    [hnswlib_bf_index_create] return no index, in every metric: the metric
    space refuses the dimension and the wrapper catches that. *)
Theorem create_rejects_dimension (space_type : SpaceType) (d : Z) :
  d <= 0 ->
  hnswlib_index_create space_type d = None /\
  hnswlib_bf_index_create space_type d = None /\
  new_HNSWIndex space_type d = inr InvalidArgument.
Proof.
  intros Hd. unfold hnswlib_index_create, hnswlib_bf_index_create, new_HNSWIndex, new_BFIndex,
    space_for, new_Space.
  destruct (Z.leb_spec d 0); [|lia]. now destruct space_type.
Qed.

(** C10. [hnswlib_index_set_ef] stores its value as the default in every
    index, with or without an engine, and leaves an index without an engine
    without one; [hnswlib_index_init] succeeds when the index has a space and
    the constructor of the engine raises nothing, and every successful one
    leaves an engine whose [ef_] is the default stored in the index, so the
    value of a [hnswlib_index_set_ef] just before; [hnswlib_index_get_ef]
    returns 0 for the null index and for an index without an engine. *)
Theorem set_ef_kept_until_init :
  (forall (index : HNSWIndex) (ef : Z),
     exists index1,
       hnswlib_index_set_ef (Some index) ef = Some index1 /\
       default_ef index1 = ef /\
       (appr_alg index = None ->
        appr_alg index1 = None /\ hnswlib_index_get_ef (Some index1) = 0))
  /\
  (forall (index : HNSWIndex) (s : SpaceInterface)
          (max_elements M ef_construction random_seed : Z) (allow_replace_deleted : bool),
     space index = Some s ->
     HierarchicalNSW_raises s max_elements M ef_construction random_seed allow_replace_deleted
       = None ->
     fst (hnswlib_index_init (Some index) max_elements M ef_construction random_seed
                             allow_replace_deleted) = true)
  /\
  (forall (index : HNSWIndex) (max_elements M ef_construction random_seed : Z)
          (allow_replace_deleted : bool) (r : option HNSWIndex),
     hnswlib_index_init (Some index) max_elements M ef_construction random_seed
                        allow_replace_deleted = (true, r) ->
     hnswlib_index_get_ef r = default_ef index)
  /\
  (forall (index : HNSWIndex) (ef max_elements M ef_construction random_seed : Z)
          (allow_replace_deleted : bool) (r : option HNSWIndex),
     hnswlib_index_init (hnswlib_index_set_ef (Some index) ef) max_elements M ef_construction
                        random_seed allow_replace_deleted = (true, r) ->
     hnswlib_index_get_ef r = ef)
  /\
  hnswlib_index_get_ef None = 0
  /\
  (forall index : HNSWIndex, appr_alg index = None -> hnswlib_index_get_ef (Some index) = 0).
Proof.
  assert (forall (index : HNSWIndex) max_elements M ef_construction random_seed
                 allow_replace_deleted r,
            hnswlib_index_init (Some index) max_elements M ef_construction random_seed
                               allow_replace_deleted = (true, r) ->
            hnswlib_index_get_ef r = default_ef index) as Hinit.
  { intros index max_elements M ef_construction random_seed allow_replace_deleted r Hrun.
    unfold hnswlib_index_init in Hrun.
    destruct (space index) as [s|]; [|discriminate].
    destruct (new_HierarchicalNSW _ _ _ _ _ _) as [a|e]; [|discriminate].
    inversion Hrun. reflexivity. }
  split; [|split; [|split; [|split; [|split]]]].
  - intros index ef. unfold hnswlib_index_set_ef. simpl.
    destruct (appr_alg index) as [a|] eqn:Ha; eexists; (split; [reflexivity|]); simpl;
      (split; [reflexivity|]); [discriminate|].
    intros _. now rewrite Ha.
  - intros index s max_elements M ef_construction random_seed allow_replace_deleted Hs Hraises.
    unfold hnswlib_index_init, new_HierarchicalNSW. now rewrite Hs, Hraises.
  - exact Hinit.
  - intros index ef max_elements M ef_construction random_seed allow_replace_deleted r Hrun.
    unfold hnswlib_index_set_ef in Hrun. simpl in Hrun.
    destruct (appr_alg index); apply Hinit in Hrun; exact Hrun.
  - reflexivity.
  - intros index Ha. simpl. now rewrite Ha.
Qed.

(** C5, where the code departs from it. [hnswlib_bf_index_search_knn] with
    one query and two threads asked for: the thread count handed to
    [ParallelFor] is 2, not 1, and the call cannot return before worker
    threads have run (no result under the empty schedule), while
    [hnswlib_index_search_knn], with the same arguments, brings the count down
    to 1 and returns without any worker thread. *)
Theorem bf_search_knn_small_batch_threaded
    (t : SpaceType) (d : Z) (nrm : bool) (threads_default cl : Z) (a : BruteforceSearch)
    (s : option SpaceInterface) (index : HNSWIndex) (e : HierarchicalNSW)
    (query : Z -> float) (k : Z) (labels : Z -> Z) (distances : Z -> float) :
  let bf := mkBFIndex t d nrm threads_default cl (Some a) s in
  let hnsw := with_appr_alg index (Some e) in
  1 <= 2 * 4 /\
  bf_search_knn_threads bf 1 2 = 2 /\
  hnswlib_bf_index_search_knn [] (Some bf) query k labels distances 1 2 = None /\
  search_knn_threads hnsw 1 2 = 1 /\
  hnswlib_index_search_knn [] (Some hnsw) query k labels distances 1 2 <> None.
Proof.
  intros bf hnsw. split; [lia|]. split; [reflexivity|]. split; [reflexivity|].
  split; [reflexivity|].
  unfold hnswlib_index_search_knn. simpl appr_alg. cbv iota.
  replace (search_knn_threads hnsw 1 2) with 1 by reflexivity.
  change (Z.to_nat (to_size_t 1)) with 1%nat.
  unfold ParallelFor, resolve_threads. simpl Nat.leb. cbv iota. simpl Nat.eqb. cbv iota.
  destruct (normalize hnsw); simpl negb; cbv iota.
  - destruct (to_int _ <? 0); [discriminate|].
    destruct (for_loop _ _ _) as [b [x|]]; discriminate.
  - destruct (for_loop _ _ _) as [b [x|]]; discriminate.
Qed.

End IndexTheorems.

Section NormalizationTheorem.

Context {F : FloatOps} {H : Hnswlib} {host : Host}.

Lemma points_added_bf_batch index data dim_ ids done :
  map snd (points_added (map (bf_batch_call index data dim_ ids) done)) =
  map (fun i => batch_vector (bf_normalize index) data dim_ (bf_dim index) (Z.of_nat i)) done.
Proof. induction done as [|i done IH]; simpl; [reflexivity|now rewrite IH]. Qed.

(** C6. Both constructors set [normalize] in cosine mode and in no other.
    With [normalize] set, every vector that [hnswlib_index_add_items] or
    [hnswlib_bf_index_add_items] hands to the engine is a row of the batch
    scaled to unit length, and the blocks that a successful
    [hnswlib_index_search_knn] or [hnswlib_bf_index_search_knn] writes are what
    the engine finds for the query scaled to unit length; without it, the
    vectors are the rows and the queries as they come. This holds under every
    schedule, whether the insertion succeeds or not. *)
Theorem normalization_is_consistent :
  (forall t d index, hnswlib_index_create t d = Some index ->
     normalize index = match t with SpaceTypeCosine => true | _ => false end)
  /\
  (forall t d index, hnswlib_bf_index_create t d = Some index ->
     bf_normalize index = match t with SpaceTypeCosine => true | _ => false end)
  /\
  (forall data stride d i,
     batch_vector true data stride d i
       = unit_normalized (load_vector data (i * stride) (Z.to_nat d)) /\
     batch_vector false data stride d i = load_vector data (i * stride) (Z.to_nat d))
  /\
  (forall (index : HNSWIndex) (a : HierarchicalNSW) (sched : list nat) (data : Z -> float)
          (rows dim_ : Z) (ids : option (Z -> Z)) (num_threads : Z) (replace_deleted ok : bool)
          (r : option HNSWIndex),
     appr_alg index = Some a ->
     0 <= cur_l index < 2 ^ 64 ->
     hnswlib_index_add_items sched (Some index) data rows dim_ ids num_threads replace_deleted
       = Some (ok, r) ->
     exists index1 a1 rows_in,
       r = Some index1 /\ appr_alg index1 = Some a1 /\
       map snd (points_added (calls a1)) =
         map snd (points_added (calls a)) ++
         map (fun i => batch_vector (normalize index) data dim_ (dim index) (Z.of_nat i)) rows_in)
  /\
  (forall (index : BFIndex) (a : BruteforceSearch) (data : Z -> float) (rows dim_ : Z)
          (ids : option (Z -> Z)) (ok : bool) (r : option BFIndex),
     alg index = Some a ->
     hnswlib_bf_index_add_items (Some index) data rows dim_ ids = (ok, r) ->
     exists index1 a1 rows_in,
       r = Some index1 /\ alg index1 = Some a1 /\
       map snd (points_added (bf_calls a1)) =
         map snd (points_added (bf_calls a)) ++
         map (fun i => batch_vector (bf_normalize index) data dim_ (bf_dim index) (Z.of_nat i))
             rows_in)
  /\
  (forall (index : HNSWIndex) (a : HierarchicalNSW) (sched : list nat) (query : Z -> float)
          (k : Z) (labels : Z -> Z) (distances : Z -> float) (query_count num_threads : Z)
          (labels' : Z -> Z) (distances' : Z -> float),
     appr_alg index = Some a ->
     0 <= k <= 2 ^ 31 ->
     0 < default_threads num_threads (num_threads_default index) < 2 ^ 31 ->
     hnswlib_index_search_knn sched (Some index) query k labels distances
                              query_count num_threads
       = Some (true, labels', distances') ->
     forall i : nat, Z.of_nat i < query_count ->
       output_block k (Z.of_nat i) labels' distances' =
       written_out (pq_of_list
         (searchKnn a (batch_vector (normalize index) query (dim index) (dim index)
                                    (Z.of_nat i)) k)))
  /\
  (forall (index : BFIndex) (a : BruteforceSearch) (sched : list nat) (query : Z -> float)
          (k : Z) (labels : Z -> Z) (distances : Z -> float) (query_count num_threads : Z)
          (labels' : Z -> Z) (distances' : Z -> float),
     alg index = Some a ->
     0 <= k <= 2 ^ 31 ->
     0 < default_threads num_threads (bf_num_threads_default index) < 2 ^ 31 ->
     hnswlib_bf_index_search_knn sched (Some index) query k labels distances
                                 query_count num_threads
       = Some (true, labels', distances') ->
     forall i : nat, Z.of_nat i < query_count ->
       let found := bf_searchKnn a (batch_vector (bf_normalize index) query (bf_dim index)
                                                 (bf_dim index) (Z.of_nat i)) k in
       Z.of_nat (List.length found) = k ->
       output_block k (Z.of_nat i) labels' distances' = written_out (pq_of_list found)).
Proof.
  split; [|split; [|split; [|split; [|split; [|split]]]]].
  - intros t d index. unfold hnswlib_index_create, new_HNSWIndex, space_for, new_Space.
    destruct (d <=? 0), t; simpl; intros Heq; inversion Heq; reflexivity.
  - intros t d index. unfold hnswlib_bf_index_create, new_BFIndex, space_for, new_Space.
    destruct (d <=? 0), t; simpl; intros Heq; inversion Heq; reflexivity.
  - intros. split; reflexivity.
  - intros index a sched data rows dim_ ids num_threads replace_deleted ok r Ha Hl Hrun.
    destruct (add_items_run index a sched data rows dim_ ids num_threads replace_deleted
                ok r Ha Hl Hrun) as [[_ ->]|(index1 & order & Hres)].
    + exists index, a, []. simpl. now rewrite app_nil_r.
    + cbv zeta in Hres. destruct Hres as (-> & Halg & _).
      exists index1. eexists. exists ((if ep_added index then [] else [0%nat]) ++ order).
      split; [reflexivity|]. split; [exact Halg|].
      simpl. rewrite points_added_app, points_added_batch, map_app, map_map. reflexivity.
  - intros index a data rows dim_ ids ok r Ha Hrun.
    destruct (bf_add_items_run index a data rows dim_ ids ok r Ha Hrun)
      as [[_ ->]|(index1 & a1 & done & rest & _ & -> & Halg & Hcalls & _)].
    + exists index, a, []. simpl. now rewrite app_nil_r.
    + exists index1, a1, done. split; [reflexivity|]. split; [exact Halg|].
      now rewrite Hcalls, points_added_app, map_app, points_added_bf_batch.
  - intros index a sched query k labels distances query_count num_threads labels' distances'
      Ha Hk Hpos Hrun i Hi.
    now apply (search_knn_run index a sched query k labels distances query_count num_threads).
  - intros index a sched query k labels distances query_count num_threads labels' distances'
      Ha Hk Hpos Hrun i Hi found Hsize.
    apply (bf_search_knn_run index a sched query k labels distances query_count num_threads);
      auto.
    unfold bf_knn_found. fold found. now rewrite pq_size_of_list.
Qed.

End NormalizationTheorem.

(** ** The claims on the sample instance *)

Lemma Zfloat_orders (l : list (Z * Z)) : @orders_distances Zfloat l.
Proof.
  split; simpl.
  - intros a b _ _ Hlt. apply Z.ltb_lt in Hlt. apply Z.ltb_ge. lia.
  - intros a b c _ _ _ Hab Hbc. apply Z.ltb_ge in Hab, Hbc. apply Z.ltb_ge. lia.
Qed.

Section Sample.

#[local] Existing Instance Zfloat.
#[local] Existing Instance scan_engine.
#[local] Existing Instance four_threads.

Ltac by_running :=
  solve [ lia
        | vm_compute; reflexivity
        | vm_compute; split; reflexivity
        | vm_compute; split; [discriminate|reflexivity]
        | vm_compute; lia ].

Lemma search_knn_short_fails_witness :
  Z.of_nat (List.length (knn_found (sample_index SpaceTypeL2)
                                   (the_engine (sample_index SpaceTypeL2)) sample_rows 20 0)) < 20 /\
  option_map (fun r => fst (fst r)) (sample_search SpaceTypeL2 20) = Some false /\
  (forall sched r,
     hnswlib_index_search_knn sched (Some (sample_index SpaceTypeL2)) sample_rows 20
                              (fun _ => 0) (fun _ => 0) 9 2 = Some r ->
     fst (fst r) = false) /\
  (exists sched r,
     hnswlib_index_search_knn sched (Some (sample_index SpaceTypeL2)) sample_rows 20
                              (fun _ => 0) (fun _ => 0) 9 2 = Some r).
Proof.
  split; [by_running|]. split; [by_running|].
  refine (@search_knn_short_fails Zfloat scan_engine four_threads
            (sample_index SpaceTypeL2) (the_engine (sample_index SpaceTypeL2))
            sample_rows 20 (fun _ => 0) (fun _ => 0) 9 2 0%nat _ _ _ _);
    by_running.
Defined.

Lemma add_items_labels_by_position_witness :
  sample_add SpaceTypeL2 [] (Some sample_ids) 1
    = Some (true, sample_added SpaceTypeL2 [] (Some sample_ids) 1) /\
  sample_add SpaceTypeL2 sample_schedule (Some sample_ids) 2
    = Some (true, sample_added SpaceTypeL2 sample_schedule (Some sample_ids) 2) /\
  exists index1 a1 index2 a2 order,
    sample_added SpaceTypeL2 [] (Some sample_ids) 1 = Some index1 /\
    appr_alg index1 = Some a1 /\
    sample_added SpaceTypeL2 sample_schedule (Some sample_ids) 2 = Some index2 /\
    appr_alg index2 = Some a2 /\
    Permutation order (rows_added (sample_new SpaceTypeL2) 10) /\
    (1 <= 10 -> rows_added (sample_new SpaceTypeL2) 10 = seq 0 (Z.to_nat 10)) /\
    points_added (calls a1) =
      points_added (calls (the_engine (sample_new SpaceTypeL2))) ++
      map (fun i => (match Some sample_ids with
                     | Some ids => ids (Z.of_nat i)
                     | None => to_size_t (cur_l (sample_new SpaceTypeL2) + Z.of_nat i)
                     end,
                     batch_vector (normalize (sample_new SpaceTypeL2)) sample_rows 2
                                  (dim (sample_new SpaceTypeL2)) (Z.of_nat i))) order /\
    Permutation (points_added (calls a1)) (points_added (calls a2)).
Proof.
  split; [by_running|]. split; [by_running|].
  refine (@add_items_labels_by_position Zfloat scan_engine four_threads
            (sample_new SpaceTypeL2) (the_engine (sample_new SpaceTypeL2))
            sample_rows 10 2 (Some sample_ids) false [] sample_schedule 1 2
            (sample_added SpaceTypeL2 [] (Some sample_ids) 1)
            (sample_added SpaceTypeL2 sample_schedule (Some sample_ids) 2) _ _ _ _ _ _);
    by_running.
Defined.

Lemma add_items_entry_point_first_witness :
  ep_added (sample_new SpaceTypeCosine) = false /\
  sample_add SpaceTypeCosine sample_schedule None 2
    = Some (true, sample_added SpaceTypeCosine sample_schedule None 2) /\
  map fst (points_added (calls (the_engine
             (the_index (sample_added SpaceTypeCosine sample_schedule None 2)))))
    = [0; 2; 1; 3; 5; 4; 7; 6; 8; 9] /\
  ((true = false /\
    sample_added SpaceTypeCosine sample_schedule None 2 = Some (sample_new SpaceTypeCosine)) \/
   exists index1 a1 order,
     sample_added SpaceTypeCosine sample_schedule None 2 = Some index1 /\
     appr_alg index1 = Some a1 /\ ep_added index1 = true /\
     calls a1 = calls (the_engine (sample_new SpaceTypeCosine)) ++
                batch_call (sample_new SpaceTypeCosine) sample_rows 2 None false 0%nat
                :: map (batch_call (sample_new SpaceTypeCosine) sample_rows 2 None false) order /\
     forall i, In i order -> (1 <= i < Z.to_nat 10)%nat).
Proof.
  split; [by_running|]. split; [by_running|]. split; [by_running|].
  refine (proj2 (@add_items_entry_point_first Zfloat scan_engine four_threads
            (sample_new SpaceTypeCosine) (the_engine (sample_new SpaceTypeCosine))
            sample_schedule sample_rows 10 2 None 2 false true
            (sample_added SpaceTypeCosine sample_schedule None 2) _ _ _ _));
    by_running.
Defined.

Lemma normalization_is_consistent_witness :
  normalize (sample_new SpaceTypeCosine) = true /\
  load_vector sample_rows 0 2 = [3; 8] /\
  batch_vector true sample_rows 2 2 0 = [333; 888] /\
  sample_add SpaceTypeCosine sample_schedule None 2
    = Some (true, sample_added SpaceTypeCosine sample_schedule None 2) /\
  exists index1 a1 rows_in,
    sample_added SpaceTypeCosine sample_schedule None 2 = Some index1 /\
    appr_alg index1 = Some a1 /\
    map snd (points_added (calls a1)) =
      map snd (points_added (calls (the_engine (sample_new SpaceTypeCosine)))) ++
      map (fun i => batch_vector (normalize (sample_new SpaceTypeCosine)) sample_rows 2
                                 (dim (sample_new SpaceTypeCosine)) (Z.of_nat i)) rows_in.
Proof.
  split; [by_running|]. split; [by_running|]. split; [by_running|]. split; [by_running|].
  refine (proj1 (proj2 (proj2 (proj2
            (@normalization_is_consistent Zfloat scan_engine four_threads))))
            (sample_new SpaceTypeCosine) (the_engine (sample_new SpaceTypeCosine))
            sample_schedule sample_rows 10 2 None 2 false true
            (sample_added SpaceTypeCosine sample_schedule None 2) _ _ _);
    by_running.
Defined.

Lemma create_rejects_dimension_witness :
  -3 <= 0 /\
  hnswlib_index_create SpaceTypeCosine (-3) = None /\
  hnswlib_bf_index_create SpaceTypeCosine (-3) = None /\
  new_HNSWIndex SpaceTypeCosine (-3) = inr InvalidArgument.
Proof.
  split; [lia|].
  refine (@create_rejects_dimension Zfloat four_threads SpaceTypeCosine (-3) _). lia.
Defined.

Lemma add_items_advances_counter_witness :
  cur_l (sample_new SpaceTypeL2) = 0 /\
  sample_add SpaceTypeL2 sample_schedule (Some sample_ids) 2
    = Some (true, sample_added SpaceTypeL2 sample_schedule (Some sample_ids) 2) /\
  cur_l (the_index (sample_added SpaceTypeL2 sample_schedule (Some sample_ids) 2)) = 10 /\
  exists index1,
    sample_added SpaceTypeL2 sample_schedule (Some sample_ids) 2 = Some index1 /\
    cur_l index1 = to_size_t (cur_l (sample_new SpaceTypeL2) + 10) /\
    (0 <= cur_l (sample_new SpaceTypeL2) -> 0 <= 10 ->
     cur_l (sample_new SpaceTypeL2) + 10 < 2 ^ 64 ->
     cur_l index1 = cur_l (sample_new SpaceTypeL2) + 10) /\
    forall i, batch_label (cur_l index1) None i
              = to_size_t (cur_l (sample_new SpaceTypeL2) + 10 + i).
Proof.
  split; [by_running|]. split; [by_running|]. split; [by_running|].
  refine (proj1 (@add_items_advances_counter Zfloat scan_engine four_threads)
            sample_schedule (sample_new SpaceTypeL2) sample_rows 10 2 (Some sample_ids) 2 false
            (sample_added SpaceTypeL2 sample_schedule (Some sample_ids) 2) _);
    by_running.
Defined.

Lemma set_ef_kept_until_init_witness :
  appr_alg (the_index (hnswlib_index_create SpaceTypeL2 2)) = None /\
  hnswlib_index_get_ef
    (hnswlib_index_set_ef (Some (the_index (hnswlib_index_create SpaceTypeL2 2))) 50) = 0 /\
  fst (hnswlib_index_init
         (hnswlib_index_set_ef (Some (the_index (hnswlib_index_create SpaceTypeL2 2))) 50)
         100 16 200 100 false) = true /\
  hnswlib_index_get_ef
    (snd (hnswlib_index_init
            (hnswlib_index_set_ef (Some (the_index (hnswlib_index_create SpaceTypeL2 2))) 50)
            100 16 200 100 false)) = 50.
Proof.
  split; [by_running|]. split; [by_running|]. split; [by_running|].
  refine (proj1 (proj2 (proj2 (proj2 (@set_ef_kept_until_init Zfloat scan_engine))))
            (the_index (hnswlib_index_create SpaceTypeL2 2)) 50 100 16 200 100 false _ _).
  by_running.
Defined.

End Sample.

(** ** The claims on a host without a thread count *)

Section SampleWithoutThreads.

#[local] Existing Instance Zfloat.
#[local] Existing Instance scan_engine.
#[local] Existing Instance no_threads.

Ltac by_running :=
  solve [ lia
        | vm_compute; reflexivity
        | vm_compute; split; reflexivity
        | vm_compute; split; [discriminate|reflexivity]
        | vm_compute; lia ].

Lemma search_knn_succeeds_without_a_thread_witness :
  unthreaded_search 1
    = Some (true, labels_in (unthreaded_search 1), distances_in (unthreaded_search 1)) /\
  output_block 3 0 (labels_in (unthreaded_search 1)) (distances_in (unthreaded_search 1))
    = [(100, 0); (101, 2); (102, 8)] /\
  output_block 3 0 (fun _ : Z => 7) (fun z : Z => 100 - z) = [(7, 100); (7, 99); (7, 98)] /\
  ~ sorted_by_distance (output_block 3 0 (fun _ : Z => 7) (fun z : Z => 100 - z)) /\
  (forall (t : SpaceType) (d : Z) (index0 : HNSWIndex),
     hnswlib_index_create t d = Some index0 -> num_threads_default index0 = 0) /\
  search_knn_threads unthreaded_index 9 0 = 0 /\
  hnswlib_index_search_knn [] (Some unthreaded_index) sample_rows 3
                           (fun _ : Z => 7) (fun z : Z => 100 - z) 9 0
    = Some (true, fun _ : Z => 7, fun z : Z => 100 - z).
Proof.
  split; [by_running|]. split; [by_running|]. split; [by_running|]. split.
  { intros Hsorted. inversion Hsorted as [|p block _ Hall]. subst.
    inversion Hall as [|p' block' Hlt _]. subst. vm_compute in Hlt. discriminate. }
  refine (@search_knn_succeeds_without_a_thread Zfloat scan_engine no_threads
            unthreaded_index (the_engine unthreaded_index) [] sample_rows 3
            (fun _ => 7) (fun z => 100 - z) 9 0 _ _ _ _ _);
    by_running.
Defined.

Lemma add_items_succeeds_without_a_thread_witness :
  unthreaded_add 0 = Some (true, index_in (unthreaded_add 0)) /\
  unthreaded_add 1 = Some (true, index_in (unthreaded_add 1)) /\
  points_added (calls (the_engine (the_index (index_in (unthreaded_add 0)))))
    = [(100, [3; 8])] /\
  map fst (points_added (calls (the_engine (the_index (index_in (unthreaded_add 1))))))
    = [100; 101; 102; 103; 104; 105; 106; 107; 108; 109] /\
  cur_l (the_index (index_in (unthreaded_add 0))) = 10 /\
  add_items_threads unthreaded_new 10 0 = 0 /\
  exists (index1 : HNSWIndex) (a1 : HierarchicalNSW),
    index_in (unthreaded_add 0) = Some index1 /\
    appr_alg index1 = Some a1 /\
    cur_l index1 = to_size_t (cur_l unthreaded_new + 10) /\
    points_added (calls a1) =
      points_added (calls (the_engine unthreaded_new)) ++
      map (fun i : nat =>
             (batch_label (cur_l unthreaded_new) (Some sample_ids) (Z.of_nat i),
              batch_vector (normalize unthreaded_new) sample_rows 2 (dim unthreaded_new)
                           (Z.of_nat i)))
          (if ep_added unthreaded_new then [] else [0%nat]) /\
    (forall (sched1 : list nat) (r1 : option HNSWIndex),
       2 <= 10 ->
       hnswlib_index_add_items sched1 (Some unthreaded_new) sample_rows 10 2
                               (Some sample_ids) 1 false
         = Some (true, r1) ->
       exists (index2 : HNSWIndex) (a2 : HierarchicalNSW),
         r1 = Some index2 /\
         appr_alg index2 = Some a2 /\
         List.length (points_added (calls a2))
           = (List.length (points_added (calls (the_engine unthreaded_new))) + Z.to_nat 10)%nat /\
         ~ Permutation (points_added (calls a1)) (points_added (calls a2))).
Proof.
  split; [by_running|]. split; [by_running|]. split; [by_running|]. split; [by_running|].
  split; [by_running|].
  refine (@add_items_succeeds_without_a_thread Zfloat scan_engine no_threads
            unthreaded_new (the_engine unthreaded_new) [] sample_rows 10 2 (Some sample_ids)
            0 false (index_in (unthreaded_add 0)) _ _ _ _ _ _ _);
    by_running.
Defined.

End SampleWithoutThreads.

(** * Further properties of the wrapper *)

(** ** [ParallelFor] *)

Section ParallelForMore.

Context {St E : Type}.
Variable fn : nat -> nat -> St -> St * option E.
Variable hw : nat.

(** X1. Whatever the schedule and the number of threads, [ParallelFor] runs
    no unit twice and none outside [start, end), each on a thread of the pool,
    and the state it returns is the one reached by running those units in some
    order; when it returns without an exception (and there is a thread at
    all), it has run every unit of the range exactly once and none raised. *)
Theorem ParallelFor_runs_each_unit_once start end_ numThreads sched st0 st r :
  resolve_threads hw numThreads <> 0%nat ->
  ParallelFor fn hw start end_ numThreads sched st0 = Some (st, r) ->
  exists l es,
    replay fn l st0 = (st, es) /\
    NoDup (map fst l) /\
    (forall i t, In (i, t) l ->
       (start <= i < end_)%nat /\ (t < resolve_threads hw numThreads)%nat) /\
    (r = None -> es = [] /\ Permutation (map fst l) (seq start (end_ - start))).
Proof.
  intros Hn Hrun.
  destruct (ParallelFor_summary fn hw start end_ numThreads sched st0 st r Hrun)
    as (l & es & Hrep & Hnd & Hin & Hnone & Hall).
  exists l, es. split; [exact Hrep|]. split; [exact Hnd|]. split.
  - intros i t Hi. apply Hin in Hi. lia.
  - intros Hr. split; [now apply Hnone|].
    apply NoDup_Permutation; [exact Hnd|apply seq_NoDup|].
    intros i. rewrite in_seq. split.
    + intros Hi. apply in_map_iff in Hi as ([i' t] & <- & Hi). apply Hin in Hi. simpl. lia.
    + intros Hi. apply Hall; auto. lia.
Qed.

(** X2. On an empty range ([end <= start]) [ParallelFor] runs nothing:
    whenever it returns, the state is the one it was given and there is no
    exception; and it does return once the threads have run. *)
Theorem ParallelFor_empty_range start end_ numThreads st0 :
  (end_ <= start)%nat ->
  (forall sched st r,
     ParallelFor fn hw start end_ numThreads sched st0 = Some (st, r) ->
     st = st0 /\ r = None) /\
  ParallelFor fn hw start end_ numThreads
    (one_by_one start end_ (resolve_threads hw numThreads)) st0 = Some (st0, None).
Proof.
  intros Hempty.
  assert (forall sched st r,
            ParallelFor fn hw start end_ numThreads sched st0 = Some (st, r) ->
            st = st0 /\ r = None) as Hnothing.
  { intros sched st r Hrun.
    destruct (ParallelFor_summary fn hw start end_ numThreads sched st0 st r Hrun)
      as (l & es & Hrep & _ & Hin & Hnone & _).
    destruct l as [|[i t] l].
    - simpl in Hrep. inversion Hrep; subst. split; [reflexivity|now apply Hnone].
    - destruct (Hin i t (or_introl eq_refl)) as [Hi _]. lia. }
  split; [exact Hnothing|].
  destruct (ParallelFor_returns fn hw start end_ numThreads st0) as [[st r] Hrun].
  rewrite Hrun. destruct (Hnothing _ _ _ Hrun) as [-> ->]. reflexivity.
Qed.

Lemma for_loop_stops ids st0 st e :
  for_loop fn ids st0 = (st, Some e) ->
  exists done id rest st1,
    ids = done ++ id :: rest /\
    for_loop fn done st0 = (st1, None) /\
    fn id 0%nat st1 = (st, Some e).
Proof.
  revert st0. induction ids as [|id ids IH]; simpl; intros st0 Hrun; [discriminate|].
  destruct (fn id 0%nat st0) as [st' [e'|]] eqn:Hfn.
  - inversion Hrun; subst. exists [], id, ids, st0. simpl. auto.
  - destruct (IH st' Hrun) as (done & id' & rest & st1 & -> & Hdone & Hid).
    exists (id :: done), id', rest, st1. simpl. rewrite Hfn. auto.
Qed.

(** With one thread in effect, [ParallelFor] is the plain loop, whatever the
    schedule. *)
Lemma one_thread_is_the_loop start end_ numThreads sched st0 :
  resolve_threads hw numThreads = 1%nat ->
  ParallelFor fn hw start end_ numThreads sched st0
  = Some (for_loop fn (seq start (end_ - start)) st0).
Proof. intros Hn. unfold ParallelFor. now rewrite Hn. Qed.

(** X3. With one thread in effect (asked for, or the host's only one),
    [ParallelFor] needs no schedule and an exception ends it at once: the
    exception it propagates is that of the first unit, in the order of the
    range, that raises; the units before it have all run, in that order and
    on thread 0, none after it has, and the state is the one that unit
    left. *)
Theorem ParallelFor_one_thread_stops_at_first_failure
    start end_ numThreads sched st0 st e :
  resolve_threads hw numThreads = 1%nat ->
  ParallelFor fn hw start end_ numThreads sched st0 = Some (st, Some e) ->
  ParallelFor fn hw start end_ numThreads [] st0 = Some (st, Some e) /\
  exists done id rest st1,
    seq start (end_ - start) = done ++ id :: rest /\
    for_loop fn done st0 = (st1, None) /\
    fn id 0%nat st1 = (st, Some e).
Proof.
  intros Hn Hrun. rewrite one_thread_is_the_loop in * by assumption.
  split; [exact Hrun|].
  inversion Hrun as [Hfor]. rewrite Hfor. now apply for_loop_stops.
Qed.

End ParallelForMore.

(** ** [normalize_vector] *)

Section NormalizeMore.

Context {F : FloatOps}.

Lemma normalize_vector_outside (data out : Z -> float) doff noff dim z :
  z < noff \/ noff + dim <= z ->
  normalize_vector data doff out noff dim z = out z.
Proof.
  intros Hz. unfold normalize_vector.
  set (norm := fdiv f1 (fadd (sqrtf _) feps)).
  rewrite (stores_at (fun i => fmul (data (doff + i)) norm)).
  assert (existsb (fun i => z - noff =? i) (loop_indices dim) = false) as ->; [|reflexivity].
  apply not_true_is_false. intros Hex. apply existsb_exists in Hex as (i & Hi & Heq).
  unfold loop_indices in Hi. apply in_map_iff in Hi as (j & <- & Hj). apply in_seq in Hj.
  apply Z.eqb_eq in Heq. lia.
Qed.

(** X4. [normalize_vector(data, norm_array, dim)] writes the [dim] cells of
    its output slot and no other cell: the slot holds the input scaled by
    [1 / (sqrt(sum of squares) + 1e-30)], whatever it held before; every other
    cell of [norm_array] is as it was; so the slot [threadId * dim] that a
    worker thread of a batch loop writes leaves the slot of every other
    thread untouched. *)
Theorem normalize_vector_writes_its_slot (data out : Z -> float) (doff noff dim : Z) :
  load_vector (normalize_vector data doff out noff dim) noff (Z.to_nat dim)
  = unit_normalized (load_vector data doff (Z.to_nat dim)) /\
  (forall z, z < noff \/ noff + dim <= z ->
     normalize_vector data doff out noff dim z = out z) /\
  (forall t t' : nat, t <> t' ->
     load_vector (normalize_vector data doff out (Z.of_nat t * dim) dim)
                 (Z.of_nat t' * dim) (Z.to_nat dim)
     = load_vector out (Z.of_nat t' * dim) (Z.to_nat dim)).
Proof.
  split; [apply normalize_vector_load|]. split; [intros z; apply normalize_vector_outside|].
  intros t t' Hne. unfold load_vector. apply map_ext_in. intros j Hj. apply in_seq in Hj.
  apply normalize_vector_outside. nia.
Qed.

End NormalizeMore.

(** ** Batch search, whatever its outcome *)

Section SearchUnitsMore.

Context {F : FloatOps}.

Variable St : Type.
Variable labels_of : St -> Z -> Z.
Variable distances_of : St -> Z -> float.
Variable found : nat -> priority_queue.
Variable k : Z.
Variable fn : nat -> nat -> St -> St * option exception.

Hypothesis k_nonneg : 0 <= k.

Hypothesis fn_frame : forall i t b z,
  z < Z.of_nat i * k \/ Z.of_nat i * k + k <= z ->
  labels_of (fst (fn i t b)) z = labels_of b z /\
  distances_of (fst (fn i t b)) z = distances_of b z.

(** Units below [n] leave the cells outside the first [n] blocks alone. *)
Lemma replay_outside l b0 (n : nat) z :
  (forall i, In i (map fst l) -> (i < n)%nat) ->
  z < 0 \/ Z.of_nat n * k <= z ->
  labels_of (fst (replay fn l b0)) z = labels_of b0 z /\
  distances_of (fst (replay fn l b0)) z = distances_of b0 z.
Proof.
  intros Hin Hz. induction l as [|[i t] l IH]; simpl; [auto|].
  destruct IH as [IHl IHd]; [intros j Hj; apply Hin; now right|].
  assert (i < n)%nat as Hi by (apply Hin; now left).
  destruct (replay fn l b0) as [b es]. simpl in *.
  destruct (fn_frame i t b z) as [Hl Hd]; [nia|].
  destruct (fn i t b) as [b' r]. simpl in *. split; congruence.
Qed.

(** The block of a query that was not run is as it was. *)
Lemma replay_untouched l b0 i :
  ~ In i (map fst l) ->
  output_block k (Z.of_nat i) (labels_of (fst (replay fn l b0)))
                              (distances_of (fst (replay fn l b0)))
  = output_block k (Z.of_nat i) (labels_of b0) (distances_of b0).
Proof.
  induction l as [|[i' t] l IH]; simpl; intros Hnot; [reflexivity|].
  rewrite <- IH by tauto.
  assert (i <> i') as Hne by (intros ->; tauto).
  destruct (replay fn l b0) as [b es]. simpl.
  pose proof (fn_frame i' t b) as Hframe.
  destruct (fn i' t b) as [b' r]. simpl in *.
  apply output_block_ext. intros z Hz. apply Hframe. nia.
Qed.

Hypothesis fn_block : forall i t b,
  snd (fn i t b) = None ->
  pq_size (found i) = k /\
  output_block k (Z.of_nat i) (labels_of (fst (fn i t b))) (distances_of (fst (fn i t b)))
  = written_out (found i).

Hypothesis fn_raised : forall i t b z,
  snd (fn i t b) <> None ->
  labels_of (fst (fn i t b)) z = labels_of b z /\
  distances_of (fst (fn i t b)) z = distances_of b z.

(** After any run of distinct queries, a block is as it was or holds the
    [k] pairs found for its query. *)
Lemma replay_whole_blocks l b0 i :
  NoDup (map fst l) ->
  output_block k (Z.of_nat i) (labels_of (fst (replay fn l b0)))
                              (distances_of (fst (replay fn l b0)))
  = output_block k (Z.of_nat i) (labels_of b0) (distances_of b0)
  \/
  (pq_size (found i) = k /\
   output_block k (Z.of_nat i) (labels_of (fst (replay fn l b0)))
                               (distances_of (fst (replay fn l b0)))
   = written_out (found i)).
Proof.
  induction l as [|[i' t] l IH]; simpl; intros Hnd; [now left|].
  apply NoDup_cons_iff in Hnd as [Hfresh Hnd'].
  pose proof (replay_untouched l b0 i') as Hsame.
  specialize (IH Hnd').
  destruct (replay fn l b0) as [b es]. simpl in *.
  pose proof (fn_frame i' t b) as Hframe.
  pose proof (fn_block i' t b) as Hblock.
  pose proof (fn_raised i' t b) as Hraised.
  destruct (fn i' t b) as [b' [e|]]; simpl in *.
  - assert (output_block k (Z.of_nat i) (labels_of b') (distances_of b')
            = output_block k (Z.of_nat i) (labels_of b) (distances_of b)) as ->
      by (apply output_block_ext; intros z _; apply Hraised; discriminate).
    exact IH.
  - destruct (Nat.eq_dec i i') as [->|Hne].
    + right. now apply Hblock.
    + assert (output_block k (Z.of_nat i) (labels_of b') (distances_of b')
              = output_block k (Z.of_nat i) (labels_of b) (distances_of b)) as ->
        by (apply output_block_ext; intros z Hz; apply Hframe; nia).
      exact IH.
Qed.

Variable hw : nat.

Lemma ParallelFor_whole_blocks n threads sched b0 b r :
  ParallelFor fn hw 0 n threads sched b0 = Some (b, r) ->
  (forall z, z < 0 \/ Z.of_nat n * k <= z ->
     labels_of b z = labels_of b0 z /\ distances_of b z = distances_of b0 z) /\
  (forall i : nat,
     output_block k (Z.of_nat i) (labels_of b) (distances_of b)
     = output_block k (Z.of_nat i) (labels_of b0) (distances_of b0)
     \/
     (pq_size (found i) = k /\
      output_block k (Z.of_nat i) (labels_of b) (distances_of b) = written_out (found i))).
Proof.
  intros Hrun.
  apply ParallelFor_summary in Hrun as (l & es & Hrep & Hnd & Hin & _ & _).
  split.
  - intros z Hz. pose proof (replay_outside l b0 n z) as Hout. rewrite Hrep in Hout.
    apply Hout; [|exact Hz].
    intros i Hi. apply in_map_iff in Hi as ([i' t] & <- & Hi). apply Hin in Hi. simpl. lia.
  - intros i. pose proof (replay_whole_blocks l b0 i Hnd) as Hb. now rewrite Hrep in Hb.
Qed.

End SearchUnitsMore.

Section SearchMore.

Context {F : FloatOps} {H : Hnswlib} {host : Host}.

(** Either body of [hnswlib_index_search_knn], as the lemmas above take it. *)
Lemma search_knn_unit_cases index a query k (normalized : bool) :
  normalize index = normalized -> 0 <= k <= 2 ^ 31 ->
  let fn := if normalized then search_knn_normalized index a query k
            else search_knn_plain index a query k in
  let found := fun i => pq_of_list (knn_found index a query k i) in
  (forall i t b z, z < Z.of_nat i * k \/ Z.of_nat i * k + k <= z ->
     result_labels (fst (fn i t b)) z = result_labels b z /\
     result_distances (fst (fn i t b)) z = result_distances b z) /\
  (forall i t b, snd (fn i t b) = None ->
     pq_size (found i) = k /\
     output_block k (Z.of_nat i) (result_labels (fst (fn i t b)))
                  (result_distances (fst (fn i t b)))
     = written_out (found i)) /\
  (forall i t b z, snd (fn i t b) <> None ->
     result_labels (fst (fn i t b)) z = result_labels b z /\
     result_distances (fst (fn i t b)) z = result_distances b z).
Proof.
  intros Hn Hk. cbv zeta.
  assert (forall i t b, exists norm,
            (if normalized then search_knn_normalized index a query k
             else search_knn_plain index a query k) i t b =
            if pq_size (pq_of_list (knn_found index a query k i)) =? k
            then (mkBuffers norm
                    (fst (unload (unload_turns k) (Z.of_nat i) k
                            (pq_of_list (knn_found index a query k i))
                            (result_labels b) (result_distances b)))
                    (snd (unload (unload_turns k) (Z.of_nat i) k
                            (pq_of_list (knn_found index a query k i))
                            (result_labels b) (result_distances b))),
                  None)
            else (mkBuffers norm (result_labels b) (result_distances b),
                  Some (runtime_error "Cannot return results. Probably ef or M is too small")))
    as Hunit.
  { intros i t b. destruct normalized.
    - now apply search_knn_normalized_unit.
    - exists (norm_array b). rewrite search_knn_plain_unit by assumption.
      cbv zeta. destruct (_ =? k); [reflexivity|]. now destruct b. }
  destruct (search_unit_frame index a query k _ Hk Hunit) as (Hframe & Hblock & Hquiet).
  split; [exact Hframe|]. split.
  - intros i t b Hs. split; [now apply (Hquiet i t b)|apply Hblock; auto].
    now apply (Hquiet i t b).
  - intros i t b z Hs. destruct (Hunit i t b) as [norm Heq]. rewrite Heq in *.
    destruct (_ =? k); simpl in *; [congruence|auto].
Qed.

(** What [hnswlib_index_search_knn] has written when it returns, with
    either result. *)
Lemma search_knn_any_run index a sched query k labels distances query_count num_threads
    ok labels' distances' :
  appr_alg index = Some a ->
  0 <= k <= 2 ^ 31 ->
  0 <= query_count ->
  hnswlib_index_search_knn sched (Some index) query k labels distances query_count num_threads
    = Some (ok, labels', distances') ->
  (forall z, z < 0 \/ query_count * k <= z ->
     labels' z = labels z /\ distances' z = distances z) /\
  (forall i : nat,
     output_block k (Z.of_nat i) labels' distances'
     = output_block k (Z.of_nat i) labels distances
     \/
     (pq_size (pq_of_list (knn_found index a query k i)) = k /\
      output_block k (Z.of_nat i) labels' distances'
      = written_out (pq_of_list (knn_found index a query k i)))).
Proof.
  intros Ha Hk Hq Hrun.
  unfold hnswlib_index_search_knn in Hrun. rewrite Ha in Hrun.
  assert (forall (fn : nat -> nat -> SearchBuffers -> SearchBuffers * option exception),
            fn = (if normalize index then search_knn_normalized index a query k
                  else search_knn_plain index a query k) ->
            forall b r,
            ParallelFor fn hardware_concurrency 0 (Z.to_nat query_count)
              (Z.to_nat (to_size_t (search_knn_threads index query_count num_threads))) sched
              (mkBuffers (fun _ => f0) labels distances) = Some (b, r) ->
            (forall z, z < 0 \/ query_count * k <= z ->
               result_labels b z = labels z /\ result_distances b z = distances z) /\
            (forall i : nat,
               output_block k (Z.of_nat i) (result_labels b) (result_distances b)
               = output_block k (Z.of_nat i) labels distances
               \/
               (pq_size (pq_of_list (knn_found index a query k i)) = k /\
                output_block k (Z.of_nat i) (result_labels b) (result_distances b)
                = written_out (pq_of_list (knn_found index a query k i))))) as Hpool.
  { intros fn -> b r HP.
    destruct (search_knn_unit_cases index a query k (normalize index) eq_refl Hk)
      as (Hframe & Hblock & Hraised).
    destruct (ParallelFor_whole_blocks _ result_labels result_distances
                (fun i => pq_of_list (knn_found index a query k i)) k _
                (proj1 Hk) Hframe Hblock Hraised _ _ _ _ _ _ _ HP) as [Hout Hin].
    split; [|exact Hin].
    intros z Hz. apply Hout. rewrite Z2Nat.id by assumption. exact Hz. }
  destruct (normalize index) eqn:Hn; simpl in Hrun.
  - destruct (to_int _ <? 0).
    + inversion Hrun; subst. split; [auto|now left].
    + destruct (ParallelFor _ _ _ _ _ _ _) as [[b r]|] eqn:HP; [|discriminate].
      destruct (Hpool _ eq_refl b r HP) as [Hout Hin].
      destruct r; inversion Hrun; subst; auto.
  - destruct (ParallelFor _ _ _ _ _ _ _) as [[b r]|] eqn:HP; [|discriminate].
    destruct (Hpool _ eq_refl b r HP) as [Hout Hin].
    destruct r; inversion Hrun; subst; auto.
Qed.

(** X5. [hnswlib_index_search_knn] writes into the first [query_count * k]
    cells of the two output arrays only, whether it succeeds or fails and
    under every schedule; and no block is left half written: the block of
    each query is either as the caller passed it or holds the [k] pairs that
    the engine found for the query, the nearest first. *)
Theorem search_knn_writes_whole_blocks_only
    (index : HNSWIndex) (a : HierarchicalNSW) (sched : list nat)
    (query : Z -> float) (k : Z) (labels : Z -> Z) (distances : Z -> float)
    (query_count num_threads : Z) (ok : bool) (labels' : Z -> Z) (distances' : Z -> float) :
  appr_alg index = Some a ->
  0 <= k <= 2 ^ 31 ->
  0 <= query_count ->
  hnswlib_index_search_knn sched (Some index) query k labels distances query_count num_threads
    = Some (ok, labels', distances') ->
  (forall z, z < 0 \/ query_count * k <= z ->
     labels' z = labels z /\ distances' z = distances z) /\
  (forall i : nat,
     output_block k (Z.of_nat i) labels' distances'
     = output_block k (Z.of_nat i) labels distances
     \/
     (Z.of_nat (List.length (knn_found index a query k i)) = k /\
      output_block k (Z.of_nat i) labels' distances'
      = written_out (pq_of_list (knn_found index a query k i)))).
Proof.
  intros Ha Hk Hq Hrun.
  destruct (search_knn_any_run index a sched query k labels distances query_count num_threads
              ok labels' distances' Ha Hk Hq Hrun) as [Hout Hin].
  split; [exact Hout|].
  intros i. destruct (Hin i) as [Hsame|[Hsize Hblock]]; [now left|right].
  rewrite pq_size_of_list in Hsize. auto.
Qed.

(** X6. The arrays that a successful [hnswlib_index_search_knn] leaves do
    not depend on the schedule of the worker threads nor on the thread count
    asked for: two successful calls with the same index, queries, [k] and
    output arrays leave the same value in every cell of both arrays. *)
Theorem search_knn_result_independent_of_threads
    (index : HNSWIndex) (a : HierarchicalNSW) (sched1 sched2 : list nat)
    (query : Z -> float) (k : Z) (labels : Z -> Z) (distances : Z -> float)
    (query_count threads1 threads2 : Z)
    (labels1 labels2 : Z -> Z) (distances1 distances2 : Z -> float) :
  appr_alg index = Some a ->
  0 <= k <= 2 ^ 31 ->
  0 <= query_count ->
  0 < default_threads threads1 (num_threads_default index) < 2 ^ 31 ->
  0 < default_threads threads2 (num_threads_default index) < 2 ^ 31 ->
  hnswlib_index_search_knn sched1 (Some index) query k labels distances query_count threads1
    = Some (true, labels1, distances1) ->
  hnswlib_index_search_knn sched2 (Some index) query k labels distances query_count threads2
    = Some (true, labels2, distances2) ->
  forall z, labels1 z = labels2 z /\ distances1 z = distances2 z.
Proof.
  intros Ha Hk Hq Ht1 Ht2 Hrun1 Hrun2 z.
  destruct (search_knn_any_run _ _ _ _ _ _ _ _ _ _ _ _ Ha Hk Hq Hrun1) as [Hout1 _].
  destruct (search_knn_any_run _ _ _ _ _ _ _ _ _ _ _ _ Ha Hk Hq Hrun2) as [Hout2 _].
  assert (z < 0 \/ query_count * k <= z ->
          labels1 z = labels2 z /\ distances1 z = distances2 z) as Hout.
  { intros Hz. destruct (Hout1 z Hz) as [-> ->]. destruct (Hout2 z Hz) as [-> ->]. auto. }
  destruct (Z_lt_le_dec z 0) as [Hneg|Hpos]; [apply Hout; now left|].
  destruct (Z_le_gt_dec (query_count * k) z) as [Hbig|Hsmall]; [apply Hout; now right|].
  clear Hout.
  assert (0 < k) as Hk0 by nia.
  set (i := Z.to_nat (z / k)).
  pose proof (Z.div_mod z k ltac:(lia)) as Hdm.
  pose proof (Z.mod_pos_bound z k Hk0) as Hmod.
  assert (0 <= z / k) as Hdiv by (apply Z.div_pos; lia).
  assert (Z.of_nat i < query_count) as Hi by (unfold i; rewrite Z2Nat.id by assumption; nia).
  destruct (search_knn_run index a sched1 query k labels distances query_count threads1
              labels1 distances1 Ha Hk Ht1 Hrun1 i Hi) as [_ Hb1].
  destruct (search_knn_run index a sched2 query k labels distances query_count threads2
              labels2 distances2 Ha Hk Ht2 Hrun2 i Hi) as [_ Hb2].
  rewrite <- Hb2 in Hb1. unfold output_block in Hb1.
  assert (In (z mod k) (loop_indices k)) as Hj.
  { unfold loop_indices. apply in_map_iff. exists (Z.to_nat (z mod k)).
    split; [lia|]. apply in_seq. lia. }
  pose proof (ext_in_map Hb1 (z mod k) Hj) as Hcell. simpl in Hcell.
  replace (Z.of_nat i * k + z mod k) with z in Hcell
    by (unfold i; rewrite Z2Nat.id by assumption; lia).
  inversion Hcell. auto.
Qed.

(** X17. A successful [hnswlib_index_search_knn] with a positive thread
    count in effect (below [2^31]) and [1 <= k <= 2^31], under every schedule
    of the worker threads: the output block of each query holds exactly [k]
    pairs, they are the pairs that the engine found for the query, and the
    block is sorted by non-decreasing distance when [operator<] orders the
    distances found for the query (none is NaN). *)
Theorem search_knn_blocks_hold_the_results_sorted
    (index : HNSWIndex) (a : HierarchicalNSW) (sched : list nat)
    (query : Z -> float) (k : Z) (labels : Z -> Z) (distances : Z -> float)
    (query_count num_threads : Z) (labels' : Z -> Z) (distances' : Z -> float) :
  appr_alg index = Some a ->
  1 <= k <= 2 ^ 31 ->
  0 < default_threads num_threads (num_threads_default index) < 2 ^ 31 ->
  hnswlib_index_search_knn sched (Some index) query k labels distances query_count num_threads
    = Some (true, labels', distances') ->
  forall i : nat, Z.of_nat i < query_count ->
    let block := output_block k (Z.of_nat i) labels' distances' in
    List.length block = Z.to_nat k /\
    Permutation (map (fun p => (snd p, fst p)) block) (knn_found index a query k i) /\
    (orders_distances (knn_found index a query k i) -> sorted_by_distance block).
Proof.
  intros Ha Hk Hthreads Hrun i Hi block.
  assert (block = written_out (pq_of_list (knn_found index a query k i))) as Hblock
    by (eapply search_knn_run; eauto; lia).
  split; [apply output_block_length|]. rewrite Hblock. split.
  - unfold written_out. rewrite map_map. simpl.
    rewrite (map_ext _ (fun x => x)) by (now intros []). rewrite map_id.
    rewrite <- Permutation_rev. apply Permutation_sym, pq_of_list_perm.
  - intros Hord. now apply written_out_sorted, pq_of_list_sorted.
Qed.

End SearchMore.

(** ** Search in the brute-force index *)

Section BruteForceSearchMore.

Context {F : FloatOps} {H : Hnswlib} {host : Host}.

(** X7. [hnswlib_bf_index_search_knn] on a batch for each query of which
    the engine finds [k] pairs (the function does not check that, and the
    source's loop is undefined on a shorter queue), for [0 <= k <= 2^31] and
    under every schedule. Whatever the result, only the first
    [query_count * k] cells of the two output arrays can have changed. When
    the call succeeds with a positive thread count in effect, the block of
    every query holds exactly the pairs found for it, and it is sorted by
    non-decreasing distance when [operator<] orders the distances found (none
    is NaN). *)
Theorem bf_search_knn_blocks_sorted
    (index : BFIndex) (a : BruteforceSearch) (sched : list nat)
    (query : Z -> float) (k : Z) (labels : Z -> Z) (distances : Z -> float)
    (query_count num_threads : Z) (ok : bool) (labels' : Z -> Z) (distances' : Z -> float) :
  alg index = Some a ->
  0 <= k <= 2 ^ 31 ->
  0 <= query_count ->
  (forall i : nat, Z.of_nat i < query_count ->
     Z.of_nat (List.length (bf_knn_found index a query k i)) = k) ->
  hnswlib_bf_index_search_knn sched (Some index) query k labels distances
                              query_count num_threads
    = Some (ok, labels', distances') ->
  (forall z, z < 0 \/ query_count * k <= z ->
     labels' z = labels z /\ distances' z = distances z) /\
  (ok = true ->
   0 < default_threads num_threads (bf_num_threads_default index) < 2 ^ 31 ->
   forall i : nat, Z.of_nat i < query_count ->
     let block := output_block k (Z.of_nat i) labels' distances' in
     Permutation (map (fun p => (snd p, fst p)) block) (bf_knn_found index a query k i) /\
     (orders_distances (bf_knn_found index a query k i) -> sorted_by_distance block)).
Proof.
  intros Ha Hk Hq Hfull Hrun. split.
  - unfold hnswlib_bf_index_search_knn in Hrun. rewrite Ha in Hrun.
    destruct (ParallelFor _ _ _ _ _ _ _) as [[b r]|] eqn:HP; [|discriminate].
    assert (labels' = fst b /\ distances' = snd b) as [-> ->]
      by (destruct r; inversion Hrun; auto).
    destruct (bf_search_knn_unit_frame index a query k Hk) as (Hframe & _).
    apply ParallelFor_summary in HP as (l & es & Hrep & _ & Hin & _ & _).
    intros z Hz.
    pose proof (replay_outside _ fst snd k _ (proj1 Hk) Hframe l (labels, distances)
                  (Z.to_nat query_count) z) as Hout.
    rewrite Hrep in Hout. apply Hout.
    + intros i Hi. apply in_map_iff in Hi as ([i' t] & <- & Hi). apply Hin in Hi. simpl. lia.
    + rewrite Z2Nat.id by assumption. exact Hz.
  - intros -> Hthreads i Hi block.
    assert (block = written_out (pq_of_list (bf_knn_found index a query k i))) as ->.
    { eapply bf_search_knn_run; eauto. rewrite pq_size_of_list. now apply Hfull. }
    split.
    + unfold written_out. rewrite map_map. simpl.
      rewrite (map_ext _ (fun x => x)) by (now intros []). rewrite map_id.
      rewrite <- Permutation_rev. apply Permutation_sym, pq_of_list_perm.
    + intros Hord. now apply written_out_sorted, pq_of_list_sorted.
Qed.

End BruteForceSearchMore.

(** ** Batch insertion, whatever its outcome *)

Section AddMore.

Context {F : FloatOps} {H : Hnswlib} {host : Host}.

Lemma small_batch_single rows n :
  0 < n < 2 ^ 29 -> 0 <= rows <= 4 * n -> small_batch_threads rows n = 1.
Proof.
  intros Hn Hrows. unfold small_batch_threads, to_int, to_size_t.
  rewrite (Z.mod_small (n * 4 + 2 ^ 31)) by lia.
  rewrite Z.mod_small by lia.
  destruct (Z.leb_spec rows (n * 4 + 2 ^ 31 - 2 ^ 31)); [reflexivity|lia].
Qed.

Lemma small_batch_empty n : small_batch_threads 0 n = 1.
Proof.
  unfold small_batch_threads, to_size_t.
  pose proof (Z.mod_pos_bound (to_int (n * 4)) (2 ^ 64) ltac:(lia)) as Hb.
  destruct (Z.leb_spec 0 (to_int (n * 4) mod 2 ^ 64)); [reflexivity|lia].
Qed.

(** With one thread in effect, either batch call is the plain loop on the
    calling thread. *)
Lemma add_items_single_thread sched index data rows dim_ ids num_threads replace_deleted :
  (forall idx, index = Some idx -> add_items_threads idx rows num_threads = 1) ->
  hnswlib_index_add_items sched index data rows dim_ ids num_threads replace_deleted
  = hnswlib_index_add_items [] index data rows dim_ ids num_threads replace_deleted /\
  hnswlib_index_add_items [] index data rows dim_ ids num_threads replace_deleted <> None.
Proof.
  intros Hone. unfold hnswlib_index_add_items.
  destruct index as [idx|]; [|split; [reflexivity|discriminate]].
  rewrite (Hone idx eq_refl).
  destruct (appr_alg idx) as [a|]; [|split; [reflexivity|discriminate]].
  destruct (negb (dim_ =? to_size_t (dim idx))); [split; [reflexivity|discriminate]|].
  destruct (add_items_entry_point idx a data ids replace_deleted) as [[[start idx1] a1]|e];
    [|split; [reflexivity|discriminate]].
  change (Z.to_nat (to_size_t 1)) with 1%nat.
  rewrite !(one_thread_is_the_loop _ _ _ _ 1) by reflexivity.
  destruct (negb (normalize idx1)).
  - split; [reflexivity|]. destruct (for_loop _ _ a1) as [a2 [e|]]; discriminate.
  - destruct (to_int (1 * dim idx1) <? 0); [split; [reflexivity|discriminate]|].
    split; [reflexivity|]. simpl. destruct (for_loop _ _ _) as [[a2 nrm] [e|]]; discriminate.
Qed.

Lemma search_knn_single_thread sched index query k labels distances query_count num_threads :
  (forall idx, index = Some idx -> search_knn_threads idx query_count num_threads = 1) ->
  hnswlib_index_search_knn sched index query k labels distances query_count num_threads
  = hnswlib_index_search_knn [] index query k labels distances query_count num_threads /\
  hnswlib_index_search_knn [] index query k labels distances query_count num_threads <> None.
Proof.
  intros Hone. unfold hnswlib_index_search_knn.
  destruct index as [idx|]; [|split; [reflexivity|discriminate]].
  rewrite (Hone idx eq_refl).
  destruct (appr_alg idx) as [a|]; [|split; [reflexivity|discriminate]].
  change (Z.to_nat (to_size_t 1)) with 1%nat.
  rewrite !(one_thread_is_the_loop _ _ _ _ 1) by reflexivity.
  destruct (negb (normalize idx)).
  - split; [reflexivity|]. destruct (for_loop _ _ _) as [b [e|]]; discriminate.
  - destruct (to_int (1 * dim idx) <? 0); [split; [reflexivity|discriminate]|].
    split; [reflexivity|]. destruct (for_loop _ _ _) as [b [e|]]; discriminate.
Qed.

(** X8. A batch of at most four rows (or queries) per thread in effect is
    handled on the calling thread by the approximate index:
    [hnswlib_index_add_items] and [hnswlib_index_search_knn] then start no
    worker thread, so their result does not depend on any schedule and they
    return as soon as the loop over the rows has ended. *)
Theorem small_batches_run_on_the_calling_thread
    (index : HNSWIndex) (sched : list nat) (data : Z -> float) (rows dim_ : Z)
    (ids : option (Z -> Z)) (num_threads : Z) (replace_deleted : bool)
    (k : Z) (labels : Z -> Z) (distances : Z -> float) :
  0 < default_threads num_threads (num_threads_default index) < 2 ^ 29 ->
  0 <= rows <= 4 * default_threads num_threads (num_threads_default index) ->
  add_items_threads index rows num_threads = 1 /\
  search_knn_threads index rows num_threads = 1 /\
  hnswlib_index_add_items sched (Some index) data rows dim_ ids num_threads replace_deleted
  = hnswlib_index_add_items [] (Some index) data rows dim_ ids num_threads replace_deleted /\
  hnswlib_index_add_items [] (Some index) data rows dim_ ids num_threads replace_deleted
  <> None /\
  hnswlib_index_search_knn sched (Some index) data k labels distances rows num_threads
  = hnswlib_index_search_knn [] (Some index) data k labels distances rows num_threads /\
  hnswlib_index_search_knn [] (Some index) data k labels distances rows num_threads <> None.
Proof.
  intros Hn Hrows.
  pose proof (small_batch_single rows _ Hn Hrows) as Hone.
  split; [exact Hone|]. split; [exact Hone|].
  destruct (add_items_single_thread sched (Some index) data rows dim_ ids num_threads
              replace_deleted) as [Ha Ha']; [intros idx Heq; inversion Heq; subst; exact Hone|].
  destruct (search_knn_single_thread sched (Some index) data k labels distances rows
              num_threads) as [Hs Hs']; [intros idx Heq; inversion Heq; subst; exact Hone|].
  auto.
Qed.

(** X9. The batch calls return once the worker threads have been let run to
    their end: there is a schedule under which [hnswlib_index_add_items] and
    [hnswlib_index_search_knn] return, whatever their arguments, and one under
    which [hnswlib_bf_index_search_knn] returns when the engine finds [k]
    pairs for each query of the batch (on a shorter queue the source's loop is
    undefined). *)
Theorem batch_calls_return :
  (forall (index : option HNSWIndex) (data : Z -> float) (rows dim_ : Z)
          (ids : option (Z -> Z)) (num_threads : Z) (replace_deleted : bool),
     exists sched r,
       hnswlib_index_add_items sched index data rows dim_ ids num_threads replace_deleted
       = Some r)
  /\
  (forall (index : option HNSWIndex) (query : Z -> float) (k : Z) (labels : Z -> Z)
          (distances : Z -> float) (query_count num_threads : Z),
     exists sched r,
       hnswlib_index_search_knn sched index query k labels distances query_count num_threads
       = Some r)
  /\
  (forall (index : option BFIndex) (query : Z -> float) (k : Z) (labels : Z -> Z)
          (distances : Z -> float) (query_count num_threads : Z),
     (forall idx a (i : nat),
        index = Some idx -> alg idx = Some a -> Z.of_nat i < query_count ->
        Z.of_nat (List.length (bf_knn_found idx a query k i)) = k) ->
     exists sched r,
       hnswlib_bf_index_search_knn sched index query k labels distances query_count
                                   num_threads = Some r).
Proof.
  split; [|split].
  - intros index data rows dim_ ids num_threads replace_deleted.
    unfold hnswlib_index_add_items.
    destruct index as [idx|]; [|exists []; eauto].
    destruct (appr_alg idx) as [a|]; [|exists []; eauto].
    destruct (negb (dim_ =? to_size_t (dim idx))); [exists []; eauto|].
    destruct (add_items_entry_point idx a data ids replace_deleted) as [[[start idx1] a1]|e];
      [|exists []; eauto].
    destruct (negb (normalize idx1)).
    + match goal with |- context [ParallelFor ?fn ?hw ?s ?e ?n _ ?st] =>
        destruct (ParallelFor_returns fn hw s e n st) as [[a2 r] Hrun];
        exists (one_by_one s e (resolve_threads hw n)) end.
      rewrite Hrun. destruct r; eauto.
    + destruct (to_int _ <? 0); [exists []; eauto|].
      match goal with |- context [ParallelFor ?fn ?hw ?s ?e ?n _ ?st] =>
        destruct (ParallelFor_returns fn hw s e n st) as [[a2 r] Hrun];
        exists (one_by_one s e (resolve_threads hw n)) end.
      rewrite Hrun. simpl. destruct r; eauto.
  - intros index query k labels distances query_count num_threads.
    unfold hnswlib_index_search_knn.
    destruct index as [idx|]; [|exists []; eauto].
    destruct (appr_alg idx) as [a|]; [|exists []; eauto].
    destruct (negb (normalize idx)).
    + match goal with |- context [ParallelFor ?fn ?hw ?s ?e ?n _ ?st] =>
        destruct (ParallelFor_returns fn hw s e n st) as [[b r] Hrun];
        exists (one_by_one s e (resolve_threads hw n)) end.
      rewrite Hrun. destruct r; eauto.
    + destruct (to_int _ <? 0); [exists []; eauto|].
      match goal with |- context [ParallelFor ?fn ?hw ?s ?e ?n _ ?st] =>
        destruct (ParallelFor_returns fn hw s e n st) as [[b r] Hrun];
        exists (one_by_one s e (resolve_threads hw n)) end.
      rewrite Hrun. destruct r; eauto.
  - intros index query k labels distances query_count num_threads _.
    unfold hnswlib_bf_index_search_knn.
    destruct index as [idx|]; [|exists []; eauto].
    destruct (alg idx) as [a|]; [|exists []; eauto].
    match goal with |- context [ParallelFor ?fn ?hw ?s ?e ?n _ ?st] =>
      destruct (ParallelFor_returns fn hw s e n st) as [[b r] Hrun];
      exists (one_by_one s e (resolve_threads hw n)) end.
    rewrite Hrun. destruct r; eauto.
Qed.

End AddMore.

Section AddOutcomes.

Context {F : FloatOps} {H : Hnswlib} {host : Host}.

(** [hnswlib_index_add_items] writes [appr_alg], [ep_added] and [cur_l]
    and no other field of the index. *)
Lemma add_items_keeps_fields sched index data rows dim_ ids num_threads replace_deleted
    ok index1 :
  hnswlib_index_add_items sched (Some index) data rows dim_ ids num_threads replace_deleted
    = Some (ok, Some index1) ->
  space_type index1 = space_type index /\ dim index1 = dim index /\
  normalize index1 = normalize index /\ index_inited index1 = index_inited index /\
  num_threads_default index1 = num_threads_default index /\
  space index1 = space index /\ default_ef index1 = default_ef index.
Proof.
  unfold hnswlib_index_add_items.
  destruct (appr_alg index) as [a|]; [|now inversion 1].
  destruct (negb (dim_ =? to_size_t (dim index))); [now inversion 1|].
  assert (match add_items_entry_point index a data ids replace_deleted with
          | inl (_, idx, _) => idx = index \/ idx = with_ep_added index true
          | inr _ => True
          end) as Hep.
  { unfold add_items_entry_point. destruct (negb (ep_added index)); [|now left].
    destruct (dim index <? 0); [exact I|].
    destruct (addPoint _ _ _ _) as [a' [e|]]; [exact I|now right]. }
  destruct (add_items_entry_point index a data ids replace_deleted) as [[[start idx] a1]|e];
    [|now inversion 1].
  match goal with |- match ?d with _ => _ end = _ -> _ => destruct d as [[a2 [e|]]|] end;
    inversion 1; subst; destruct Hep as [-> | ->]; simpl; repeat split; reflexivity.
Qed.

(** X10. A call of [hnswlib_index_add_items] that fails leaves the counter
    [cur_l] where it was and takes nothing back: the engine keeps what it
    held and the rows of the batch inserted before the failure, each under
    the label of its position. A later batch without [ids] is therefore
    numbered from the same [cur_l] again. *)
Theorem add_items_failure_keeps_counter
    (index : HNSWIndex) (a : HierarchicalNSW) (sched : list nat) (data : Z -> float)
    (rows dim_ : Z) (ids : option (Z -> Z)) (num_threads : Z) (replace_deleted : bool)
    (index' : option HNSWIndex) :
  appr_alg index = Some a ->
  0 <= cur_l index < 2 ^ 64 ->
  hnswlib_index_add_items sched (Some index) data rows dim_ ids num_threads replace_deleted
    = Some (false, index') ->
  exists index1 a1 added,
    index' = Some index1 /\ appr_alg index1 = Some a1 /\
    cur_l index1 = cur_l index /\
    calls a1 = calls a ++ map (batch_call index data dim_ ids replace_deleted) added /\
    (forall i, In i added ->
       (i < Z.to_nat rows)%nat \/ (i = 0%nat /\ ep_added index = false)) /\
    (forall i, batch_label (cur_l index1) None i = batch_label (cur_l index) None i).
Proof.
  intros Ha Hl Hrun.
  destruct (add_items_run index a sched data rows dim_ ids num_threads replace_deleted
              false index' Ha Hl Hrun) as [[_ ->]|(index1 & order & Hres)].
  - exists index, a, []. simpl. rewrite app_nil_r. repeat split; auto. tauto.
  - cbv zeta in Hres. destruct Hres as (-> & Halg & _ & Hcur & Hin & _).
    exists index1. eexists. exists ((if ep_added index then [] else [0%nat]) ++ order).
    split; [reflexivity|]. split; [exact Halg|]. split; [exact Hcur|].
    split; [reflexivity|]. split; [|now rewrite Hcur].
    intros i Hi. apply in_app_or in Hi as [Hi|Hi].
    + destruct (ep_added index); [contradiction|]. destruct Hi as [<-|[]]. now right.
    + left. apply Hin in Hi. lia.
Qed.

(** X11. A batch of no rows is not without effect on an index that has no
    entry point yet: the block before the loops still reads the row at
    [data[0]] (and [ids[0]]), inserts it and sets [ep_added], the loop runs
    nothing, the call reports success and [cur_l] stays. Once the entry point
    exists, a batch of no rows changes nothing. *)
Theorem add_items_empty_batch
    (index : HNSWIndex) (a : HierarchicalNSW) (sched : list nat) (data : Z -> float)
    (ids : option (Z -> Z)) (num_threads : Z) (replace_deleted : bool) :
  appr_alg index = Some a ->
  0 <= cur_l index < 2 ^ 64 ->
  0 <= dim index < 2 ^ 31 ->
  (ep_added index = false ->
   addPoint_raises a (batch_vector (normalize index) data (dim index) (dim index) 0)
                   (batch_label (cur_l index) ids 0) replace_deleted = None ->
   exists index1,
     hnswlib_index_add_items sched (Some index) data 0 (dim index) ids num_threads
                             replace_deleted = Some (true, Some index1) /\
     appr_alg index1
       = Some (with_calls a (calls a ++
                 [batch_call index data (dim index) ids replace_deleted 0%nat])) /\
     ep_added index1 = true /\ cur_l index1 = cur_l index) /\
  (ep_added index = true ->
   hnswlib_index_add_items sched (Some index) data 0 (dim index) ids num_threads
                           replace_deleted = Some (true, Some index)).
Proof.
  intros Ha Hl Hd.
  assert (to_size_t (dim index) = dim index) as Hdim
    by (unfold to_size_t; apply Z.mod_small; lia).
  assert (to_size_t (cur_l index + 0) = cur_l index) as Hcur
    by (unfold to_size_t; rewrite Z.add_0_r; apply Z.mod_small; lia).
  assert ((to_int (1 * dim index) <? 0) = false) as Hint.
  { unfold to_int. rewrite Z.mod_small by lia. apply Z.ltb_ge. lia. }
  pose proof (add_items_entry_point_cases index a data (dim index) ids replace_deleted Hl)
    as Hep.
  unfold hnswlib_index_add_items. rewrite Ha, Hdim, Z.eqb_refl. simpl negb. cbv iota.
  unfold add_items_threads. rewrite small_batch_empty.
  change (Z.to_nat (to_size_t 1)) with 1%nat. change (Z.to_nat 0) with 0%nat.
  split.
  - intros Hno Hquiet.
    assert (add_items_entry_point index a data ids replace_deleted
            = inl (1, with_ep_added index true,
                   with_calls a (calls a ++
                     [batch_call index data (dim index) ids replace_deleted 0%nat]))) as ->.
    { revert Hep. unfold add_items_entry_point. rewrite Hno. simpl negb. cbv iota.
      destruct (Z.ltb_spec (dim index) 0) as [?|_]; [lia|].
      assert ((if normalize index
               then load_vector (normalize_vector data 0 (fun _ => f0) 0 (dim index)) 0
                                (Z.to_nat (dim index))
               else load_vector data 0 (Z.to_nat (dim index)))
              = batch_vector (normalize index) data (dim index) (dim index) 0) as ->.
      { unfold batch_vector. simpl. rewrite normalize_vector_load. reflexivity. }
      assert (match ids with Some ids0 => ids0 0 | None => cur_l index end
              = batch_label (cur_l index) ids 0) as ->.
      { unfold batch_label. destruct ids; [reflexivity|]. now rewrite Hcur. }
      unfold addPoint. rewrite Hquiet. intros _. reflexivity. }
    rewrite !(one_thread_is_the_loop _ _ _ _ 1) by reflexivity.
    change (Z.to_nat 1) with 1%nat. simpl seq. simpl for_loop.
    simpl normalize. simpl dim. rewrite Hint. simpl cur_l. rewrite Hcur.
    eexists. split; [destruct (normalize index); reflexivity|].
    destruct (normalize index); simpl; auto.
  - intros Hyes. rewrite Hyes in Hep.
    destruct (add_items_entry_point index a data ids replace_deleted)
      as [[[start idx1] a1]|e] eqn:Heq.
    + destruct Hep as (-> & -> & ->).
      rewrite !(one_thread_is_the_loop _ _ _ _ 1) by reflexivity.
      simpl seq. simpl for_loop. rewrite Hint.
      assert (with_cur_l (with_appr_alg index (Some a)) (cur_l index) = index) as Hsame
        by (destruct index; simpl in *; now subst).
      destruct (normalize index); simpl; rewrite Hcur; now rewrite Hsame.
    + unfold add_items_entry_point in Heq. rewrite Hyes in Heq. discriminate.
Qed.

Lemma labels_in_range (c : Z) (rows : Z) (order : list nat) :
  0 <= c -> c + rows <= 2 ^ 64 ->
  Permutation order (seq 0 (Z.to_nat rows)) ->
  map (fun i => batch_label c None (Z.of_nat i)) order
  = map (fun i => c + Z.of_nat i) order.
Proof.
  intros Hc Hr Hperm. apply map_ext_in. intros i Hi.
  apply (Permutation_in _ Hperm) in Hi. apply in_seq in Hi.
  unfold batch_label, to_size_t. apply Z.mod_small. lia.
Qed.

Lemma map_seq_from {A : Type} (f : nat -> A) d s len :
  map (fun i => f (d + i)%nat) (seq s len) = map f (seq (d + s) len).
Proof.
  revert s. induction len as [|len IH]; intros s; simpl; [reflexivity|].
  now rewrite IH, Nat.add_succ_r.
Qed.

Lemma labels_of_points (f : nat -> Z) (g : nat -> list float) order :
  map fst (map (fun i => (f i, g i)) order) = map f order.
Proof. rewrite map_map. reflexivity. Qed.

(** X12. Two successful calls of [hnswlib_index_add_items] without [ids],
    one after the other, of [rows1 >= 1] and [rows2] rows: whatever the
    schedules and the positive thread counts, the labels handed to the engine
    are those it held before, then [cur_l .. cur_l + rows1 - 1] in some order,
    then [cur_l + rows1 .. cur_l + rows1 + rows2 - 1] in some order; no label
    is given twice, and the counter ends at [cur_l + rows1 + rows2]. *)
Theorem add_items_batches_get_consecutive_labels
    (index : HNSWIndex) (a : HierarchicalNSW) (sched1 sched2 : list nat)
    (data1 data2 : Z -> float) (rows1 rows2 dim1 dim2 : Z) (threads1 threads2 : Z)
    (replace1 replace2 : bool) (r1 r2 : option HNSWIndex) :
  appr_alg index = Some a ->
  0 <= cur_l index -> 1 <= rows1 -> 0 <= rows2 -> cur_l index + rows1 + rows2 < 2 ^ 64 ->
  0 < default_threads threads1 (num_threads_default index) < 2 ^ 31 ->
  0 < default_threads threads2 (num_threads_default index) < 2 ^ 31 ->
  hnswlib_index_add_items sched1 (Some index) data1 rows1 dim1 None threads1 replace1
    = Some (true, r1) ->
  hnswlib_index_add_items sched2 r1 data2 rows2 dim2 None threads2 replace2
    = Some (true, r2) ->
  exists index2 a2 order1 order2,
    r2 = Some index2 /\ appr_alg index2 = Some a2 /\
    cur_l index2 = cur_l index + rows1 + rows2 /\
    Permutation order1 (seq 0 (Z.to_nat rows1)) /\
    Permutation order2 (seq 0 (Z.to_nat rows2)) /\
    map fst (points_added (calls a2)) =
      map fst (points_added (calls a)) ++
      map (fun i => cur_l index + Z.of_nat i) order1 ++
      map (fun i => cur_l index + rows1 + Z.of_nat i) order2 /\
    NoDup (map (fun i => cur_l index + Z.of_nat i) order1 ++
           map (fun i => cur_l index + rows1 + Z.of_nat i) order2).
Proof.
  intros Ha Hc Hr1 Hr2 Hfit Ht1 Ht2 Hrun1 Hrun2.
  assert (0 <= cur_l index < 2 ^ 64) as Hl by lia.
  destruct (add_items_points index a sched1 data1 rows1 dim1 None threads1 replace1 r1
              Ha Hl Ht1 Hrun1) as (index1 & a1 & order1 & -> & Ha1 & Hperm1 & Hpts1).
  rewrite rows_added_batch in Hperm1 by assumption.
  destruct (add_items_run index a sched1 data1 rows1 dim1 None threads1 replace1
              true (Some index1) Ha Hl Hrun1) as [[? _]|(index1' & o1 & Hres1)];
    [discriminate|].
  cbv zeta in Hres1. destruct Hres1 as (Heq1 & _ & Hep1 & Hcur1 & _).
  inversion Heq1; subst index1'. clear Heq1.
  assert (cur_l index1 = cur_l index + rows1) as Hcur1'
    by (rewrite Hcur1; unfold to_size_t; apply Z.mod_small; lia).
  destruct (add_items_keeps_fields _ _ _ _ _ _ _ _ _ _ Hrun1)
    as (_ & _ & _ & _ & Hthreads & _).
  assert (0 <= cur_l index1 < 2 ^ 64) as Hl1 by lia.
  rewrite <- Hthreads in Ht2.
  destruct (add_items_points index1 a1 sched2 data2 rows2 dim2 None threads2 replace2 r2
              Ha1 Hl1 Ht2 Hrun2) as (index2 & a2 & order2 & -> & Ha2 & Hperm2 & Hpts2).
  unfold rows_added in Hperm2. rewrite Hep1 in Hperm2.
  destruct (add_items_run index1 a1 sched2 data2 rows2 dim2 None threads2 replace2
              true (Some index2) Ha1 Hl1 Hrun2) as [[? _]|(index2' & o2 & Hres2)];
    [discriminate|].
  cbv zeta in Hres2. destruct Hres2 as (Heq2 & _ & _ & Hcur2 & _).
  inversion Heq2; subst index2'. clear Heq2.
  exists index2, a2, order1, order2.
  split; [reflexivity|]. split; [exact Ha2|]. split.
  { rewrite Hcur2, Hcur1'. unfold to_size_t. apply Z.mod_small. lia. }
  split; [exact Hperm1|]. split; [exact Hperm2|]. split.
  - rewrite Hpts2, Hpts1, !map_app, !labels_of_points.
    rewrite (labels_in_range (cur_l index) rows1) by (auto; lia).
    rewrite (labels_in_range (cur_l index1) rows2) by (auto; lia).
    rewrite Hcur1', <- app_assoc. reflexivity.
  - assert (Permutation
              (map (fun i => cur_l index + Z.of_nat i) order1 ++
               map (fun i => cur_l index + rows1 + Z.of_nat i) order2)
              (map (fun i => cur_l index + Z.of_nat i)
                   (seq 0 (Z.to_nat rows1 + Z.to_nat rows2)))) as Hall.
    { rewrite seq_app, map_app. apply Permutation_app.
      - now apply Permutation_map.
      - rewrite (Permutation_map _ Hperm2).
        rewrite Nat.add_comm, <- (map_seq_from (fun i => cur_l index + Z.of_nat i)).
        erewrite map_ext; [reflexivity|]. intros i. simpl. lia. }
    apply (Permutation_NoDup (Permutation_sym Hall)).
    apply NoDup_map_NoDup_ForallPairs; [|apply seq_NoDup].
    intros i j _ _ Hij. lia.
Qed.

(** X13. After a successful [hnswlib_index_init], whatever the index held
    before, a successful batch of [rows >= 1] rows without [ids], run with a
    positive thread count in effect (below [2^31]), leaves an engine whose
    points are exactly the rows of the batch, the row at position [i] under
    the label [i], and the counter at [rows]. *)
Theorem init_then_add_items_labels_from_zero
    (index : HNSWIndex) (max_elements M ef_construction random_seed : Z)
    (allow_replace_deleted : bool) (r0 : option HNSWIndex)
    (sched : list nat) (data : Z -> float) (rows dim_ : Z) (num_threads : Z)
    (replace_deleted : bool) (r1 : option HNSWIndex) :
  1 <= rows < 2 ^ 64 ->
  0 < default_threads num_threads (num_threads_default index) < 2 ^ 31 ->
  hnswlib_index_init (Some index) max_elements M ef_construction random_seed
                     allow_replace_deleted = (true, r0) ->
  hnswlib_index_add_items sched r0 data rows dim_ None num_threads replace_deleted
    = Some (true, r1) ->
  exists index1 a1 order,
    r1 = Some index1 /\ appr_alg index1 = Some a1 /\ cur_l index1 = rows /\
    Permutation order (seq 0 (Z.to_nat rows)) /\
    points_added (calls a1) =
      map (fun i => (Z.of_nat i,
                     batch_vector (normalize index) data dim_ (dim index) (Z.of_nat i))) order.
Proof.
  intros Hrows Hthreads Hinit Hrun.
  unfold hnswlib_index_init in Hinit.
  destruct (space index) as [s|]; [|discriminate].
  unfold new_HierarchicalNSW in Hinit.
  destruct (HierarchicalNSW_raises _ _ _ _ _ _); [discriminate|].
  inversion Hinit as [Hr0]. clear Hinit. subst r0.
  match type of Hrun with hnswlib_index_add_items _ (Some ?i) _ _ _ _ _ _ = _ =>
    set (index0 := i) in * end.
  assert (appr_alg index0
          = Some (with_ef (mkHNSW s max_elements M ef_construction random_seed
                                  allow_replace_deleted 10 []) (default_ef index)))
    as Ha0 by reflexivity.
  assert (0 <= cur_l index0 < 2 ^ 64) as Hl0 by (simpl; lia).
  destruct (add_items_points index0 _ sched data rows dim_ None num_threads replace_deleted r1
              Ha0 Hl0 Hthreads Hrun) as (index1 & a1 & order & -> & Ha1 & Hperm & Hpts).
  rewrite rows_added_batch in Hperm by lia.
  destruct (add_items_run index0 _ sched data rows dim_ None num_threads replace_deleted
              true (Some index1) Ha0 Hl0 Hrun) as [[? _]|(index1' & o1 & Hres1)];
    [discriminate|].
  cbv zeta in Hres1. destruct Hres1 as (Heq1 & _ & _ & Hcur1 & _).
  inversion Heq1; subst index1'. clear Heq1.
  exists index1, a1, order.
  split; [reflexivity|]. split; [exact Ha1|]. split.
  { rewrite Hcur1. simpl. unfold to_size_t. apply Z.mod_small. lia. }
  split; [exact Hperm|].
  rewrite Hpts. simpl. apply map_ext_in. intros i Hi.
  apply (Permutation_in _ Hperm) in Hi. apply in_seq in Hi.
  f_equal. unfold to_size_t. apply Z.mod_small. lia.
Qed.

End AddOutcomes.

(** ** Insertion into the brute-force index *)

Section BruteForceAddMore.

Context {F : FloatOps} {H : Hnswlib} {host : Host}.

Lemma seq_prefix (done rest : list nat) s len :
  seq s len = done ++ rest ->
  done = seq s (List.length done) /\ (List.length done <= len)%nat /\
  rest = seq (s + List.length done) (len - List.length done).
Proof.
  revert s len. induction done as [|x done IH]; intros s len Heq; simpl in *.
  - rewrite Nat.add_0_r, Nat.sub_0_r. repeat split; auto. lia.
  - destruct len as [|len]; [discriminate|]. simpl in Heq. inversion Heq as [[Hx Hrest]].
    destruct (IH _ _ Hrest) as (Hdone & Hlen & Hr).
    rewrite <- Hdone. repeat split; [lia|].
    rewrite Hr at 1. f_equal. lia.
Qed.

(** X14. [hnswlib_bf_index_add_items] hands the rows to the engine in the
    order of the batch, the row at position [i] under the label of its
    position, and stops at the first row that the engine refuses: after the
    call the engine has taken the rows [0 .. n-1] on top of what it held, with
    [n = rows] when the call succeeds; when it fails (the dimension being the
    index's), [n] is the position of the refused row, the rows before it stay
    in the engine and the counter [cur_l] is as before. *)
Theorem bf_add_items_in_batch_order
    (index : BFIndex) (a : BruteforceSearch) (data : Z -> float) (rows dim_ : Z)
    (ids : option (Z -> Z)) (ok : bool) (index' : option BFIndex) :
  alg index = Some a ->
  hnswlib_bf_index_add_items (Some index) data rows dim_ ids = (ok, index') ->
  exists index1 a1 (n : nat),
    index' = Some index1 /\ alg index1 = Some a1 /\
    (n <= Z.to_nat rows)%nat /\
    bf_calls a1 = bf_calls a ++ map (bf_batch_call index data dim_ ids) (seq 0 n) /\
    bf_cur_l index1 = (if ok then to_size_t (bf_cur_l index + rows) else bf_cur_l index) /\
    (ok = true -> n = Z.to_nat rows) /\
    (ok = false -> dim_ = to_size_t (bf_dim index) ->
     (n < Z.to_nat rows)%nat /\
     snd (bf_add_items_row index data dim_ ids n 0%nat a1) <> None).
Proof.
  intros Ha Hrun. unfold hnswlib_bf_index_add_items in Hrun. rewrite Ha in Hrun.
  destruct (Z.eqb_spec dim_ (to_size_t (bf_dim index))) as [Hdim|Hdim]; simpl in Hrun.
  - destruct (for_loop _ _ a) as [a1 [e|]] eqn:Hloop; inversion Hrun; subst ok index'.
    + destruct (for_loop_stops _ _ _ _ _ Hloop) as (done & id & rest & st1 & Hsplit & Hdone & Hid).
      destruct (seq_prefix _ _ _ _ Hsplit) as (Hpre & Hlen & Hrest).
      pose proof (bf_for_loop_calls index data dim_ ids done a) as Hcalls.
      cbv zeta in Hcalls. rewrite Hdone in Hcalls.
      destruct Hcalls as (done' & rest' & Hsplit' & Hcalls & Hnil). simpl in Hcalls, Hnil.
      rewrite (Hnil eq_refl), app_nil_r in Hsplit'. subst done'.
      assert (id = List.length done) as Hidn.
      { destruct (Z.to_nat rows - List.length done)%nat; simpl in Hrest; [discriminate|].
        inversion Hrest. lia. }
      assert (List.length done < Z.to_nat rows)%nat as Hlt.
      { destruct (Z.to_nat rows - List.length done)%nat eqn:Hd; simpl in Hrest;
          [discriminate|lia]. }
      assert (a1 = st1) as ->.
      { destruct (bf_add_items_row_cases index data dim_ ids id 0%nat st1) as [[Hs _]|[_ Hf]];
          rewrite Hid in *; simpl in *; [discriminate|assumption]. }
      eexists. exists st1, (List.length done). simpl.
      split; [reflexivity|]. split; [reflexivity|]. split; [lia|].
      split; [now rewrite Hcalls, <- Hpre|]. split; [reflexivity|].
      split; [discriminate|]. intros _ _. split; [exact Hlt|].
      rewrite <- Hidn, Hid. discriminate.
    + pose proof (bf_for_loop_calls index data dim_ ids (seq 0 (Z.to_nat rows)) a) as Hcalls.
      cbv zeta in Hcalls. rewrite Hloop in Hcalls.
      destruct Hcalls as (done & rest & Hsplit & Hcalls & Hnil). simpl in Hcalls, Hnil.
      rewrite (Hnil eq_refl), app_nil_r in Hsplit. subst done.
      eexists. exists a1, (Z.to_nat rows). simpl.
      split; [reflexivity|]. split; [reflexivity|]. split; [lia|].
      split; [exact Hcalls|]. split; [reflexivity|]. split; [reflexivity|]. discriminate.
  - inversion Hrun; subst ok index'.
    exists index, a, 0%nat. simpl. rewrite app_nil_r.
    split; [reflexivity|]. split; [exact Ha|]. split; [lia|].
    split; [reflexivity|]. split; [reflexivity|]. split; [discriminate|].
    intros _ Heq. contradiction.
Qed.

End BruteForceAddMore.

(** ** Tombstones and the counter *)

Section DeleteMore.

Context {F : FloatOps} {H : Hnswlib} {host : Host}.

(** Either call hands the engine the one call, or none when the engine
    raises (the exception is printed and dropped), and writes no other field
    of the index. *)
Lemma mark_deleted_cases (index : HNSWIndex) (a : HierarchicalNSW) (label : Z) (undo : bool) :
  appr_alg index = Some a ->
  exists a1,
    (if undo then hnswlib_index_unmark_deleted (Some index) label
     else hnswlib_index_mark_deleted (Some index) label)
    = Some (with_appr_alg index (Some a1)) /\
    (calls a1 = calls a ++ [if undo then UnmarkDelete label else MarkDelete label] \/
     a1 = a) /\
    points_added (calls a1) = points_added (calls a).
Proof.
  intros Ha.
  assert (forall c : EngineCall,
            (forall v l r, c <> AddPoint v l r) ->
            points_added (calls a ++ [c]) = points_added (calls a)) as Hpts.
  { intros c Hc. induction (calls a) as [|[v l r|l|l] cs IH]; simpl; try rewrite IH; auto.
    destruct c as [v l r|l|l]; auto. now destruct (Hc v l r). }
  destruct undo.
  - unfold hnswlib_index_unmark_deleted, unmarkDelete. rewrite Ha.
    destruct (unmarkDelete_raises a label) as [e|]; eexists; (split; [reflexivity|]); simpl.
    + split; [now right|reflexivity].
    + split; [now left|]. apply Hpts. discriminate.
  - unfold hnswlib_index_mark_deleted, markDelete. rewrite Ha.
    destruct (markDelete_raises a label) as [e|]; eexists; (split; [reflexivity|]); simpl.
    + split; [now right|reflexivity].
    + split; [now left|]. apply Hpts. discriminate.
Qed.

(** X15. Deleting a label does not give it back to the numbering:
    [hnswlib_index_mark_deleted] and [hnswlib_index_unmark_deleted] leave the
    counter [cur_l] alone (and drop an exception of the engine), so a
    successful batch without [ids] after either of them, run with a positive
    thread count in effect (below [2^31]), gets the labels
    [cur_l .. cur_l + rows - 1] that it would have got without the call, and
    the engine holds the points it held plus the rows of the batch. *)
Theorem deletion_keeps_the_numbering
    (index : HNSWIndex) (a : HierarchicalNSW) (label : Z) (undo : bool)
    (sched : list nat) (data : Z -> float) (rows dim_ : Z) (num_threads : Z)
    (replace_deleted : bool) (r : option HNSWIndex) :
  appr_alg index = Some a ->
  0 <= cur_l index < 2 ^ 64 ->
  0 < default_threads num_threads (num_threads_default index) < 2 ^ 31 ->
  hnswlib_index_add_items sched
    (if undo then hnswlib_index_unmark_deleted (Some index) label
     else hnswlib_index_mark_deleted (Some index) label)
    data rows dim_ None num_threads replace_deleted = Some (true, r) ->
  exists index2 a2 order,
    r = Some index2 /\ appr_alg index2 = Some a2 /\
    cur_l index2 = to_size_t (cur_l index + rows) /\
    Permutation order (rows_added index rows) /\
    points_added (calls a2) =
      points_added (calls a) ++
      map (fun i => (to_size_t (cur_l index + Z.of_nat i),
                     batch_vector (normalize index) data dim_ (dim index) (Z.of_nat i))) order.
Proof.
  intros Ha Hl Hthreads Hrun.
  destruct (mark_deleted_cases index a label undo Ha) as (a1 & Heq & _ & Hpts).
  rewrite Heq in Hrun.
  destruct (add_items_points (with_appr_alg index (Some a1)) a1 sched data rows dim_ None
              num_threads replace_deleted r eq_refl Hl Hthreads Hrun)
    as (index2 & a2 & order & -> & Ha2 & Hperm & Hpts2).
  destruct (add_items_run (with_appr_alg index (Some a1)) a1 sched data rows dim_ None
              num_threads replace_deleted true (Some index2) eq_refl Hl Hrun)
    as [[? _]|(index2' & o2 & Hres2)]; [discriminate|].
  cbv zeta in Hres2. destruct Hres2 as (Heq2 & _ & _ & Hcur2 & _).
  inversion Heq2; subst index2'. clear Heq2.
  exists index2, a2, order.
  split; [reflexivity|]. split; [exact Ha2|]. split; [exact Hcur2|].
  split; [exact Hperm|]. rewrite Hpts2, Hpts. reflexivity.
Qed.

End DeleteMore.

(** ** Initialising the brute-force index *)

Section BruteForceInitMore.

Context {F : FloatOps} {H : Hnswlib} {host : Host}.

Lemma points_added_bf_calls index data dim_ ids done :
  points_added (map (bf_batch_call index data dim_ ids) done) =
  map (fun i => (batch_label (bf_cur_l index) ids (Z.of_nat i),
                 batch_vector (bf_normalize index) data dim_ (bf_dim index) (Z.of_nat i))) done.
Proof. induction done as [|i done IH]; simpl; [reflexivity|now rewrite IH]. Qed.

(** X16. After a successful [hnswlib_bf_index_init], whatever the index
    held before, a successful [hnswlib_bf_index_add_items] of [rows] rows
    without [ids] leaves an engine whose points are exactly the rows of the
    batch in their order, the row at position [i] under the label [i] (scaled
    to unit length when the index normalizes), and the counter at [rows]. *)
Theorem bf_init_then_add_items_labels_in_order
    (index : BFIndex) (max_elements : Z) (r0 : option BFIndex)
    (data : Z -> float) (rows dim_ : Z) (r1 : option BFIndex) :
  0 <= rows < 2 ^ 64 ->
  hnswlib_bf_index_init (Some index) max_elements = (true, r0) ->
  hnswlib_bf_index_add_items r0 data rows dim_ None = (true, r1) ->
  exists index1 a1,
    r1 = Some index1 /\ alg index1 = Some a1 /\ bf_cur_l index1 = rows /\
    points_added (bf_calls a1) =
      map (fun i => (Z.of_nat i,
                     batch_vector (bf_normalize index) data dim_ (bf_dim index) (Z.of_nat i)))
          (seq 0 (Z.to_nat rows)).
Proof.
  intros Hrows Hinit Hrun.
  unfold hnswlib_bf_index_init in Hinit.
  destruct (bf_space index) as [s|]; [|discriminate].
  unfold new_BruteforceSearch in Hinit.
  destruct (BruteforceSearch_raises s max_elements); [discriminate|].
  inversion Hinit as [Hr0]. clear Hinit. subst r0.
  match type of Hrun with hnswlib_bf_index_add_items (Some ?i) _ _ _ _ = _ =>
    set (index0 := i) in * end.
  destruct (bf_add_items_run index0 (mkBF s max_elements []) data rows dim_ None true r1
              eq_refl Hrun) as [[? _]|(index1 & a1 & done & rest & Hsplit & -> & Ha1 & Hcalls
                                       & Hcur & Hrest)]; [discriminate|].
  rewrite (Hrest eq_refl), app_nil_r in Hsplit. subst done.
  exists index1, a1. split; [reflexivity|]. split; [exact Ha1|]. split.
  { rewrite Hcur. simpl. unfold to_size_t. apply Z.mod_small. lia. }
  rewrite Hcalls. simpl. rewrite points_added_bf_calls. apply map_ext_in.
  intros i Hi. apply in_seq in Hi. simpl. f_equal.
  unfold to_size_t. apply Z.mod_small. lia.
Qed.

End BruteForceInitMore.

(** ** The further properties on the sample instance *)

Section SampleMore.

#[local] Existing Instance Zfloat.
#[local] Existing Instance scan_engine.
#[local] Existing Instance four_threads.

Ltac by_running :=
  solve [ lia
        | vm_compute; reflexivity
        | vm_compute; discriminate
        | vm_compute; split; reflexivity
        | vm_compute; split; discriminate
        | vm_compute; split; [discriminate|reflexivity]
        | vm_compute; lia ].

Lemma ParallelFor_runs_each_unit_once_witness :
  ParallelFor notes_unit 4 0 3 2 [0; 1; 1; 0; 1; 0; 0; 1; 1; 0; 0; 1]%nat []
    = Some ([2; 0; 1]%nat, None) /\
  exists (l : list (nat * nat)) (es : list nat),
    replay notes_unit l [] = ([2; 0; 1]%nat, es) /\
    NoDup (map fst l) /\
    (forall i t : nat, In (i, t) l -> (0 <= i < 3)%nat /\ (t < resolve_threads 4 2)%nat) /\
    (@None nat = None -> es = [] /\ Permutation (map fst l) (seq 0 (3 - 0))).
Proof.
  split; [by_running|].
  refine (@ParallelFor_runs_each_unit_once (list nat) nat notes_unit 4 0 3 2
            [0; 1; 1; 0; 1; 0; 0; 1; 1; 0; 0; 1]%nat [] [2; 0; 1]%nat None _ _);
    by_running.
Defined.

Lemma ParallelFor_empty_range_witness :
  (3 <= 3)%nat /\
  (forall (sched st : list nat) (r : option nat),
     ParallelFor notes_unit 4 3 3 2 sched [7%nat] = Some (st, r) -> st = [7%nat] /\ r = None) /\
  ParallelFor notes_unit 4 3 3 2 (one_by_one 3 3 (resolve_threads 4 2)) [7%nat]
    = Some ([7%nat], None).
Proof.
  split; [by_running|].
  refine (@ParallelFor_empty_range (list nat) nat notes_unit 4 3 3 2 [7%nat] _); by_running.
Defined.

Lemma ParallelFor_one_thread_stops_at_first_failure_witness :
  resolve_threads 4 1 = 1%nat /\
  ParallelFor raises_at_two 4 0 5 1 [] [] = Some ([2; 1; 0]%nat, Some 2%nat) /\
  exists (done : list nat) (id : nat) (rest st1 : list nat),
    seq 0 (5 - 0) = done ++ id :: rest /\
    for_loop raises_at_two done [] = (st1, None) /\
    raises_at_two id 0 st1 = ([2; 1; 0]%nat, Some 2%nat).
Proof.
  split; [by_running|].
  refine (@ParallelFor_one_thread_stops_at_first_failure (list nat) nat raises_at_two 4 0 5 1
            [] [] [2; 1; 0]%nat 2%nat _ _); by_running.
Defined.

Lemma search_knn_writes_whole_blocks_only_witness :
  sample_search SpaceTypeL2 20
    = Some (false, sample_labels SpaceTypeL2 20, sample_distances SpaceTypeL2 20) /\
  (forall z : Z,
     z < 0 \/ 9 * 20 <= z ->
     sample_labels SpaceTypeL2 20 z = 0 /\ sample_distances SpaceTypeL2 20 z = 0) /\
  (forall i : nat,
     output_block 20 (Z.of_nat i) (sample_labels SpaceTypeL2 20)
                  (sample_distances SpaceTypeL2 20)
     = output_block 20 (Z.of_nat i) (fun _ : Z => 0) (fun _ : Z => 0)
     \/
     (Z.of_nat (List.length (knn_found (sample_index SpaceTypeL2)
                                       (the_engine (sample_index SpaceTypeL2))
                                       sample_rows 20 i)) = 20 /\
      output_block 20 (Z.of_nat i) (sample_labels SpaceTypeL2 20)
                   (sample_distances SpaceTypeL2 20)
      = written_out (pq_of_list (knn_found (sample_index SpaceTypeL2)
                                           (the_engine (sample_index SpaceTypeL2))
                                           sample_rows 20 i)))).
Proof.
  split; [by_running|].
  refine (@search_knn_writes_whole_blocks_only Zfloat scan_engine four_threads
            (sample_index SpaceTypeL2) (the_engine (sample_index SpaceTypeL2)) sample_schedule
            sample_rows 20 (fun _ => 0) (fun _ => 0) 9 2 false
            (sample_labels SpaceTypeL2 20) (sample_distances SpaceTypeL2 20) _ _ _ _);
    by_running.
Defined.

Lemma search_knn_result_independent_of_threads_witness :
  sample_search SpaceTypeL2 3
    = Some (true, sample_labels SpaceTypeL2 3, sample_distances SpaceTypeL2 3) /\
  sample_search_alone SpaceTypeL2 3
    = Some (true, labels_in (sample_search_alone SpaceTypeL2 3),
            distances_in (sample_search_alone SpaceTypeL2 3)) /\
  forall z : Z,
    sample_labels SpaceTypeL2 3 z = labels_in (sample_search_alone SpaceTypeL2 3) z /\
    sample_distances SpaceTypeL2 3 z = distances_in (sample_search_alone SpaceTypeL2 3) z.
Proof.
  split; [by_running|]. split; [by_running|].
  refine (@search_knn_result_independent_of_threads Zfloat scan_engine four_threads
            (sample_index SpaceTypeL2) (the_engine (sample_index SpaceTypeL2)) sample_schedule []
            sample_rows 3 (fun _ => 0) (fun _ => 0) 9 2 1
            (sample_labels SpaceTypeL2 3) (labels_in (sample_search_alone SpaceTypeL2 3))
            (sample_distances SpaceTypeL2 3) (distances_in (sample_search_alone SpaceTypeL2 3))
            _ _ _ _ _ _ _);
    by_running.
Defined.

Lemma bf_search_knn_blocks_sorted_witness :
  sample_bf_search = Some (true, labels_in sample_bf_search, distances_in sample_bf_search) /\
  map (labels_in sample_bf_search) [0; 1; 2; 3; 4; 5; 6] = [0; 1; 1; 0; 2; 1; 0] /\
  map (distances_in sample_bf_search) [0; 1; 2; 3; 4; 5; 6] = [0; 7058; 0; 7058; 0; 12193; 0] /\
  (forall z : Z,
     z < 0 \/ 3 * 2 <= z ->
     labels_in sample_bf_search z = 0 /\ distances_in sample_bf_search z = 0) /\
  (true = true ->
   0 < default_threads 2 (bf_num_threads_default sample_bf_index) < 2 ^ 31 ->
   forall i : nat,
     Z.of_nat i < 3 ->
     let block := output_block 2 (Z.of_nat i) (labels_in sample_bf_search)
                               (distances_in sample_bf_search) in
     Permutation (map (fun p : Z * float => (snd p, fst p)) block)
       (bf_knn_found sample_bf_index (the_bf_engine sample_bf_index) sample_rows 2 i) /\
     (orders_distances
        (bf_knn_found sample_bf_index (the_bf_engine sample_bf_index) sample_rows 2 i) ->
      sorted_by_distance block)).
Proof.
  split; [by_running|]. split; [by_running|]. split; [by_running|].
  refine (@bf_search_knn_blocks_sorted Zfloat scan_engine four_threads
            sample_bf_index (the_bf_engine sample_bf_index) sample_schedule
            sample_rows 2 (fun _ => 0) (fun _ => 0) 3 2 true
            (labels_in sample_bf_search) (distances_in sample_bf_search) _ _ _ _ _);
    [by_running | by_running | by_running | | by_running].
  intros i Hi. destruct i as [|[|[|i]]]; [vm_compute; reflexivity ..|lia].
Defined.

Lemma batch_calls_return_witness :
  (forall i : nat,
     Z.of_nat i < 3 ->
     Z.of_nat (List.length (bf_knn_found sample_bf_index (the_bf_engine sample_bf_index)
                                         sample_rows 2 i)) = 2) /\
  exists (sched : list nat) (r : bool * (Z -> Z) * (Z -> float)),
    hnswlib_bf_index_search_knn sched (Some sample_bf_index) sample_rows 2
                                (fun _ : Z => 0) (fun _ : Z => 0) 3 2 = Some r.
Proof.
  assert (forall i : nat,
            Z.of_nat i < 3 ->
            Z.of_nat (List.length (bf_knn_found sample_bf_index (the_bf_engine sample_bf_index)
                                                sample_rows 2 i)) = 2) as Hfull
    by (intros i Hi; destruct i as [|[|[|i]]]; [vm_compute; reflexivity ..|lia]).
  split; [exact Hfull|].
  refine (proj2 (proj2 (@batch_calls_return Zfloat scan_engine four_threads))
            (Some sample_bf_index) sample_rows 2 (fun _ => 0) (fun _ => 0) 3 2 _).
  intros idx a i Hidx Ha Hi. inversion Hidx. subst idx.
  assert (a = the_bf_engine sample_bf_index) as ->
    by (unfold the_bf_engine; now rewrite Ha).
  now apply Hfull.
Defined.

Lemma small_batches_run_on_the_calling_thread_witness :
  add_items_threads (sample_new SpaceTypeL2) 3 2 = 1 /\
  search_knn_threads (sample_new SpaceTypeL2) 3 2 = 1 /\
  hnswlib_index_add_items sample_schedule (Some (sample_new SpaceTypeL2)) sample_rows 3 2 None
                          2 false
  = hnswlib_index_add_items [] (Some (sample_new SpaceTypeL2)) sample_rows 3 2 None 2 false /\
  hnswlib_index_add_items [] (Some (sample_new SpaceTypeL2)) sample_rows 3 2 None 2 false
  <> None /\
  hnswlib_index_search_knn sample_schedule (Some (sample_new SpaceTypeL2)) sample_rows 2
                           (fun _ : Z => 0) (fun _ : Z => 0) 3 2
  = hnswlib_index_search_knn [] (Some (sample_new SpaceTypeL2)) sample_rows 2
                             (fun _ : Z => 0) (fun _ : Z => 0) 3 2 /\
  hnswlib_index_search_knn [] (Some (sample_new SpaceTypeL2)) sample_rows 2
                           (fun _ : Z => 0) (fun _ : Z => 0) 3 2
  <> None.
Proof.
  refine (@small_batches_run_on_the_calling_thread Zfloat scan_engine four_threads
            (sample_new SpaceTypeL2) sample_schedule sample_rows 3 2 None 2 false
            2 (fun _ => 0) (fun _ => 0) _ _);
    by_running.
Defined.

Lemma add_items_failure_keeps_counter_witness :
  sample_small_add = Some (false, index_in sample_small_add) /\
  map fst (points_added (calls (the_engine (the_index (index_in sample_small_add)))))
    = [0; 2; 1; 3; 5] /\
  exists (index1 : HNSWIndex) (a1 : HierarchicalNSW) (added : list nat),
    index_in sample_small_add = Some index1 /\
    appr_alg index1 = Some a1 /\
    cur_l index1 = cur_l sample_small /\
    calls a1 = calls (the_engine sample_small) ++
               map (batch_call sample_small sample_rows 2 None false) added /\
    (forall i : nat,
       In i added -> (i < Z.to_nat 10)%nat \/ (i = 0%nat /\ ep_added sample_small = false)) /\
    (forall i : Z, batch_label (cur_l index1) None i = batch_label (cur_l sample_small) None i).
Proof.
  split; [by_running|]. split; [by_running|].
  refine (@add_items_failure_keeps_counter Zfloat scan_engine four_threads
            sample_small (the_engine sample_small) sample_schedule sample_rows 10 2 None 2 false
            (index_in sample_small_add) _ _ _);
    by_running.
Defined.

Lemma add_items_empty_batch_witness :
  ep_added (sample_new SpaceTypeL2) = false /\
  addPoint_raises (the_engine (sample_new SpaceTypeL2))
    (batch_vector (normalize (sample_new SpaceTypeL2)) sample_rows
                  (dim (sample_new SpaceTypeL2)) (dim (sample_new SpaceTypeL2)) 0)
    (batch_label (cur_l (sample_new SpaceTypeL2)) (Some sample_ids) 0) false = None /\
  (ep_added (sample_new SpaceTypeL2) = false ->
   addPoint_raises (the_engine (sample_new SpaceTypeL2))
     (batch_vector (normalize (sample_new SpaceTypeL2)) sample_rows
                   (dim (sample_new SpaceTypeL2)) (dim (sample_new SpaceTypeL2)) 0)
     (batch_label (cur_l (sample_new SpaceTypeL2)) (Some sample_ids) 0) false = None ->
   exists index1 : HNSWIndex,
     hnswlib_index_add_items sample_schedule (Some (sample_new SpaceTypeL2)) sample_rows 0
                             (dim (sample_new SpaceTypeL2)) (Some sample_ids) 2 false
     = Some (true, Some index1) /\
     appr_alg index1
       = Some (with_calls (the_engine (sample_new SpaceTypeL2))
                 (calls (the_engine (sample_new SpaceTypeL2)) ++
                  [batch_call (sample_new SpaceTypeL2) sample_rows
                              (dim (sample_new SpaceTypeL2)) (Some sample_ids) false 0%nat])) /\
     ep_added index1 = true /\ cur_l index1 = cur_l (sample_new SpaceTypeL2)) /\
  (ep_added (sample_new SpaceTypeL2) = true ->
   hnswlib_index_add_items sample_schedule (Some (sample_new SpaceTypeL2)) sample_rows 0
                           (dim (sample_new SpaceTypeL2)) (Some sample_ids) 2 false
   = Some (true, Some (sample_new SpaceTypeL2))).
Proof.
  split; [by_running|]. split; [by_running|].
  refine (@add_items_empty_batch Zfloat scan_engine four_threads
            (sample_new SpaceTypeL2) (the_engine (sample_new SpaceTypeL2)) sample_schedule
            sample_rows (Some sample_ids) 2 false _ _ _);
    by_running.
Defined.

Lemma add_items_batches_get_consecutive_labels_witness :
  sample_add SpaceTypeL2 [] None 1 = Some (true, sample_added SpaceTypeL2 [] None 1) /\
  sample_add_again (sample_added SpaceTypeL2 [] None 1)
    = Some (true, index_in (sample_add_again (sample_added SpaceTypeL2 [] None 1))) /\
  map fst (points_added (calls (the_engine (the_index
             (index_in (sample_add_again (sample_added SpaceTypeL2 [] None 1)))))))
    = [0; 1; 2; 3; 4; 5; 6; 7; 8; 9; 11; 10; 12; 14; 13; 16; 15; 17; 19; 18] /\
  exists (index2 : HNSWIndex) (a2 : HierarchicalNSW) (order1 order2 : list nat),
    index_in (sample_add_again (sample_added SpaceTypeL2 [] None 1)) = Some index2 /\
    appr_alg index2 = Some a2 /\
    cur_l index2 = cur_l (sample_new SpaceTypeL2) + 10 + 10 /\
    Permutation order1 (seq 0 (Z.to_nat 10)) /\
    Permutation order2 (seq 0 (Z.to_nat 10)) /\
    map fst (points_added (calls a2)) =
      map fst (points_added (calls (the_engine (sample_new SpaceTypeL2)))) ++
      map (fun i : nat => cur_l (sample_new SpaceTypeL2) + Z.of_nat i) order1 ++
      map (fun i : nat => cur_l (sample_new SpaceTypeL2) + 10 + Z.of_nat i) order2 /\
    NoDup (map (fun i : nat => cur_l (sample_new SpaceTypeL2) + Z.of_nat i) order1 ++
           map (fun i : nat => cur_l (sample_new SpaceTypeL2) + 10 + Z.of_nat i) order2).
Proof.
  split; [by_running|]. split; [by_running|]. split; [by_running|].
  refine (@add_items_batches_get_consecutive_labels Zfloat scan_engine four_threads
            (sample_new SpaceTypeL2) (the_engine (sample_new SpaceTypeL2)) [] sample_schedule
            sample_rows sample_rows 10 10 2 2 1 2 false false
            (sample_added SpaceTypeL2 [] None 1)
            (index_in (sample_add_again (sample_added SpaceTypeL2 [] None 1)))
            _ _ _ _ _ _ _ _ _);
    by_running.
Defined.

Lemma init_then_add_items_labels_from_zero_witness :
  hnswlib_index_init (Some (the_index (hnswlib_index_create SpaceTypeL2 2))) 100 16 200 100 false
    = (true, Some (sample_new SpaceTypeL2)) /\
  sample_add SpaceTypeL2 sample_schedule None 2
    = Some (true, sample_added SpaceTypeL2 sample_schedule None 2) /\
  exists (index1 : HNSWIndex) (a1 : HierarchicalNSW) (order : list nat),
    sample_added SpaceTypeL2 sample_schedule None 2 = Some index1 /\
    appr_alg index1 = Some a1 /\
    cur_l index1 = 10 /\
    Permutation order (seq 0 (Z.to_nat 10)) /\
    points_added (calls a1) =
      map (fun i : nat =>
             (Z.of_nat i,
              batch_vector (normalize (the_index (hnswlib_index_create SpaceTypeL2 2)))
                           sample_rows 2 (dim (the_index (hnswlib_index_create SpaceTypeL2 2)))
                           (Z.of_nat i))) order.
Proof.
  split; [by_running|]. split; [by_running|].
  refine (@init_then_add_items_labels_from_zero Zfloat scan_engine four_threads
            (the_index (hnswlib_index_create SpaceTypeL2 2)) 100 16 200 100 false
            (Some (sample_new SpaceTypeL2))
            sample_schedule sample_rows 10 2 2 false
            (sample_added SpaceTypeL2 sample_schedule None 2) _ _ _ _);
    by_running.
Defined.

Lemma bf_add_items_in_batch_order_witness :
  sample_bf_add 8 = (false, snd (sample_bf_add 8)) /\
  map fst (points_added (bf_calls (the_bf_engine (the_bf_index (snd (sample_bf_add 8))))))
    = [0; 1; 2; 3; 4] /\
  exists (index1 : BFIndex) (a1 : BruteforceSearch) (n : nat),
    snd (sample_bf_add 8) = Some index1 /\
    alg index1 = Some a1 /\
    (n <= Z.to_nat 8)%nat /\
    bf_calls a1 = bf_calls (the_bf_engine sample_bf) ++
                  map (bf_batch_call sample_bf sample_rows 2 None) (seq 0 n) /\
    bf_cur_l index1 = bf_cur_l sample_bf /\
    (false = true -> n = Z.to_nat 8) /\
    (false = false ->
     2 = to_size_t (bf_dim sample_bf) ->
     (n < Z.to_nat 8)%nat /\
     snd (bf_add_items_row sample_bf sample_rows 2 None n 0 a1) <> None).
Proof.
  split; [by_running|]. split; [by_running|].
  refine (@bf_add_items_in_batch_order Zfloat scan_engine
            sample_bf (the_bf_engine sample_bf) sample_rows 8 2 None false
            (snd (sample_bf_add 8)) _ _);
    by_running.
Defined.

Lemma deletion_keeps_the_numbering_witness :
  sample_add_again (Some (sample_index SpaceTypeL2))
    = Some (true, index_in (sample_add_again (Some (sample_index SpaceTypeL2)))) /\
  map fst (points_added (calls (the_engine (the_index
             (index_in (sample_add_again (Some (sample_index SpaceTypeL2))))))))
    = [100; 102; 101; 103; 105; 104; 107; 106; 108; 109;
       11; 10; 12; 14; 13; 16; 15; 17; 19; 18] /\
  exists (index2 : HNSWIndex) (a2 : HierarchicalNSW) (order : list nat),
    index_in (sample_add_again (Some (sample_index SpaceTypeL2))) = Some index2 /\
    appr_alg index2 = Some a2 /\
    cur_l index2 =
      to_size_t (cur_l (the_index (sample_added SpaceTypeL2 sample_schedule
                                                (Some sample_ids) 2)) + 10) /\
    Permutation order
      (rows_added (the_index (sample_added SpaceTypeL2 sample_schedule (Some sample_ids) 2))
                  10) /\
    points_added (calls a2) =
      points_added (calls (the_engine (the_index
                      (sample_added SpaceTypeL2 sample_schedule (Some sample_ids) 2)))) ++
      map (fun i : nat =>
             (to_size_t (cur_l (the_index (sample_added SpaceTypeL2 sample_schedule
                                                        (Some sample_ids) 2)) + Z.of_nat i),
              batch_vector
                (normalize (the_index (sample_added SpaceTypeL2 sample_schedule
                                                    (Some sample_ids) 2)))
                sample_rows 2
                (dim (the_index (sample_added SpaceTypeL2 sample_schedule (Some sample_ids) 2)))
                (Z.of_nat i))) order.
Proof.
  split; [by_running|]. split; [by_running|].
  refine (@deletion_keeps_the_numbering Zfloat scan_engine four_threads
            (the_index (sample_added SpaceTypeL2 sample_schedule (Some sample_ids) 2))
            (the_engine (the_index (sample_added SpaceTypeL2 sample_schedule
                                                 (Some sample_ids) 2)))
            103 false sample_schedule sample_rows 10 2 2 false
            (index_in (sample_add_again (Some (sample_index SpaceTypeL2)))) _ _ _ _);
    by_running.
Defined.

Lemma bf_init_then_add_items_labels_in_order_witness :
  map fst (points_added (bf_calls (the_bf_engine sample_bf_index))) = [0; 1; 2; 3; 4] /\
  hnswlib_bf_index_init (Some sample_bf_index) 5 = (true, sample_bf_reinit) /\
  sample_bf_again = (true, snd sample_bf_again) /\
  exists (index1 : BFIndex) (a1 : BruteforceSearch),
    snd sample_bf_again = Some index1 /\
    alg index1 = Some a1 /\
    bf_cur_l index1 = 5 /\
    points_added (bf_calls a1) =
      map (fun i : nat =>
             (Z.of_nat i,
              batch_vector (bf_normalize sample_bf_index) sample_rows 2
                           (bf_dim sample_bf_index) (Z.of_nat i)))
          (seq 0 (Z.to_nat 5)).
Proof.
  split; [by_running|]. split; [by_running|]. split; [by_running|].
  refine (@bf_init_then_add_items_labels_in_order Zfloat scan_engine
            sample_bf_index 5 sample_bf_reinit sample_rows 5 2 (snd sample_bf_again) _ _ _);
    by_running.
Defined.

Lemma search_knn_blocks_hold_the_results_sorted_witness :
  sample_search SpaceTypeL2 3
    = Some (true, sample_labels SpaceTypeL2 3, sample_distances SpaceTypeL2 3) /\
  map (sample_labels SpaceTypeL2 3) [9; 10; 11] = [102; 101; 100] /\
  map (sample_distances SpaceTypeL2 3) [9; 10; 11] = [2; 8; 18] /\
  orders_distances (knn_found (sample_index SpaceTypeL2) (the_engine (sample_index SpaceTypeL2))
                              sample_rows 3 3) /\
  let block := output_block 3 (Z.of_nat 3) (sample_labels SpaceTypeL2 3)
                            (sample_distances SpaceTypeL2 3) in
  List.length block = Z.to_nat 3 /\
  Permutation (map (fun p : Z * float => (snd p, fst p)) block)
    (knn_found (sample_index SpaceTypeL2) (the_engine (sample_index SpaceTypeL2))
               sample_rows 3 3) /\
  (orders_distances
     (knn_found (sample_index SpaceTypeL2) (the_engine (sample_index SpaceTypeL2))
                sample_rows 3 3) ->
   sorted_by_distance block).
Proof.
  split; [by_running|]. split; [by_running|]. split; [by_running|].
  split; [apply Zfloat_orders|].
  refine (@search_knn_blocks_hold_the_results_sorted Zfloat scan_engine four_threads
            (sample_index SpaceTypeL2) (the_engine (sample_index SpaceTypeL2))
            sample_schedule sample_rows 3 (fun _ => 0) (fun _ => 0) 9 2
            (sample_labels SpaceTypeL2 3) (sample_distances SpaceTypeL2 3) _ _ _ _ 3%nat _);
    by_running.
Defined.

End SampleMore.
